(** * Halley networking: UDPConnection and ReliableConnection

    A shallow embedding of [halley/net/src/udp_connection.cpp] and
    [halley/net/src/reliable_connection.cpp], followed by the properties
    of the reliable-datagram layer that are stated about them.

    Conventions of the embedding:
    - machine integers are [Z] with the wrap-around of their C++ type written
      out ([wrap8], [wrap16], [wrap32], [wrapSize]);
    - a byte on the wire is a [Z] in [0, 256); a packet is a [list Z];
    - [std::vector] rings are lists read with [!!] and written with [<[i:=x]>];
    - GSL [Expects] failures (which terminate the program) and loops that
      would not come to an end are [None];
    - callbacks into listeners and calls into the socket are recorded in
      traces kept in the state; a listener is taken to return without
      calling back into the channel;
    - [Clock::now()] is an argument: one reading serves a whole call;
    - [std::cout] logging is not part of the state. *)

From Stdlib Require Import ZArith String Ascii.
From stdpp Require Import base numbers list option gmap.

Local Open Scope Z_scope.

(** ** Fixed-width arithmetic and wire encodings *)

Definition wrap8 (z : Z) : Z := z mod 256.
Definition wrap16 (z : Z) : Z := z mod 65536.
Definition wrap32 (z : Z) : Z := z mod 4294967296.
(** [size_t] of the 64-bit targets the engine builds for. *)
Definition wrapSize (z : Z) : Z := z mod 18446744073709551616.

(** Value of a [short] stored in two bytes (two's complement). *)
Definition toShort (z : Z) : Z :=
  let u := wrap16 z in if u <? 32768 then u else u - 65536.

(** Value of a [char] stored in one byte (two's complement). *)
Definition toChar (z : Z) : Z :=
  let u := wrap8 z in if u <? 128 then u else u - 256.

(** Object representation of integers on the little-endian targets. *)
Definition le16 (z : Z) : list Z :=
  [Z.land z 255; Z.land (Z.shiftr z 8) 255].

Definition le32 (z : Z) : list Z :=
  [Z.land z 255; Z.land (Z.shiftr z 8) 255;
   Z.land (Z.shiftr z 16) 255; Z.land (Z.shiftr z 24) 255].

Fixpoint fromLE (bs : list Z) : Z :=
  match bs with
  | [] => 0
  | b :: rest => Z.lor b (Z.shiftl (fromLE rest) 8)
  end.

(** Bytes of a C string literal, with its terminating NUL. *)
Definition cstring (s : string) : list Z :=
  map (fun a => Z.of_nat (nat_of_ascii a)) (list_ascii_of_string s) ++ [0].

(** ** Network packets *)

Module NetworkPacket.

(** Modelled from the spec: [network_packet.h] is not among the sources.
    The spec has headers prepended to outbound packets ("a single leading
    byte ... is prepended to every outbound packet") and extracted from the
    front of inbound ones ("Extract ReliableHeader", "extract [size] bytes
    of payload").  A packet is the list of its bytes, first byte first.
    A span made of the address of an object and a count stands for that
    many leading bytes of the object, which gives the wire sizes of the
    spec: 8 bytes of [ReliableHeader], 1 to 4 bytes of sub-header, 14 bytes
    of handshake. *)
Definition OutboundNetworkPacket : Type := list Z.
Definition InboundNetworkPacket : Type := list Z.

Definition getSize (p : list Z) : Z := Z.of_nat (length p).

Definition addHeader (hdr : list Z) (p : OutboundNetworkPacket)
  : OutboundNetworkPacket := hdr ++ p.

(** [extractHeader n p] reads [n] bytes off the front; [None] when the
    packet is shorter than that, where what the class does is not in the
    sources. *)
Definition extractHeader (n : nat) (p : InboundNetworkPacket)
  : option (list Z * InboundNetworkPacket) :=
  if decide (n ≤ length p)%nat then Some (take n p, drop n p) else None.

(** [copyTo dst] writes the whole packet to [dst] and returns its size. *)
Definition copyTo (p : OutboundNetworkPacket) : list Z * Z := (p, getSize p).

End NetworkPacket.

Import NetworkPacket.

(** Modelled from the spec: the enumeration is declared in
    [iconnection.h], which is not among the sources; the spec lists the
    states Connecting, Open, Closing and Closed, the four enumerators the
    two files name. *)
Inductive ConnectionStatus : Type :=
  | CONNECTING
  | OPEN
  | CLOSING
  | CLOSED.

#[global] Instance ConnectionStatus_eq_dec : EqDecision ConnectionStatus.
Proof. solve_decision. Defined.

(** Modelled from the spec: [IConnection] is declared in [iconnection.h],
    which is not among the sources.  The spec has the reliable layer treat
    its parent as a connection that can "send one outbound packet, poll one
    inbound packet, report status, close": the four calls
    [reliable_connection.cpp] makes on [parent]. *)
Class IConnection (C : Type) := {
  conn_close : C -> C;
  conn_getStatus : C -> ConnectionStatus;
  conn_send : OutboundNetworkPacket -> C -> C;
  conn_receive : C -> option (InboundNetworkPacket * C);
}.

(** ** udp_connection.cpp *)

Module UDPConnection.

(** [struct HandshakeAccept]: [const char handshake[12]] initialised from
    the literal, then [short id = -1]; 14 bytes, no padding. *)
Record HandshakeAccept := {
  handshake : list Z;
  id : Z;
}.

Definition HandshakeAccept_new : HandshakeAccept :=
  {| handshake := cstring "halley_accp"; id := -1 |}.

Definition sizeof_handshake : nat := 12.
Definition sizeof_HandshakeAccept : nat := 14.

Definition HandshakeAccept_bytes (a : HandshakeAccept) : list Z :=
  handshake a ++ le16 (id a).

(** Address and port of the remote. *)
Definition UDPEndpoint : Type := (Z * Z)%type.

(** The members [udp_connection.cpp] reads and writes ([udp_connection.h]
    is not among the sources), and the trace of the socket. *)
Record t := {
  remote : UDPEndpoint;
  status : ConnectionStatus;
  connectionId : Z;
  pendingSend : list OutboundNetworkPacket;
  pendingReceive : list InboundNetworkPacket;
  sendBuffer : list Z;
  error : string;
  (** datagrams handed to [socket.async_send_to], oldest first *)
  socket : list (UDPEndpoint * list Z);
}.

Definition set_status (s : ConnectionStatus) (c : t) : t :=
  {| remote := remote c; status := s; connectionId := connectionId c;
     pendingSend := pendingSend c; pendingReceive := pendingReceive c;
     sendBuffer := sendBuffer c; error := error c; socket := socket c |}.

Definition set_connectionId (i : Z) (c : t) : t :=
  {| remote := remote c; status := status c; connectionId := i;
     pendingSend := pendingSend c; pendingReceive := pendingReceive c;
     sendBuffer := sendBuffer c; error := error c; socket := socket c |}.

Definition set_pendingSend (q : list OutboundNetworkPacket) (c : t) : t :=
  {| remote := remote c; status := status c; connectionId := connectionId c;
     pendingSend := q; pendingReceive := pendingReceive c;
     sendBuffer := sendBuffer c; error := error c; socket := socket c |}.

Definition set_pendingReceive (q : list InboundNetworkPacket) (c : t) : t :=
  {| remote := remote c; status := status c; connectionId := connectionId c;
     pendingSend := pendingSend c; pendingReceive := q;
     sendBuffer := sendBuffer c; error := error c; socket := socket c |}.

Definition set_error (e : string) (c : t) : t :=
  {| remote := remote c; status := status c; connectionId := connectionId c;
     pendingSend := pendingSend c; pendingReceive := pendingReceive c;
     sendBuffer := sendBuffer c; error := e; socket := socket c |}.

(** [socket.async_send_to(buffer(sendBuffer, size), remote, ...)] after
    [packet.copyTo(sendBuffer)]. *)
Definition async_send_to (buf : list Z) (size : Z) (c : t) : t :=
  {| remote := remote c; status := status c; connectionId := connectionId c;
     pendingSend := pendingSend c; pendingReceive := pendingReceive c;
     sendBuffer := buf; error := error c;
     socket := socket c ++ [(remote c, take (Z.to_nat size) buf)] |}.

Definition new (remoteEndpoint : UDPEndpoint) : t :=
  {| remote := remoteEndpoint; status := CONNECTING; connectionId := -1;
     pendingSend := []; pendingReceive := []; sendBuffer := [];
     error := EmptyString; socket := [] |}.

(** The body is a TODO comment only. *)
Definition onClose (c : t) : t :=
  if decide (status c = OPEN) then c else c.

Definition close (c : t) : t := set_status CLOSING (onClose c).

Definition terminateConnection (c : t) : t := set_status CLOSED (onClose c).

Definition sendNext (c : t) : t :=
  match pendingSend c with
  | [] => c
  | packet :: rest =>
      let '(buf, size) := copyTo packet in
      async_send_to buf size (set_pendingSend rest c)
  end.

(** The completion handler given to [async_send_to]; [failed] is the
    truth value of its [error_code]. *)
Definition sendNext_completion (failed : bool) (c : t) : t :=
  if failed then close c
  else if bool_decide (pendingSend c ≠ []) then sendNext c
  else c.

Definition send (packet : OutboundNetworkPacket) (c : t) : t :=
  if bool_decide (status c = OPEN) || bool_decide (status c = CONNECTING) then
    (* std::array<char, 1> id = { -1 }; *)
    let id := [wrap8 (-1)] in
    let packet := addHeader id packet in
    let needsSend := bool_decide (pendingSend c = []) in
    let c := set_pendingSend (pendingSend c ++ [packet]) c in
    if needsSend then sendNext c else c
  else c.

Definition receive (c : t) : option (InboundNetworkPacket * t) :=
  match pendingReceive c with
  | [] => None
  | packet :: rest => Some (packet, set_pendingReceive rest c)
  end.

Definition matchesEndpoint (id : Z) (remoteEndpoint : UDPEndpoint) (c : t)
  : bool :=
  (bool_decide (id = -1) || bool_decide (id = connectionId c))
  && bool_decide (remote c = remoteEndpoint).

Definition onOpen (id : Z) (c : t) : t :=
  set_status OPEN (set_connectionId id c).

(** [None]: the [Expects(data.size() <= 1500)] contract is violated. *)
Definition onReceive (data : list Z) (c : t) : option t :=
  if decide (length data ≤ 1500)%nat then
    if decide (status c = CONNECTING) then
      let accept := HandshakeAccept_new in
      if decide (length data = sizeof_HandshakeAccept) then
        (* memcmp(data.data(), &accept, sizeof(accept.handshake)) == 0 *)
        if decide (take sizeof_handshake data
                   = take sizeof_handshake (HandshakeAccept_bytes accept))
        then Some (onOpen (id accept) c)
        else Some c
      else Some c
    else if decide (status c = OPEN) then
      if decide (length data ≤ 1500)%nat
      then Some (set_pendingReceive (pendingReceive c ++ [data]) c)
      else Some c
    else Some c
  else None.

Definition setError (cs : string) (c : t) : t := set_error cs c.

Definition open (id : Z) (c : t) : t :=
  if decide (status c = CONNECTING) then
    let accept :=
      {| handshake := handshake HandshakeAccept_new; id := id |} in
    onOpen id (send (HandshakeAccept_bytes accept) c)
  else c.

(** The id field of a received handshake datagram: the [short] stored
    after the 12 bytes of the magic. *)
Definition carriedId (data : list Z) : Z :=
  toShort (fromLE (take 2 (drop sizeof_handshake data))).

End UDPConnection.

#[global] Instance UDPConnection_IConnection : IConnection UDPConnection.t := {
  conn_close := UDPConnection.close;
  conn_getStatus := UDPConnection.status;
  conn_send := UDPConnection.send;
  conn_receive := UDPConnection.receive;
}.

(** ** reliable_connection.cpp *)

(** Single-precision arithmetic is kept abstract: the latency estimate is
    carried through the state, and nothing below depends on how a [float]
    rounds.  [lerp] is declared in [halley/utils/utils.h]. *)
Class FloatOps := {
  float : Type;
  float_zero : float;
  (** [std::chrono::duration<float>(d).count()] of a clock difference *)
  float_of_duration : Z -> float;
  (** [fabs(x) < 0.00001f] *)
  fabs_lt_eps : float -> bool;
  (** [lerp(a, b, 0.2f)] *)
  lerp_02 : float -> float -> float;
}.

(** A fixed-point stand-in, used only to run the worked examples: the
    clock ticks once per microsecond and a latency is a whole number of
    microseconds. *)
#[global] Instance MicrosecondFloat : FloatOps := {
  float := Z;
  float_zero := 0;
  float_of_duration d := d;
  fabs_lt_eps x := Z.abs x <? 10;
  lerp_02 a b := a + (b - a) / 5;
}.

(** Identity of a registered [IReliableConnectionAckListener]. *)
Definition Listener : Type := nat.

Definition BUFFER_SIZE : Z := 1024.

Module ReliableConnection.

(** Modelled from the spec: the entry type of the [sentPackets] ring is
    declared in [reliable_connection.h], which is not among the sources;
    the spec's sent slot has [waiting], [tag] and [timestamp], the three
    members [reliable_connection.cpp] uses. *)
Record SentPacketData := {
  waiting : bool;
  tag : Z;
  timestamp : Z;
}.

Section WithParent.
Context {C : Type} `{IConnection C} `{FloatOps}.

(** The members [reliable_connection.cpp] reads and writes, and the trace
    of the listener callbacks. *)
Record t := {
  parent : C;
  sequenceSent : Z;
  highestReceived : Z;
  receivedSeqs : list Z;
  sentPackets : list SentPacketData;
  pendingPackets : list InboundNetworkPacket;
  ackListeners : list Listener;
  lag : float;
  lastSend : Z;
  lastReceive : Z;
  (** calls [listener->onPacketAcked(tag)] made so far, oldest first *)
  acked : list (Listener * Z);
}.

Definition set_parent (p : C) (s : t) : t :=
  {| parent := p; sequenceSent := sequenceSent s;
     highestReceived := highestReceived s; receivedSeqs := receivedSeqs s;
     sentPackets := sentPackets s; pendingPackets := pendingPackets s;
     ackListeners := ackListeners s; lag := lag s; lastSend := lastSend s;
     lastReceive := lastReceive s; acked := acked s |}.

Definition set_sequenceSent (v : Z) (s : t) : t :=
  {| parent := parent s; sequenceSent := v;
     highestReceived := highestReceived s; receivedSeqs := receivedSeqs s;
     sentPackets := sentPackets s; pendingPackets := pendingPackets s;
     ackListeners := ackListeners s; lag := lag s; lastSend := lastSend s;
     lastReceive := lastReceive s; acked := acked s |}.

Definition set_highestReceived (v : Z) (s : t) : t :=
  {| parent := parent s; sequenceSent := sequenceSent s;
     highestReceived := v; receivedSeqs := receivedSeqs s;
     sentPackets := sentPackets s; pendingPackets := pendingPackets s;
     ackListeners := ackListeners s; lag := lag s; lastSend := lastSend s;
     lastReceive := lastReceive s; acked := acked s |}.

Definition set_receivedSeqs (r : list Z) (s : t) : t :=
  {| parent := parent s; sequenceSent := sequenceSent s;
     highestReceived := highestReceived s; receivedSeqs := r;
     sentPackets := sentPackets s; pendingPackets := pendingPackets s;
     ackListeners := ackListeners s; lag := lag s; lastSend := lastSend s;
     lastReceive := lastReceive s; acked := acked s |}.

Definition set_sentPackets (r : list SentPacketData) (s : t) : t :=
  {| parent := parent s; sequenceSent := sequenceSent s;
     highestReceived := highestReceived s; receivedSeqs := receivedSeqs s;
     sentPackets := r; pendingPackets := pendingPackets s;
     ackListeners := ackListeners s; lag := lag s; lastSend := lastSend s;
     lastReceive := lastReceive s; acked := acked s |}.

Definition set_pendingPackets (q : list InboundNetworkPacket) (s : t) : t :=
  {| parent := parent s; sequenceSent := sequenceSent s;
     highestReceived := highestReceived s; receivedSeqs := receivedSeqs s;
     sentPackets := sentPackets s; pendingPackets := q;
     ackListeners := ackListeners s; lag := lag s; lastSend := lastSend s;
     lastReceive := lastReceive s; acked := acked s |}.

Definition set_ackListeners (l : list Listener) (s : t) : t :=
  {| parent := parent s; sequenceSent := sequenceSent s;
     highestReceived := highestReceived s; receivedSeqs := receivedSeqs s;
     sentPackets := sentPackets s; pendingPackets := pendingPackets s;
     ackListeners := l; lag := lag s; lastSend := lastSend s;
     lastReceive := lastReceive s; acked := acked s |}.

Definition set_lag (x : float) (s : t) : t :=
  {| parent := parent s; sequenceSent := sequenceSent s;
     highestReceived := highestReceived s; receivedSeqs := receivedSeqs s;
     sentPackets := sentPackets s; pendingPackets := pendingPackets s;
     ackListeners := ackListeners s; lag := x; lastSend := lastSend s;
     lastReceive := lastReceive s; acked := acked s |}.

Definition set_lastSend (v : Z) (s : t) : t :=
  {| parent := parent s; sequenceSent := sequenceSent s;
     highestReceived := highestReceived s; receivedSeqs := receivedSeqs s;
     sentPackets := sentPackets s; pendingPackets := pendingPackets s;
     ackListeners := ackListeners s; lag := lag s; lastSend := v;
     lastReceive := lastReceive s; acked := acked s |}.

Definition set_lastReceive (v : Z) (s : t) : t :=
  {| parent := parent s; sequenceSent := sequenceSent s;
     highestReceived := highestReceived s; receivedSeqs := receivedSeqs s;
     sentPackets := sentPackets s; pendingPackets := pendingPackets s;
     ackListeners := ackListeners s; lag := lag s; lastSend := lastSend s;
     lastReceive := v; acked := acked s |}.

Definition set_acked (l : list (Listener * Z)) (s : t) : t :=
  {| parent := parent s; sequenceSent := sequenceSent s;
     highestReceived := highestReceived s; receivedSeqs := receivedSeqs s;
     sentPackets := sentPackets s; pendingPackets := pendingPackets s;
     ackListeners := ackListeners s; lag := lag s; lastSend := lastSend s;
     lastReceive := lastReceive s; acked := l |}.

(** The state a well-formed channel is in: 16-bit counters and two rings
    of [BUFFER_SIZE] entries, as the constructor allocates them. *)
Definition wf (s : t) : Prop :=
  0 <= sequenceSent s < 65536 /\
  0 <= highestReceived s < 65536 /\
  length (receivedSeqs s) = Z.to_nat BUFFER_SIZE /\
  length (sentPackets s) = Z.to_nat BUFFER_SIZE.

(** Modelled from the spec: [reliable_connection.h], with the member
    initialisers, is not among the sources.  The constructor allocates both
    rings with [BUFFER_SIZE] value-initialised entries and reads the clock;
    the spec numbers the first sends 0, 1, 2 (scenario A), has the tag [-1]
    mean that no notification is wanted, and starts [lag] at zero;
    [highestReceived] starts one below sequence 0, the default [ack] of
    [ReliableHeader]. *)
Definition new (parent0 : C) (now : Z) : t :=
  {| parent := parent0; sequenceSent := 0; highestReceived := 0xFFFF;
     receivedSeqs := replicate (Z.to_nat BUFFER_SIZE) 0;
     sentPackets :=
       replicate (Z.to_nat BUFFER_SIZE)
                 {| waiting := false; tag := -1; timestamp := 0 |};
     pendingPackets := []; ackListeners := []; lag := float_zero;
     lastSend := now; lastReceive := now; acked := [] |}.

(** [receivedSeqs[pos]]; every index the code computes is reduced modulo
    [BUFFER_SIZE], the size of the ring. *)
Definition slot (r : list Z) (pos : Z) : Z := default 0 (r !! Z.to_nat pos).

Definition close (s : t) : t := set_parent (conn_close (parent s)) s.

Definition getStatus (s : t) : ConnectionStatus := conn_getStatus (parent s).

Definition addAckListener (listener : Listener) (s : t) : t :=
  set_ackListeners (ackListeners s ++ [listener]) s.

(** [erase(find(...))] of the first occurrence; erasing [end()] when the
    listener is absent is undefined and is [None] here. *)
Fixpoint eraseFirst (listener : Listener) (l : list Listener)
  : option (list Listener) :=
  match l with
  | [] => None
  | x :: rest =>
      if decide (x = listener) then Some rest
      else option_map (cons x) (eraseFirst listener rest)
  end.

Definition removeAckListener (listener : Listener) (s : t) : option t :=
  option_map (fun l => set_ackListeners l s)
             (eraseFirst listener (ackListeners s)).

Definition reportLatency (lastMeasuredLag : float) (s : t) : t :=
  if fabs_lt_eps (lag s) then set_lag lastMeasuredLag s
  else set_lag (lerp_02 (lag s) lastMeasuredLag) s.

(** One pass of the loop body of [generateAckBits]. *)
Definition ackBitsStep (s : t) (result : Z) (i : Z) : Z :=
  let bufferPos :=
    wrapSize (wrapSize (highestReceived s - 1 - i) + 0x10000) mod BUFFER_SIZE in
  Z.lor result
        (wrap32 (Z.shiftl (wrap32 (Z.land 1 (slot (receivedSeqs s) bufferPos))) i)).

(** [for (size_t i = 0; i < 32; i++)] *)
Definition generateAckBits (s : t) : Z :=
  fold_left (fun result (i : nat) => ackBitsStep s result (Z.of_nat i))
            (seq 0 32) 0.

(** [now] is the reading of [Clock::now()] during the call. *)
Definition onAckReceived (sequence : Z) (now : Z) (s : t) : t :=
  let idx := Z.to_nat (sequence mod BUFFER_SIZE) in
  match sentPackets s !! idx with
  | None => s
  | Some data =>
      if waiting data then
        let data' :=
          {| waiting := false; tag := tag data; timestamp := timestamp data |} in
        let s := set_sentPackets (<[idx := data']> (sentPackets s)) s in
        let s :=
          if bool_decide (tag data ≠ -1) then
            set_acked
              (acked s ++ map (fun listener => (listener, tag data))
                     (ackListeners s)) s
          else s in
        let msgLag := float_of_duration (now - timestamp data) in
        reportLatency msgLag s
      else s
  end.

(** [for (int i = 32; --i >= 0; )]: [n] is the value of [i] before the
    decrement.  [1 << i] is an [int]; converted to [unsigned int] for the
    [&] it is [2^i], for [i = 31] too. *)
Fixpoint ackBitsLoop (n : nat) (ack ackBits now : Z) (s : t) : t :=
  match n with
  | O => s
  | S i =>
      let s :=
        if negb (Z.land ackBits (wrap32 (Z.shiftl 1 (Z.of_nat i))) =? 0) then
          let seq := wrap16 (ack - (Z.of_nat i + 1)) in
          onAckReceived seq now s
        else s in
      ackBitsLoop i ack ackBits now s
  end.

Definition processReceivedAcks (ack ackBits now : Z) (s : t) : t :=
  let diff := wrap16 (sequenceSent s - ack) in
  if 512 <? diff then s
  else
    let s := ackBitsLoop 32 ack ackBits now s in
    onAckReceived ack now s.

(** Object representation of [struct ReliableSubHeader]: [sizeA], [sizeB],
    then the 16-bit [resend]. *)
Definition ReliableSubHeader_bytes (sizeA sizeB resend : Z) : list Z :=
  [sizeA; sizeB] ++ le16 resend.

(** The sub-header block of [sendTagged], with its locals [isResend] and
    [resending] as arguments: the bytes handed to [packet.addHeader]. *)
Definition encodeSubHeader (size : Z) (isResend : bool) (resending : Z)
  : list Z :=
  let longSize := 64 <=? size in
  let sizeA :=
    wrap8 (Z.lor (wrap8 (if longSize then Z.land (Z.shiftr size 8) 0x3F
                         else size))
                 (if isResend then 0x80 else 0)) in
  let sizeB := wrap8 (if longSize then Z.land size 0xFF else 0) in
  let resend := resending in
  take ((if longSize then 2 else 1) + (if isResend then 2 else 0))%nat
       (ReliableSubHeader_bytes sizeA sizeB resend).

(** [None]: the [Expects(tag >= 0)] contract is violated. *)
Definition sendTagged (packet : OutboundNetworkPacket) (tag now : Z) (s : t)
  : option t :=
  if decide (0 <= tag) then
    (* Add reliable sub-header *)
    let isResend := false in
    let resending := 0 in
    let size := getSize packet in
    let packet := addHeader (encodeSubHeader size isResend resending) packet in
    (* Add reliable header *)
    let sequence := sequenceSent s in
    let s := set_sequenceSent (wrap16 (sequenceSent s + 1)) s in
    let ack := highestReceived s in
    let ackBits := generateAckBits s in
    let packet := addHeader (le16 sequence ++ le16 ack ++ le32 ackBits) packet in
    let s := set_parent (conn_send packet (parent s)) s in
    (* Store send information *)
    let idx := Z.to_nat (sequence mod BUFFER_SIZE) in
    let sent := {| waiting := true; tag := tag; timestamp := now |} in
    let s := set_sentPackets (<[idx := sent]> (sentPackets s)) s in
    Some (set_lastSend now s)
  else None.

Definition send (packet : OutboundNetworkPacket) (now : Z) (s : t) : option t :=
  sendTagged packet 0 now s.

(** The clearing loop of [onSeqReceived]; out of [fuel] is [None]. *)
Fixpoint clearLoop (fuel : nat) (i bufferPos : Z) (r : list Z)
  : option (list Z) :=
  if i =? bufferPos then Some r
  else
    match fuel with
    | O => None
    | S fuel =>
        let idx := (i + BUFFER_SIZE / 2) mod BUFFER_SIZE in
        clearLoop fuel ((i + 1) mod BUFFER_SIZE) bufferPos
                  (<[Z.to_nat idx := 0]> r)
    end.

(** The advance of [onSeqReceived] once the jump is known to fit the
    window: the clearing loop, then [highestReceived = seq]. *)
Definition advance (seq : Z) (s : t) : option t :=
  let bufferPos := seq mod BUFFER_SIZE in
  match clearLoop (Z.to_nat BUFFER_SIZE) (highestReceived s mod BUFFER_SIZE)
                  bufferPos (receivedSeqs s) with
  | None => None
  | Some r => Some (set_highestReceived seq (set_receivedSeqs r s))
  end.

(** The duplicate test and the marking that end [onSeqReceived]. *)
Definition markReceived (bufferPos : Z) (isResend : bool) (resendPos : Z)
  (s : t) : bool * t :=
  let r := receivedSeqs s in
  if negb (slot r bufferPos =? 0)
     || (isResend && negb (slot r resendPos =? 0))
  then (* Already received *) (false, s)
  else
    let r := <[Z.to_nat bufferPos := Z.lor (slot r bufferPos) 1]> r in
    let r :=
      if isResend
      then <[Z.to_nat resendPos := Z.lor (slot r resendPos) 2]> r
      else r in
    (true, set_receivedSeqs r s).

Definition onSeqReceived (seq : Z) (isResend : bool) (resendOf : Z) (s : t)
  : option (bool * t) :=
  let bufferPos := seq mod BUFFER_SIZE in
  let resendPos := resendOf mod BUFFER_SIZE in
  let diff := wrap16 (seq - highestReceived s) in
  if negb (diff =? 0) && (diff <? 0x8000) then
    if BUFFER_SIZE - 32 <? diff then
      (* Ops, skipped too many packets! *)
      Some (false, close s)
    else
      match advance seq s with
      | None => None
      | Some s => Some (markReceived bufferPos isResend resendPos s)
      end
  else Some (markReceived bufferPos isResend resendPos s).

End WithParent.

Arguments t C {_}.

(** Result of code that throws [Exception]. *)
Inductive except (A : Type) : Type :=
  | Return (a : A)
  | Throw (msg : string).
Arguments Return {A} a.
Arguments Throw {A} msg.

Definition except_bind {A B : Type} (m : except A) (k : A -> except B)
  : except B :=
  match m with
  | Return a => k a
  | Throw msg => Throw msg
  end.

Notation "'try' ( x , y ) <- m 'in' k" :=
  (except_bind m (fun '(x, y) => k))
  (at level 10, x name, y name, m at level 100, k at level 200,
   only parsing).

(** What the receiver reads off one sub-header. *)
Record SubHeader := {
  sub_size : Z;
  sub_resend : bool;
  sub_resendOf : Z;
}.

Definition extractByte (msg : string) (packet : InboundNetworkPacket)
  : except (Z * InboundNetworkPacket) :=
  match packet with
  | [] => Throw msg
  | b :: rest => Return (b, rest)
  end.

(** The sub-packet header block of [processReceivedPacket]: the fields read
    and the packet left after them. *)
Definition decodeSubHeader (packet : InboundNetworkPacket)
  : except (SubHeader * InboundNetworkPacket) :=
  try (sizeA, packet) <- extractByte "Sub-packet header not found." packet in
  let resend := negb (Z.land sizeA 0x80 =? 0) in
  try (size, packet) <-
    (if negb (Z.land sizeA 0x40 =? 0) then
       try (sizeB, packet) <-
         extractByte "Sub-packet header incomplete." packet in
       Return (Z.lor (Z.shiftl (Z.land sizeA 0x3F) 8) sizeB, packet)
     else Return (Z.land sizeA 0x3F, packet)) in
  try (resendOf, packet) <-
    (if resend then
       if getSize packet <? 2
       then Throw "Sub-packet header missing resend data"
       else Return (fromLE (take 2 packet), drop 2 packet)
     else Return (0, packet)) in
  Return ({| sub_size := size; sub_resend := resend;
             sub_resendOf := resendOf |}, packet).

(** How a call that may throw after it has changed the channel ends.
    [Unfinished]: a loop of the model is out of fuel.  [Unspecified]: the
    call asks [extractHeader] for more bytes than the packet holds, which
    [reliable_connection.cpp] does without a check of its own; what
    [network_packet] does then is not in the sources. *)
Inductive outcome (S : Type) : Type :=
  | Returned (s : S)
  | Thrown (msg : string) (s : S)
  | Unfinished
  | Unspecified.
Arguments Returned {S} s.
Arguments Thrown {S} msg s.
Arguments Unfinished {S}.
Arguments Unspecified {S}.

Section WithParent.
Context {C : Type} `{IConnection C} `{FloatOps}.

(** The [while (packet.getSize() > 0)] loop of [processReceivedPacket];
    every pass takes at least one byte off the packet. *)
Fixpoint subPacketLoop (fuel : nat) (packet : InboundNetworkPacket) (seq : Z)
  (s : t C) : outcome (t C) :=
  if 0 <? getSize packet then
    match fuel with
    | O => Unfinished
    | S fuel =>
        match decodeSubHeader packet with
        | Throw msg => Thrown msg s
        | Return (h, packet) =>
            let size := sub_size h in
            if (2048 <? size) || (getSize packet <? size)
            then Thrown "Unexpected sub-packet size" s
            else
              let subPacketData := take (Z.to_nat size) packet in
              let packet := drop (Z.to_nat size) packet in
              match onSeqReceived seq (sub_resend h) (sub_resendOf h) s with
              | None => Unfinished
              | Some (fresh, s) =>
                  let s :=
                    if fresh
                    then set_pendingPackets
                           (pendingPackets s ++ [subPacketData]) s
                    else s in
                  subPacketLoop fuel packet (wrap16 (seq + 1)) s
              end
        end
    end
  else Returned s.

(** The [ReliableHeader] is extracted without a test of the size of the
    packet. *)
Definition processReceivedPacket (packet : InboundNetworkPacket) (now : Z)
  (s : t C) : outcome (t C) :=
  match extractHeader 8 packet with
  | None => Unspecified
  | Some (header, packet) =>
      let sequence := fromLE (take 2 header) in
      let ack := fromLE (take 2 (drop 2 header)) in
      let ackBits := fromLE (drop 4 header) in
      let s := processReceivedAcks ack ackBits now s in
      subPacketLoop (length packet) packet sequence s
  end.

(** The [while (parent->receive(tmp))] loop of [receive]; out of [fuel]
    is [Unfinished]. *)
Fixpoint drainParent (fuel : nat) (now : Z) (s : t C) : outcome (t C) :=
  match conn_receive (parent s) with
  | None => Returned s
  | Some (tmp, p) =>
      match fuel with
      | O => Unfinished
      | S fuel =>
          let s := set_parent p s in
          let s := set_lastReceive now s in
          match processReceivedPacket tmp now s with
          | Returned s => drainParent fuel now s
          | Thrown msg s => Thrown msg s
          | Unfinished => Unfinished
          | Unspecified => Unspecified
          end
      end
  end.

(** [receive]: [Some packet] when it returns true with [packet] filled in,
    [None] when it returns false; a throw leaves [packet] as it was. *)
Definition receive (fuel : nat) (now : Z) (s : t C)
  : outcome (option InboundNetworkPacket * t C) :=
  match drainParent fuel now s with
  | Returned s =>
      match pendingPackets s with
      | [] => Returned (None, s)
      | packet :: rest => Returned (Some packet, set_pendingPackets rest s)
      end
  | Thrown msg s => Thrown msg (None, s)
  | Unfinished => Unfinished
  | Unspecified => Unspecified
  end.

End WithParent.
End ReliableConnection.

(** ** Definitions used to state the properties *)

Import ReliableConnection.

(** The sequences the spec has acknowledged by one [(ack, ackBits)] pair,
    in the order it gives: bit 31 down to bit 0, each set bit [i] standing
    for [ack - (i+1)], then [ack] itself. *)
Definition ackOrder (ack ackBits : Z) : list Z :=
  map (fun i : nat => wrap16 (ack - (Z.of_nat i + 1)))
      (filter (fun i : nat => Z.testbit ackBits (Z.of_nat i) = true)
              (rev (seq 0 32)))
  ++ [ack].

(** Decoding of an [ackBits] field by its receiver: the sequences below
    [ack] that it reports as received. *)
Definition decodeAckBits (ack ackBits : Z) : list Z :=
  map (fun i : nat => wrap16 (ack - (Z.of_nat i + 1)))
      (filter (fun i : nat => Z.testbit ackBits (Z.of_nat i) = true)
              (seq 0 32)).

Section Drivers.
Context {C : Type} `{IConnection C} `{FloatOps}.

(** A run of [sendTagged] calls, each with its packet, tag and clock. *)
Fixpoint sendAll (sends : list (OutboundNetworkPacket * Z * Z))
  (s : ReliableConnection.t C) : option (ReliableConnection.t C) :=
  match sends with
  | [] => Some s
  | (packet, tag, now) :: rest =>
      match sendTagged packet tag now s with
      | None => None
      | Some s => sendAll rest s
      end
  end.

(** A run of [onAckReceived] calls, each with its sequence and clock. *)
Definition ackAll (acks : list (Z * Z)) (s : ReliableConnection.t C)
  : ReliableConnection.t C :=
  fold_left (fun s a => onAckReceived (fst a) (snd a) s) acks s.

(** A run of [processReceivedAcks] calls, each with its [ack], [ackBits]
    and clock. *)
Definition processAll (acks : list (Z * Z * Z)) (s : ReliableConnection.t C)
  : ReliableConnection.t C :=
  fold_left
    (fun s a => processReceivedAcks (fst (fst a)) (snd (fst a)) (snd a) s)
    acks s.

(** The sequences allocated by [n] sends from a channel whose next
    sequence is [first]. *)
Definition sentSequences (first : Z) (n : nat) : list Z :=
  map (fun k : nat => wrap16 (first + Z.of_nat k)) (seq 0 n).

(** A run of first-time sub-packets, none marked as a resend. *)
Fixpoint receiveAll (seqs : list Z) (s : ReliableConnection.t C)
  : option (ReliableConnection.t C) :=
  match seqs with
  | [] => Some s
  | q :: rest =>
      match onSeqReceived q false 0 s with
      | None => None
      | Some (_, s) => receiveAll rest s
      end
  end.

(** A run of [onSeqReceived] calls, each with its sequence, resend flag
    and [resendOf]: the channel after each call, in order. *)
Fixpoint onSeqReceivedRun (calls : list (Z * bool * Z))
  (s : ReliableConnection.t C) : option (list (ReliableConnection.t C)) :=
  match calls with
  | [] => Some []
  | (seq, isResend, resendOf) :: rest =>
      match onSeqReceived seq isResend resendOf s with
      | None => None
      | Some (_, s) =>
          match onSeqReceivedRun rest s with
          | None => None
          | Some states => Some (s :: states)
          end
      end
  end.

End Drivers.

(** Ring indices from [from] up to, but not including, [to], stepping by
    one modulo [BUFFER_SIZE]: the values the loop variable of the clearing
    loop takes. *)
Definition ringRange (from to : Z) : list Z :=
  map (fun k : nat => (from + Z.of_nat k) mod BUFFER_SIZE)
      (seq 0 (Z.to_nat ((to - from) mod BUFFER_SIZE))).

(** Ring indices after [from] up to and including [to]: the range the
    spec gives for the same loop. *)
Definition ringRangeSpec (from to : Z) : list Z :=
  map (fun k : nat => (from + Z.of_nat k) mod BUFFER_SIZE)
      (seq 1 (Z.to_nat ((to - from) mod BUFFER_SIZE))).

(** The slots half a ring ahead of the given indices. *)
Definition clearedSlots (indices : list Z) : list Z :=
  map (fun i => (i + BUFFER_SIZE / 2) mod BUFFER_SIZE) indices.

Section Statements.
Context {C : Type} `{IConnection C} `{FloatOps}.

(** The advance as the spec words it: the slots half a ring ahead of the
    indices in [(highestReceived .. bufferPos]] are zero afterwards, every
    other slot is as before, and [highestReceived] is [seq]. *)
Definition advance_as_specified (seq : Z) (s : ReliableConnection.t C)
  : Prop :=
  exists s1,
    advance seq s = Some s1 /\
    highestReceived s1 = seq /\
    forall j, 0 <= j < BUFFER_SIZE ->
      slot (receivedSeqs s1) j
      = (if decide (j ∈ clearedSlots
                      (ringRangeSpec (highestReceived s mod BUFFER_SIZE)
                                     (seq mod BUFFER_SIZE)))
         then 0 else slot (receivedSeqs s) j).

(** The duplicate test read on the ring as it is when [onSeqReceived] is
    called, for every call. *)
Definition duplicate_test_on_entry (seq : Z) (isResend : bool) (resendOf : Z)
  (s : ReliableConnection.t C) : Prop :=
  let r := receivedSeqs s in
  let bufferPos := seq mod BUFFER_SIZE in
  let resendPos := resendOf mod BUFFER_SIZE in
  if negb (slot r bufferPos =? 0) || (isResend && negb (slot r resendPos =? 0))
  then exists s',
         onSeqReceived seq isResend resendOf s = Some (false, s') /\
         receivedSeqs s' = receivedSeqs s
  else exists s',
         onSeqReceived seq isResend resendOf s = Some (true, s') /\
         Z.testbit (slot (receivedSeqs s') bufferPos) 0 = true /\
         (isResend = true ->
          Z.testbit (slot (receivedSeqs s') resendPos) 1 = true).

(** [highestReceived] is at most 511 behind and at most 512 ahead of the
    sequence [m], modulo 2^16. *)
Definition nearHighest (m : Z) (s : ReliableConnection.t C) : Prop :=
  wrap16 (highestReceived s - m + 511) < BUFFER_SIZE.

(** The tags of a run of sends, in sending order. *)
Definition tagsOf (sends : list (OutboundNetworkPacket * Z * Z)) : list Z :=
  map (fun x => snd (fst x)) sends.

(** One notification for every tag and every registered listener. *)
Definition onePerListener (listeners : list Listener) (tags : list Z)
  : list (Listener * Z) :=
  flat_map (fun tg => map (fun listener => (listener, tg)) listeners) tags.

(** The acknowledged sequences are the sent ones: every sent sequence is
    acknowledged, possibly more than once, and nothing else is. *)
Definition covers (acks : list (Z * Z)) (first : Z) (n : nat) : Prop :=
  forall q, q ∈ map fst acks <-> q ∈ sentSequences first n.


End Statements.

(** The [onAckReceived] calls a run of [processReceivedAcks] calls comes
    to when none of its ACKs is too old. *)
Definition ackCalls (acks : list (Z * Z * Z)) : list (Z * Z) :=
  flat_map (fun a => map (fun q => (q, snd a))
                         (ackOrder (fst (fst a)) (snd (fst a)))) acks.

(** Tags of the entries of the sent ring at [indices] that wait for an
    ACK. *)
Definition waitingTags (ring : list SentPacketData) (indices : list nat)
  : list Z :=
  omap (fun j => match ring !! j with
                 | Some d => if waiting d then Some (tag d) else None
                 | None => None
                 end) indices.

(** A freshly accepted server-side connection and a client that has just
    been constructed. *)
Definition peer : UDPConnection.UDPEndpoint := (0x7F000001, 4113).
Definition client0 : UDPConnection.t := UDPConnection.new peer.
Definition server5 : UDPConnection.t := UDPConnection.open 5 client0.

(** The handshake datagram a server that assigns id 5 puts on the wire. *)
Definition accept5 : list Z :=
  UDPConnection.HandshakeAccept_bytes
    {| UDPConnection.handshake := cstring "halley_accp";
       UDPConnection.id := 5 |}.

(** A channel over a client connection, constructed at time 0. *)
Definition chan0 : ReliableConnection.t UDPConnection.t :=
  ReliableConnection.new client0 0.

(** Scenario B: sequences 5, 3, 4 arrive in that order. *)
Definition chanB : ReliableConnection.t UDPConnection.t :=
  default chan0 (receiveAll [5; 3; 4] chan0).

(** The channel after sequences 0 to 512 have arrived in order. *)
Definition chan512 : ReliableConnection.t UDPConnection.t :=
  default chan0 (receiveAll (map Z.of_nat (seq 0 513)) chan0).

(** A channel with one listener. *)
Definition chanL : ReliableConnection.t UDPConnection.t :=
  addAckListener 7%nat chan0.

(** Scenario A: three sends tagged 10, 11, 12; then ACKs that name the
    three sequences, sequence 1 twice. *)
Definition sendsA : list (OutboundNetworkPacket * Z * Z) :=
  [([1], 10, 1); ([2], 11, 2); ([3], 12, 3)].
Definition chanA : ReliableConnection.t UDPConnection.t :=
  default chanL (sendAll sendsA chanL).


(** Scenario D: sequence 100 arrives on a new channel, marked as a resend
    of 42. *)
Definition chanD : ReliableConnection.t UDPConnection.t :=
  default chan0 (snd <$> onSeqReceived 100 true 42 chan0).

(** Scenario E: [highestReceived = 100]. *)
Definition chanE : ReliableConnection.t UDPConnection.t :=
  set_highestReceived 100 chan0.

(** Scenario F: [sequenceSent = 1000] after a thousand sends, tagged from
    100 on, none of them acknowledged. *)
Definition sends1000 : list (OutboundNetworkPacket * Z * Z) :=
  map (fun k : nat => ([], 100 + Z.of_nat k, Z.of_nat k)) (seq 0 1000).
Definition chanF : ReliableConnection.t UDPConnection.t :=
  default chanL (sendAll sends1000 chanL).

(** A payload of 64 bytes, the shortest that takes the long size form, and
    the reliable datagram [sendTagged] makes of it on a new channel. *)
Definition payload64 : list Z := replicate 64 7.
Definition datagram64 : list Z :=
  le16 0 ++ le16 0xFFFF ++ le32 0 ++ [0; 64] ++ payload64.

(** ** Definitions used to state the properties of the other functions *)

Definition isByte (b : Z) : Prop := 0 <= b < 256.

(** The calls a host makes on a [UDPConnection], the completion handler
    of a socket send included. *)
Inductive UDPCall : Type :=
  | CallSend (packet : OutboundNetworkPacket)
  | CallOpen (id : Z)
  | CallOnReceive (data : list Z)
  | CallReceive
  | CallClose
  | CallTerminate
  | CallSetError (cs : string)
  | CallSendDone (failed : bool).

Definition udpCall (call : UDPCall) (c : UDPConnection.t)
  : option UDPConnection.t :=
  match call with
  | CallSend packet => Some (UDPConnection.send packet c)
  | CallOpen id => Some (UDPConnection.open id c)
  | CallOnReceive data => UDPConnection.onReceive data c
  | CallReceive =>
      Some (match UDPConnection.receive c with
            | Some (_, c') => c'
            | None => c
            end)
  | CallClose => Some (UDPConnection.close c)
  | CallTerminate => Some (UDPConnection.terminateConnection c)
  | CallSetError cs => Some (UDPConnection.setError cs c)
  | CallSendDone failed => Some (UDPConnection.sendNext_completion failed c)
  end.

Fixpoint udpCalls (calls : list UDPCall) (c : UDPConnection.t)
  : option UDPConnection.t :=
  match calls with
  | [] => Some c
  | call :: rest =>
      match udpCall call c with
      | None => None
      | Some c => udpCalls rest c
      end
  end.

(** Datagrams handed to [onReceive] one after the other. *)
Fixpoint deliverAll (datagrams : list (list Z)) (c : UDPConnection.t)
  : option UDPConnection.t :=
  match datagrams with
  | [] => Some c
  | data :: rest =>
      match UDPConnection.onReceive data c with
      | None => None
      | Some c => deliverAll rest c
      end
  end.

(** Up to [n] calls of [receive], until one returns false: the packets
    returned, in order, and the connection left. *)
Fixpoint receiveN (n : nat) (c : UDPConnection.t)
  : list InboundNetworkPacket * UDPConnection.t :=
  match n with
  | O => ([], c)
  | S n =>
      match UDPConnection.receive c with
      | None => ([], c)
      | Some (packet, c) =>
          let '(packets, c) := receiveN n c in (packet :: packets, c)
      end
  end.

Section InboundStatements.
Context {C : Type} `{IConnection C} `{FloatOps}.

(** What inbound processing leaves of a channel [s] in [s']: a well-formed
    channel, the same [sequenceSent], the parent but for [k] calls of
    [close], and the delivery queue with payloads of at most 2048 bytes
    added at its end. *)
Definition inboundEffect (s s' : ReliableConnection.t C) : Prop :=
  wf s' /\
  sequenceSent s' = sequenceSent s /\
  (exists k : nat, parent s' = Nat.iter k conn_close (parent s)) /\
  exists new,
    pendingPackets s' = pendingPackets s ++ new /\
    Forall (fun payload : list Z => (length payload <= 2048)%nat) new.

(** First-time sub-packets handed to [onSeqReceived] one after the other:
    what each call returns, and the channel left. *)
Fixpoint onSeqReceivedAll (seqs : list Z) (s : ReliableConnection.t C)
  : option (list bool * ReliableConnection.t C) :=
  match seqs with
  | [] => Some ([], s)
  | q :: rest =>
      match onSeqReceived q false 0 s with
      | None => None
      | Some (fresh, s) =>
          match onSeqReceivedAll rest s with
          | None => None
          | Some (flags, s) => Some (fresh :: flags, s)
          end
      end
  end.

(** No slot of the 511 sequences that follow [highestReceived] is
    marked. *)
Definition windowFree (s : ReliableConnection.t C) : Prop :=
  forall j, 1 <= j < BUFFER_SIZE / 2 ->
    slot (receivedSeqs s) ((highestReceived s + j) mod BUFFER_SIZE) = 0.

End InboundStatements.

(** Two datagrams, sequences 0 and 1, with the payloads 01 02 03 and
    04 05, and a channel whose open connection has both queued. *)
Definition datagramA : list Z := [0; 0; 255; 255; 0; 0; 0; 0; 3; 1; 2; 3].
Definition datagramB : list Z := [1; 0; 255; 255; 0; 0; 0; 0; 2; 4; 5].
Definition chanQueued : ReliableConnection.t UDPConnection.t :=
  ReliableConnection.new
    (default server5 (deliverAll [datagramA; datagramB] server5)) 0.

(** The connection of [server5] had it sent the packet 01 before
    [open 5]. *)
Definition server5' : UDPConnection.t :=
  UDPConnection.open 5 (UDPConnection.send [1] client0).

(** A server-side channel whose connection is open. *)
Definition chanOpen : ReliableConnection.t UDPConnection.t :=
  ReliableConnection.new server5 0.

(** ** udp_connection.cpp: properties *)

Lemma send_header_is_minus_one (packet : OutboundNetworkPacket)
  (c : UDPConnection.t) :
  UDPConnection.status c = OPEN \/ UDPConnection.status c = CONNECTING ->
  UDPConnection.pendingSend c = [] ->
  UDPConnection.socket (UDPConnection.send packet c)
  = UDPConnection.socket c ++ [(UDPConnection.remote c, 255 :: packet)].
Proof.
  intros Hst Hq. unfold UDPConnection.send.
  assert (bool_decide (UDPConnection.status c = OPEN)
          || bool_decide (UDPConnection.status c = CONNECTING) = true) as ->.
  { destruct Hst as [-> | ->]; reflexivity. }
  rewrite Hq. cbn -[Z.to_nat Z.of_nat take]. unfold getSize.
  rewrite Nat2Z.id, firstn_all. reflexivity.
Qed.

(** C1, evaluated: a connecting client that receives the handshake of a
    server assigning id 5 opens, but with [connectionId = -1], the id of the
    locally constructed [HandshakeAccept], not the 5 the datagram carries. *)
Theorem onReceive_handshake_ignores_carried_id :
  length accept5 = UDPConnection.sizeof_HandshakeAccept /\
  take 12 accept5 = cstring "halley_accp" /\
  UDPConnection.carriedId accept5 = 5 /\
  UDPConnection.status client0 = CONNECTING /\
  exists c,
    UDPConnection.onReceive accept5 client0 = Some c /\
    UDPConnection.status c = OPEN /\
    UDPConnection.connectionId c = -1.
Proof.
  repeat split; try reflexivity.
  eexists. repeat split; reflexivity.
Qed.

Lemma onReceive_handshake (data : list Z) (c : UDPConnection.t) :
  UDPConnection.status c = CONNECTING ->
  length data = UDPConnection.sizeof_HandshakeAccept ->
  take 12 data = cstring "halley_accp" ->
  UDPConnection.onReceive data c = Some (UDPConnection.onOpen (-1) c).
Proof.
  intros Hst Hlen Hmagic. unfold UDPConnection.onReceive.
  rewrite decide_True by (rewrite Hlen; cbv; lia).
  rewrite decide_True by done.
  rewrite decide_True by done.
  rewrite decide_True; [reflexivity|].
  unfold UDPConnection.sizeof_handshake. rewrite Hmagic. reflexivity.
Qed.

(** C4, evaluated: on the connection the server opened with id 5, the byte
    put in front of an outbound packet is 0xFF, the [char] -1, not 5. *)
Theorem send_open_prepends_minus_one :
  UDPConnection.status server5 = OPEN /\
  UDPConnection.connectionId server5 = 5 /\
  UDPConnection.socket (UDPConnection.send [1; 2; 3] server5)
  = UDPConnection.socket server5 ++ [(peer, [255; 1; 2; 3])] /\
  toChar 255 = -1.
Proof. repeat split; reflexivity. Qed.

(** C10: [send] on a connection that is Closing or Closed changes nothing:
    the queues, the socket trace, the error string and every other field
    of the connection are as before. *)
Theorem send_closing_or_closed_noop (packet : OutboundNetworkPacket)
  (c : UDPConnection.t) :
  UDPConnection.status c = CLOSING \/ UDPConnection.status c = CLOSED ->
  UDPConnection.send packet c = c.
Proof.
  intros [Hst | Hst]; unfold UDPConnection.send; rewrite Hst; reflexivity.
Qed.

Lemma send_closing_or_closed_noop_witness :
  (UDPConnection.status (UDPConnection.close server5) = CLOSING \/
   UDPConnection.status (UDPConnection.close server5) = CLOSED) /\
  UDPConnection.send [1; 2; 3] (UDPConnection.close server5)
  = UDPConnection.close server5.
Proof.
  split; [left; reflexivity|].
  apply (send_closing_or_closed_noop [1; 2; 3] (UDPConnection.close server5)).
  left; reflexivity.
Defined.

(** ** reliable_connection.cpp: properties *)

Lemma land_pow2 (a : Z) (i : Z) :
  0 <= i ->
  Z.land a (2 ^ i) = if Z.testbit a i then 2 ^ i else 0.
Proof.
  intros Hi. apply Z.bits_inj'. intros n Hn.
  rewrite Z.land_spec, Z.pow2_bits_eqb by lia.
  destruct (Z.eqb_spec i n) as [-> | Hne].
  - destruct (Z.testbit a n); cbn.
    + rewrite Z.pow2_bits_true; lia.
    + now rewrite Z.bits_0.
  - rewrite andb_false_r. destruct (Z.testbit a i).
    + rewrite Z.pow2_bits_false; [reflexivity | lia].
    + now rewrite Z.bits_0.
Qed.

Lemma ackBit_test (ackBits : Z) (i : nat) :
  (i < 32)%nat ->
  negb (Z.land ackBits (wrap32 (Z.shiftl 1 (Z.of_nat i))) =? 0)
  = Z.testbit ackBits (Z.of_nat i).
Proof.
  intros Hi. rewrite Z.shiftl_1_l. unfold wrap32.
  rewrite Z.mod_small.
  2:{ split; [apply Z.pow_nonneg; lia|].
      change 4294967296 with (2 ^ 32). apply Z.pow_lt_mono_r; lia. }
  rewrite land_pow2 by lia.
  destruct (Z.testbit ackBits (Z.of_nat i)); [|reflexivity].
  assert (0 < 2 ^ Z.of_nat i) by (apply Z.pow_pos_nonneg; lia).
  destruct (Z.eqb_spec (2 ^ Z.of_nat i) 0); [lia | reflexivity].
Qed.

Lemma testbit_small (a n i : Z) :
  0 <= a < 2 ^ n -> 0 <= n <= i -> Z.testbit a i = false.
Proof.
  intros Ha Hi. rewrite <- (Z.mod_small a (2 ^ n)) by lia.
  apply Z.mod_pow2_bits_high. lia.
Qed.

Lemma land_pow2_small (a i : Z) :
  0 <= i -> 0 <= a < 2 ^ i -> Z.land a (2 ^ i) = 0.
Proof.
  intros Hi Ha. rewrite land_pow2 by lia.
  now rewrite (testbit_small a i i) by lia.
Qed.

Lemma land_low6 (a : Z) : 0 <= a < 64 -> Z.land a 0x3F = a.
Proof.
  intros Ha. change 0x3F with (Z.ones 6).
  rewrite Z.land_ones by lia. apply Z.mod_small. cbn; lia.
Qed.

(** Sizes below 64 do round-trip through the one-byte sub-header. *)
Lemma subheader_roundtrip_short (size : Z) (payload : list Z) :
  0 <= size < 64 ->
  encodeSubHeader size false 0 = [size] /\
  decodeSubHeader (encodeSubHeader size false 0 ++ payload)
  = Return ({| sub_size := size; sub_resend := false; sub_resendOf := 0 |},
            payload).
Proof.
  intros Hs.
  assert (Henc : encodeSubHeader size false 0 = [size]).
  { unfold encodeSubHeader.
    assert ((64 <=? size) = false) as -> by (apply Z.leb_gt; lia).
    unfold wrap8. rewrite (Z.mod_small size), Z.lor_0_r, Z.mod_small by lia.
    reflexivity. }
  split; [exact Henc|]. rewrite Henc. cbn [app].
  unfold decodeSubHeader. cbn [extractByte except_bind].
  change 0x80 with (2 ^ 7). change 0x40 with (2 ^ 6).
  rewrite (land_pow2_small size 7), (land_pow2_small size 6)
    by (cbn; lia).
  cbn [Z.eqb negb except_bind]. now rewrite land_low6.
Qed.

(** Sizes from 64 on are sent in two bytes but without the long-size bit,
    so the receiver reads a one-byte sub-header whose size is [size / 256]
    and takes the low size byte for payload. *)
Lemma subheader_long_decodes_short (size : Z) (payload : list Z) :
  64 <= size <= 16383 ->
  encodeSubHeader size false 0 = [size / 256; size mod 256] /\
  Z.testbit (size / 256) 6 = false /\
  decodeSubHeader (encodeSubHeader size false 0 ++ payload)
  = Return ({| sub_size := size / 256; sub_resend := false;
               sub_resendOf := 0 |}, size mod 256 :: payload) /\
  size / 256 <> size.
Proof.
  intros Hs.
  assert (Hq : 0 <= size / 256 < 64)
    by (split; [apply Z.div_pos; lia | apply Z.div_lt_upper_bound; lia]).
  assert (Hr : 0 <= size mod 256 < 256) by (apply Z.mod_pos_bound; lia).
  assert (Henc : encodeSubHeader size false 0 = [size / 256; size mod 256]).
  { unfold encodeSubHeader.
    assert ((64 <=? size) = true) as -> by (apply Z.leb_le; lia).
    rewrite Z.shiftr_div_pow2 by lia. change (2 ^ 8) with 256.
    rewrite land_low6 by lia.
    change 0xFF with (Z.ones 8). rewrite Z.land_ones by lia.
    change (2 ^ 8) with 256. unfold wrap8.
    rewrite (Z.mod_small (size / 256)), Z.lor_0_r, (Z.mod_small (size / 256))
      by lia.
    rewrite Z.mod_mod by lia. reflexivity. }
  split; [exact Henc|]. split; [apply (testbit_small _ 6); cbn; lia|].
  split; [|lia].
  rewrite Henc. cbn [app]. unfold decodeSubHeader.
  cbn [extractByte except_bind].
  change 0x80 with (2 ^ 7). change 0x40 with (2 ^ 6).
  rewrite (land_pow2_small (size / 256) 7), (land_pow2_small (size / 256) 6)
    by (cbn; lia).
  cbn [Z.eqb negb except_bind]. now rewrite land_low6.
Qed.

(** C2, evaluated: for a payload of 64 bytes [sendTagged]'s sub-header is
    the two bytes 0x00 0x40; bit 6 of the first byte is clear, and the
    receiver decodes a sub-packet of size 0, left with the second size byte
    in front of the payload. *)
Theorem subheader_size_64_not_flagged :
  encodeSubHeader 64 false 0 = [0; 64] /\
  Z.testbit (hd 0 (encodeSubHeader 64 false 0)) 6 = false /\
  forall payload : list Z,
    decodeSubHeader (encodeSubHeader 64 false 0 ++ payload)
    = Return ({| sub_size := 0; sub_resend := false; sub_resendOf := 0 |},
              64 :: payload).
Proof. repeat split. Qed.

Lemma ackBits_index (hr i : Z) :
  wrapSize (wrapSize (hr - 1 - i) + 0x10000) mod BUFFER_SIZE
  = wrap16 (hr - 1 - i) mod BUFFER_SIZE.
Proof.
  unfold wrapSize, wrap16, BUFFER_SIZE. Z.div_mod_to_equations. lia.
Qed.

Lemma testbit_one (k : Z) : Z.testbit 1 k = (k =? 0).
Proof. destruct k; reflexivity. Qed.

Lemma ackBit_placed (v i j : Z) :
  0 <= i < 32 -> 0 <= j ->
  Z.testbit (wrap32 (Z.shiftl (wrap32 (Z.land 1 v)) i)) j
  = (j =? i) && Z.testbit v 0.
Proof.
  intros Hi Hj. unfold wrap32. change 4294967296 with (2 ^ 32).
  rewrite Z.testbit_mod_pow2, Z.shiftl_spec by lia.
  destruct (Z.eqb_spec j i) as [-> | Hne].
  - rewrite Z.sub_diag, Z.testbit_mod_pow2, Z.land_spec by lia.
    assert ((i <? 32) = true) as -> by (apply Z.ltb_lt; lia).
    reflexivity.
  - destruct (Z.le_gt_cases 0 (j - i)).
    + rewrite Z.testbit_mod_pow2, Z.land_spec, testbit_one by lia.
      assert ((j - i =? 0) = false) as -> by (apply Z.eqb_neq; lia).
      cbn. now rewrite !andb_false_r.
    + rewrite (Z.testbit_neg_r _ (j - i)) by lia. now rewrite andb_false_r.
Qed.

Lemma filter_rev {A : Type} (P : A -> Prop) `{forall x, Decision (P x)}
  (l : list A) :
  filter P (rev l) = rev (filter P l).
Proof.
  induction l as [|x l IH]; [reflexivity|].
  cbn [rev]. rewrite filter_app, IH, !filter_cons, filter_nil.
  destruct (decide (P x)); cbn [rev]; [reflexivity|].
  now rewrite app_nil_r.
Qed.

(** The sequences [processReceivedAcks] acknowledges before [ack] itself
    are the decoded ones, highest bit first. *)
Lemma ackOrder_decodeAckBits (ack ackBits : Z) :
  ackOrder ack ackBits = rev (decodeAckBits ack ackBits) ++ [ack].
Proof.
  unfold ackOrder, decodeAckBits. now rewrite filter_rev, map_rev.
Qed.

Section ReliableProperties.
Context {C : Type} `{IConnection C} `{FloatOps}.
Implicit Types s : ReliableConnection.t C.

Lemma ackBitsLoop_fold (n : nat) (ack ackBits now : Z) s :
  (n <= 32)%nat ->
  ackBitsLoop n ack ackBits now s
  = fold_left (fun s q => onAckReceived q now s)
      (map (fun i : nat => wrap16 (ack - (Z.of_nat i + 1)))
           (filter (fun i : nat => Z.testbit ackBits (Z.of_nat i) = true)
                   (rev (seq 0 n)))) s.
Proof.
  revert s. induction n as [|n IH]; intros s Hn; [reflexivity|].
  rewrite seq_S, rev_app_distr. cbn [ackBitsLoop rev app Nat.add].
  rewrite ackBit_test by lia. rewrite filter_cons.
  destruct (decide (Z.testbit ackBits (Z.of_nat n) = true)) as [Hb | Hb].
  - rewrite Hb. cbn [map fold_left]. apply IH. lia.
  - apply not_true_is_false in Hb. rewrite Hb. apply IH. lia.
Qed.

Lemma processReceivedAcks_cases (ack ackBits now : Z) s :
  (512 < wrap16 (sequenceSent s - ack) ->
   processReceivedAcks ack ackBits now s = s) /\
  (wrap16 (sequenceSent s - ack) <= 512 ->
   processReceivedAcks ack ackBits now s
   = fold_left (fun s q => onAckReceived q now s) (ackOrder ack ackBits) s).
Proof.
  unfold processReceivedAcks. split; intros Hd.
  - apply Z.ltb_lt in Hd. now rewrite Hd.
  - assert ((512 <? wrap16 (sequenceSent s - ack)) = false) as ->
      by (apply Z.ltb_ge; lia).
    unfold ackOrder. rewrite fold_left_app. cbn [fold_left].
    now rewrite ackBitsLoop_fold by lia.
Qed.

(** C9: an ACK more than 512 sequences behind [sequenceSent] leaves the
    whole channel as it was (sent ring, latency estimate and listener
    trace included); any other ACK has the effect of calling
    [onAckReceived] on [ack - (i+1)] for the set bits [i] of [ackBits] from
    31 down to 0, and then on [ack]. *)
Theorem processReceivedAcks_too_old_or_in_order (ack ackBits now : Z) s :
  (512 < wrap16 (sequenceSent s - ack) ->
   processReceivedAcks ack ackBits now s = s) /\
  (wrap16 (sequenceSent s - ack) <= 512 ->
   processReceivedAcks ack ackBits now s
   = fold_left (fun s q => onAckReceived q now s) (ackOrder ack ackBits) s).
Proof. exact (processReceivedAcks_cases ack ackBits now s). Qed.

(** C8: a sequence ahead of [highestReceived] by more than
    [BUFFER_SIZE - 32] closes the channel (its parent is told to close) and
    is refused; [highestReceived] and the received ring stay as they were. *)
Theorem onSeqReceived_window_skip_closes (seq : Z) (isResend : bool)
  (resendOf : Z) s :
  0 < wrap16 (seq - highestReceived s) < 0x8000 ->
  BUFFER_SIZE - 32 < wrap16 (seq - highestReceived s) ->
  onSeqReceived seq isResend resendOf s = Some (false, close s) /\
  parent (close s) = conn_close (parent s) /\
  highestReceived (close s) = highestReceived s /\
  receivedSeqs (close s) = receivedSeqs s.
Proof.
  intros [Hlo Hhi] Hskip. unfold onSeqReceived.
  assert ((wrap16 (seq - highestReceived s) =? 0) = false) as ->
    by (apply Z.eqb_neq; lia).
  assert ((wrap16 (seq - highestReceived s) <? 0x8000) = true) as ->
    by (apply Z.ltb_lt; lia).
  assert ((BUFFER_SIZE - 32 <? wrap16 (seq - highestReceived s)) = true) as ->
    by (apply Z.ltb_lt; lia).
  repeat split.
Qed.

Lemma generateAckBits_fold_testbit (n : nat) (j : Z) s :
  (n <= 32)%nat -> 0 <= j ->
  Z.testbit
    (fold_left (fun result (i : nat) => ackBitsStep s result (Z.of_nat i))
               (seq 0 n) 0) j
  = (j <? Z.of_nat n)
    && Z.testbit
         (slot (receivedSeqs s)
               (wrap16 (highestReceived s - 1 - j) mod BUFFER_SIZE)) 0.
Proof.
  intros Hn Hj. induction n as [|n IH].
  - cbn [seq fold_left]. rewrite Z.bits_0.
    assert ((j <? Z.of_nat 0) = false) as -> by (apply Z.ltb_ge; lia).
    reflexivity.
  - rewrite seq_S, fold_left_app. cbn [fold_left Nat.add].
    unfold ackBitsStep at 1. rewrite Z.lor_spec, IH by lia.
    rewrite ackBit_placed, ackBits_index by lia.
    destruct (Z.eqb_spec j (Z.of_nat n)) as [-> | Hne].
    + assert ((Z.of_nat n <? Z.of_nat n) = false) as ->
        by (apply Z.ltb_ge; lia).
      assert ((Z.of_nat n <? Z.of_nat (S n)) = true) as ->
        by (apply Z.ltb_lt; lia).
      reflexivity.
    + rewrite orb_false_r.
      destruct (Z.ltb_spec j (Z.of_nat n));
        destruct (Z.ltb_spec j (Z.of_nat (S n))); try lia; reflexivity.
Qed.

Lemma generateAckBits_testbit (j : Z) s :
  0 <= j < 32 ->
  Z.testbit (generateAckBits s) j
  = Z.testbit
      (slot (receivedSeqs s)
            (wrap16 (highestReceived s - 1 - j) mod BUFFER_SIZE)) 0.
Proof.
  intros Hj. unfold generateAckBits.
  rewrite generateAckBits_fold_testbit by lia.
  assert ((j <? Z.of_nat 32) = true) as -> by (apply Z.ltb_lt; lia).
  reflexivity.
Qed.

(** C7: bit [i] of [generateAckBits] is bit 0 of the received-ring slot of
    sequence [highestReceived - 1 - i] (wrapped to 16 bits, then reduced
    modulo [BUFFER_SIZE]); hence, when the ring records a set [S] of
    sequences of the 32-sequence window below [highestReceived], decoding
    the generated bits against [ack = highestReceived] yields exactly [S]. *)
Theorem generateAckBits_roundtrip s :
  (forall i, 0 <= i < 32 ->
     Z.testbit (generateAckBits s) i
     = Z.testbit
         (slot (receivedSeqs s)
               (wrap16 (highestReceived s - 1 - i) mod BUFFER_SIZE)) 0) /\
  (forall S : gset Z,
     (forall q, q ∈ S ->
        exists i, 0 <= i < 32 /\ q = wrap16 (highestReceived s - 1 - i)) ->
     (forall i, 0 <= i < 32 ->
        Z.testbit
          (slot (receivedSeqs s)
                (wrap16 (highestReceived s - 1 - i) mod BUFFER_SIZE)) 0 = true
        <-> wrap16 (highestReceived s - 1 - i) ∈ S) ->
     list_to_set (decodeAckBits (highestReceived s) (generateAckBits s)) = S).
Proof.
  split; [intros i Hi; now apply generateAckBits_testbit|].
  intros S Hwin Hrec. apply set_eq. intros q.
  rewrite elem_of_list_to_set. unfold decodeAckBits.
  rewrite list_elem_of_In, in_map_iff. split.
  - intros (i & <- & Hi). apply list_elem_of_In in Hi.
    apply list_elem_of_filter in Hi as [Hbit Hi].
    apply elem_of_seq in Hi.
    rewrite generateAckBits_testbit in Hbit by lia.
    apply Hrec in Hbit; [|lia].
    now replace (highestReceived s - (Z.of_nat i + 1))
      with (highestReceived s - 1 - Z.of_nat i) by lia.
  - intros Hq. destruct (Hwin q Hq) as (i & Hi & ->).
    exists (Z.to_nat i). split.
    + f_equal. lia.
    + apply list_elem_of_In, list_elem_of_filter. split.
      * rewrite Z2Nat.id by lia. rewrite generateAckBits_testbit by lia.
        now apply Hrec.
      * apply elem_of_seq. lia.
Qed.

End ReliableProperties.

Lemma processReceivedAcks_too_old_or_in_order_witness :
  (512 < wrap16 (sequenceSent chanF - 400) /\
   processReceivedAcks 400 3 9 chanF = chanF) /\
  (wrap16 (sequenceSent chanA - 2) <= 512 /\
   processReceivedAcks 2 3 9 chanA
   = fold_left (fun s q => onAckReceived q 9 s) (ackOrder 2 3) chanA).
Proof.
  split.
  - split; [vm_compute; reflexivity|].
    apply (proj1 (processReceivedAcks_too_old_or_in_order 400 3 9 chanF)).
    vm_compute; reflexivity.
  - split; [vm_compute; discriminate|].
    apply (proj2 (processReceivedAcks_too_old_or_in_order 2 3 9 chanA)).
    vm_compute; discriminate.
Defined.

Lemma onSeqReceived_window_skip_closes_witness :
  0 < wrap16 (1093 - highestReceived chanE) < 0x8000 /\
  BUFFER_SIZE - 32 < wrap16 (1093 - highestReceived chanE) /\
  onSeqReceived 1093 false 0 chanE = Some (false, close chanE) /\
  conn_getStatus (parent (close chanE)) = CLOSING.
Proof.
  assert (H1 : 0 < wrap16 (1093 - highestReceived chanE) < 0x8000)
    by (vm_compute; split; reflexivity).
  assert (H2 : BUFFER_SIZE - 32 < wrap16 (1093 - highestReceived chanE))
    by (vm_compute; reflexivity).
  split; [exact H1|]. split; [exact H2|].
  split; [|reflexivity].
  exact (proj1 (onSeqReceived_window_skip_closes 1093 false 0 chanE H1 H2)).
Defined.

(** *** The received ring: clearing, duplicate test, marking *)

Lemma slot_insert (r : list Z) (k j v : Z) :
  0 <= k -> 0 <= j -> (Z.to_nat k < length r)%nat ->
  slot (<[Z.to_nat k := v]> r) j = if j =? k then v else slot r j.
Proof.
  intros Hk Hj Hlen. unfold slot.
  destruct (Z.eqb_spec j k) as [-> | Hne].
  - now rewrite list_lookup_insert_eq.
  - rewrite list_lookup_insert_ne by lia. reflexivity.
Qed.

Lemma clearLoop_spec (d : nat) :
  forall (fuel : nat) (i b : Z) (r : list Z),
    0 <= i < BUFFER_SIZE -> 0 <= b < BUFFER_SIZE ->
    (b - i) mod BUFFER_SIZE = Z.of_nat d ->
    (d <= fuel)%nat ->
    length r = Z.to_nat BUFFER_SIZE ->
    exists r',
      clearLoop fuel i b r = Some r' /\
      length r' = Z.to_nat BUFFER_SIZE /\
      forall j, 0 <= j < BUFFER_SIZE ->
        slot r' j
        = (if (j - (i + BUFFER_SIZE / 2)) mod BUFFER_SIZE <? Z.of_nat d
           then 0 else slot r j).
Proof.
  unfold BUFFER_SIZE. change (1024 / 2) with 512.
  induction d as [|d IH]; intros fuel i b r Hi Hb Hd Hfuel Hlen.
  - assert (i = b) as -> by (Z.div_mod_to_equations; lia).
    exists r. split; [|split; [exact Hlen|]].
    + destruct fuel; cbn [clearLoop]; now rewrite Z.eqb_refl.
    + intros j Hj.
      destruct (Z.ltb_spec ((j - (b + 512)) mod 1024) (Z.of_nat 0));
        [Z.div_mod_to_equations; lia | reflexivity].
  - destruct fuel as [|fuel]; [lia|].
    assert (Hne : i <> b)
      by (intros ->; rewrite Z.sub_diag, Z.mod_0_l in Hd by lia; lia).
    cbn [clearLoop]. apply Z.eqb_neq in Hne as ->.
    unfold BUFFER_SIZE. change (1024 / 2) with 512.
    destruct (IH fuel ((i + 1) mod 1024) b
                 (<[Z.to_nat ((i + 512) mod 1024) := 0]> r))
      as (r' & Hrun & Hlen' & Hslots).
    + apply Z.mod_pos_bound; lia.
    + exact Hb.
    + Z.div_mod_to_equations; lia.
    + lia.
    + now rewrite length_insert.
    + exists r'. split; [exact Hrun|]. split; [exact Hlen'|].
      intros j Hj. rewrite (Hslots j Hj).
      assert (Hidx : 0 <= (i + 512) mod 1024 < 1024)
        by (apply Z.mod_pos_bound; lia).
      rewrite slot_insert by lia.
      destruct (Z.ltb_spec ((j - ((i + 1) mod 1024 + 512)) mod 1024)
                           (Z.of_nat d));
        destruct (Z.ltb_spec ((j - (i + 512)) mod 1024) (Z.of_nat (S d)));
        destruct (Z.eqb_spec j ((i + 512) mod 1024));
        try reflexivity; exfalso; Z.div_mod_to_equations; lia.
Qed.

Lemma elem_of_clearedSlots (a b j : Z) :
  0 <= a < BUFFER_SIZE -> 0 <= j < BUFFER_SIZE ->
  j ∈ clearedSlots (ringRange a b)
  <-> (j - (a + BUFFER_SIZE / 2)) mod BUFFER_SIZE < (b - a) mod BUFFER_SIZE.
Proof.
  unfold clearedSlots, ringRange, BUFFER_SIZE. change (1024 / 2) with 512.
  intros Ha Hj. rewrite map_map, list_elem_of_In, in_map_iff. split.
  - intros (k & <- & Hk). apply in_seq in Hk.
    assert (0 <= (b - a) mod 1024 < 1024) by (apply Z.mod_pos_bound; lia).
    Z.div_mod_to_equations; lia.
  - intros Hlt. exists (Z.to_nat ((j - (a + 512)) mod 1024)).
    assert (0 <= (j - (a + 512)) mod 1024 < 1024)
      by (apply Z.mod_pos_bound; lia).
    split; [|apply in_seq; lia].
    rewrite Z2Nat.id by lia. Z.div_mod_to_equations; lia.
Qed.

Section ReceivedRing.
Context {C : Type} `{IConnection C} `{FloatOps}.
Implicit Types s : ReliableConnection.t C.

Lemma advance_spec (seq : Z) s :
  length (receivedSeqs s) = Z.to_nat BUFFER_SIZE ->
  exists r',
    advance seq s = Some (set_highestReceived seq (set_receivedSeqs r' s)) /\
    length r' = Z.to_nat BUFFER_SIZE /\
    forall j, 0 <= j < BUFFER_SIZE ->
      slot r' j
      = (if decide (j ∈ clearedSlots
                      (ringRange (highestReceived s mod BUFFER_SIZE)
                                 (seq mod BUFFER_SIZE)))
         then 0 else slot (receivedSeqs s) j).
Proof.
  intros Hlen. unfold advance.
  assert (Ha : 0 <= highestReceived s mod BUFFER_SIZE < BUFFER_SIZE)
    by (apply Z.mod_pos_bound; reflexivity).
  assert (Hb : 0 <= seq mod BUFFER_SIZE < BUFFER_SIZE)
    by (apply Z.mod_pos_bound; reflexivity).
  assert (Hd : 0 <= (seq mod BUFFER_SIZE - highestReceived s mod BUFFER_SIZE)
                    mod BUFFER_SIZE < BUFFER_SIZE)
    by (apply Z.mod_pos_bound; reflexivity).
  destruct (clearLoop_spec
              (Z.to_nat ((seq mod BUFFER_SIZE
                          - highestReceived s mod BUFFER_SIZE) mod BUFFER_SIZE))
              (Z.to_nat BUFFER_SIZE) _ _ (receivedSeqs s) Ha Hb)
    as (r' & Hrun & Hlen' & Hslots).
  - rewrite Z2Nat.id; [reflexivity | lia].
  - unfold BUFFER_SIZE in *. lia.
  - exact Hlen.
  - exists r'. rewrite Hrun. split; [reflexivity|]. split; [exact Hlen'|].
    intros j Hj. rewrite (Hslots j Hj). rewrite Z2Nat.id by lia.
    destruct (decide _) as [Hin | Hnin].
    + apply elem_of_clearedSlots in Hin; [|assumption..].
      apply Z.ltb_lt in Hin. now rewrite Hin.
    + rewrite elem_of_clearedSlots in Hnin by assumption.
      apply Z.nlt_ge, Z.ltb_ge in Hnin. now rewrite Hnin.
Qed.

Lemma onSeqReceived_advances (seq : Z) (isResend : bool) (resendOf : Z) s :
  length (receivedSeqs s) = Z.to_nat BUFFER_SIZE ->
  0 < wrap16 (seq - highestReceived s) < 0x8000 ->
  wrap16 (seq - highestReceived s) <= BUFFER_SIZE - 32 ->
  exists s1,
    advance seq s = Some s1 /\
    onSeqReceived seq isResend resendOf s
    = Some (markReceived (seq mod BUFFER_SIZE) isResend
                         (resendOf mod BUFFER_SIZE) s1) /\
    highestReceived s1 = seq /\
    length (receivedSeqs s1) = Z.to_nat BUFFER_SIZE /\
    forall j, 0 <= j < BUFFER_SIZE ->
      slot (receivedSeqs s1) j
      = (if decide (j ∈ clearedSlots
                      (ringRange (highestReceived s mod BUFFER_SIZE)
                                 (seq mod BUFFER_SIZE)))
         then 0 else slot (receivedSeqs s) j).
Proof.
  intros Hlen [Hlo Hhi] Hfit.
  destruct (advance_spec seq s Hlen) as (r' & Hadv & Hlen' & Hslots).
  eexists. split; [exact Hadv|].
  split; [|split; [reflexivity | split; [exact Hlen' | exact Hslots]]].
  unfold onSeqReceived.
  assert ((wrap16 (seq - highestReceived s) =? 0) = false) as ->
    by (apply Z.eqb_neq; lia).
  assert ((wrap16 (seq - highestReceived s) <? 0x8000) = true) as ->
    by (apply Z.ltb_lt; lia).
  assert ((BUFFER_SIZE - 32 <? wrap16 (seq - highestReceived s)) = false) as ->
    by (apply Z.ltb_ge; lia).
  cbn [negb andb]. now rewrite Hadv.
Qed.

Lemma onSeqReceived_no_advance (seq : Z) (isResend : bool) (resendOf : Z) s :
  wrap16 (seq - highestReceived s) = 0
  \/ 0x8000 <= wrap16 (seq - highestReceived s) ->
  onSeqReceived seq isResend resendOf s
  = Some (markReceived (seq mod BUFFER_SIZE) isResend
                       (resendOf mod BUFFER_SIZE) s).
Proof.
  intros Hd. unfold onSeqReceived.
  destruct (Z.eqb_spec (wrap16 (seq - highestReceived s)) 0);
    [reflexivity|].
  assert ((wrap16 (seq - highestReceived s) <? 0x8000) = false) as ->
    by (apply Z.ltb_ge; lia).
  reflexivity.
Qed.

(** C3, amended: when [seq] is ahead of [highestReceived] by at most
    [BUFFER_SIZE - 32], the advance of [onSeqReceived] comes to an end,
    zeroes exactly the slots [(i + BUFFER_SIZE/2) mod BUFFER_SIZE] for the
    ring indices [i] from [highestReceived mod BUFFER_SIZE] inclusive to
    [seq mod BUFFER_SIZE] exclusive, keeps every other slot, and sets
    [highestReceived = seq]; the duplicate test and the marking then run on
    that state. *)
Theorem advance_clears_from_highest (seq : Z) (isResend : bool)
  (resendOf : Z) s :
  wf s ->
  0 < wrap16 (seq - highestReceived s) < 0x8000 ->
  wrap16 (seq - highestReceived s) <= BUFFER_SIZE - 32 ->
  exists s1,
    advance seq s = Some s1 /\
    onSeqReceived seq isResend resendOf s
    = Some (markReceived (seq mod BUFFER_SIZE) isResend
                         (resendOf mod BUFFER_SIZE) s1) /\
    highestReceived s1 = seq /\
    forall j, 0 <= j < BUFFER_SIZE ->
      slot (receivedSeqs s1) j
      = (if decide (j ∈ clearedSlots
                      (ringRange (highestReceived s mod BUFFER_SIZE)
                                 (seq mod BUFFER_SIZE)))
         then 0 else slot (receivedSeqs s) j).
Proof.
  intros (_ & _ & Hlen & _) Hd Hfit.
  destruct (onSeqReceived_advances seq isResend resendOf s Hlen Hd Hfit)
    as (s1 & Hadv & Hrun & Hhr & _ & Hslots).
  exists s1. auto.
Qed.

Lemma markReceived_duplicate (bufferPos : Z) (isResend : bool)
  (resendPos : Z) s :
  slot (receivedSeqs s) bufferPos <> 0
  \/ (isResend = true /\ slot (receivedSeqs s) resendPos <> 0) ->
  markReceived bufferPos isResend resendPos s = (false, s).
Proof.
  intros Hdup. unfold markReceived.
  destruct (Z.eqb_spec (slot (receivedSeqs s) bufferPos) 0) as [Hz | Hnz];
    [|reflexivity].
  destruct Hdup as [Hdup | [-> Hdup]]; [contradiction|].
  apply Z.eqb_neq in Hdup. now rewrite Hdup.
Qed.

Lemma markReceived_fresh (bufferPos : Z) (isResend : bool) (resendPos : Z) s :
  length (receivedSeqs s) = Z.to_nat BUFFER_SIZE ->
  0 <= bufferPos < BUFFER_SIZE -> 0 <= resendPos < BUFFER_SIZE ->
  slot (receivedSeqs s) bufferPos = 0 ->
  (isResend = true -> slot (receivedSeqs s) resendPos = 0) ->
  exists r2,
    markReceived bufferPos isResend resendPos s
    = (true, set_receivedSeqs r2 s) /\
    length r2 = Z.to_nat BUFFER_SIZE /\
    forall j, 0 <= j < BUFFER_SIZE ->
      slot r2 j
      = Z.lor (Z.lor (slot (receivedSeqs s) j)
                     (if j =? bufferPos then 1 else 0))
              (if isResend && (j =? resendPos) then 2 else 0).
Proof.
  intros Hlen Hb Hr Hfresh Hfresh'. unfold markReceived.
  rewrite Hfresh. cbn [Z.eqb negb orb].
  assert (Hlen1 : length (<[Z.to_nat bufferPos := Z.lor 0 1]> (receivedSeqs s))
                  = Z.to_nat BUFFER_SIZE) by now rewrite length_insert.
  destruct isResend.
  - rewrite (Hfresh' eq_refl). cbn [Z.eqb negb andb].
    eexists. split; [reflexivity|]. split; [now rewrite length_insert|].
    intros j Hj. rewrite !slot_insert by (unfold BUFFER_SIZE in *; lia).
    cbn [andb].
    destruct (Z.eqb_spec j resendPos) as [-> | Hne1];
      destruct (Z.eqb_spec resendPos bufferPos) as [Heq | Hne2];
      try destruct (Z.eqb_spec j bufferPos) as [-> | Hne3];
      rewrite ?Hfresh, ?(Hfresh' eq_refl), ?Z.lor_0_r; try reflexivity;
      congruence.
  - cbn [andb]. eexists. split; [reflexivity|]. split; [exact Hlen1|].
    intros j Hj. rewrite slot_insert by (unfold BUFFER_SIZE in *; lia).
    rewrite Z.lor_0_r.
    destruct (Z.eqb_spec j bufferPos) as [-> | Hne];
      [now rewrite Hfresh | now rewrite Z.lor_0_r].
Qed.

Lemma marked_slot_nonzero (v : Z) (i : Z) : Z.testbit v i = true -> v <> 0.
Proof. intros Hb ->. now rewrite Z.bits_0 in Hb. Qed.

Lemma onSeqReceived_drops_marked (seq : Z) (isResend : bool)
  (resendOf : Z) s :
  length (receivedSeqs s) = Z.to_nat BUFFER_SIZE ->
  slot (receivedSeqs s) (seq mod BUFFER_SIZE) <> 0 ->
  wrap16 (seq - highestReceived s) = 0
  \/ 0x8000 <= wrap16 (seq - highestReceived s)
  \/ wrap16 (seq - highestReceived s) < BUFFER_SIZE / 2 ->
  exists s', onSeqReceived seq isResend resendOf s = Some (false, s').
Proof.
  intros Hlen Hmarked Hd.
  assert (Hw : 0 <= wrap16 (seq - highestReceived s) < 65536)
    by (apply Z.mod_pos_bound; lia).
  destruct (Z.eq_dec (wrap16 (seq - highestReceived s)) 0) as [Hz | Hnz];
    [|destruct (Z.le_gt_cases 0x8000 (wrap16 (seq - highestReceived s)))
        as [Hold | Hnew]].
  - exists s. rewrite onSeqReceived_no_advance by auto.
    now rewrite markReceived_duplicate by auto.
  - exists s. rewrite onSeqReceived_no_advance by auto.
    now rewrite markReceived_duplicate by auto.
  - assert (Hnear : wrap16 (seq - highestReceived s) < BUFFER_SIZE / 2)
      by (destruct Hd as [? | [? | ?]]; lia).
    change (BUFFER_SIZE / 2) with 512 in Hnear.
    destruct (onSeqReceived_advances seq isResend resendOf s Hlen)
      as (s1 & _ & Hrun & _ & _ & Hslots);
      [lia | unfold BUFFER_SIZE; lia |].
    exists s1. rewrite Hrun. rewrite markReceived_duplicate; [reflexivity|].
    left. rewrite Hslots by (apply Z.mod_pos_bound; reflexivity).
    destruct (decide _) as [Hin | _]; [|exact Hmarked].
    exfalso. apply elem_of_clearedSlots in Hin;
      [| apply Z.mod_pos_bound; reflexivity..].
    revert Hin Hnear. unfold wrap16, BUFFER_SIZE.
    change (1024 / 2) with 512. Z.div_mod_to_equations. lia.
Qed.

Lemma markReceived_highestReceived (bufferPos : Z) (isResend : bool)
  (resendPos : Z) s :
  highestReceived (snd (markReceived bufferPos isResend resendPos s))
  = highestReceived s.
Proof. unfold markReceived. now destruct (_ || _). Qed.

Lemma markReceived_keeps_marks (bufferPos : Z) (isResend : bool)
  (resendPos j : Z) s :
  length (receivedSeqs s) = Z.to_nat BUFFER_SIZE ->
  0 <= bufferPos < BUFFER_SIZE -> 0 <= resendPos < BUFFER_SIZE ->
  0 <= j < BUFFER_SIZE ->
  slot (receivedSeqs s) j <> 0 ->
  length (receivedSeqs (snd (markReceived bufferPos isResend resendPos s)))
  = Z.to_nat BUFFER_SIZE /\
  slot (receivedSeqs (snd (markReceived bufferPos isResend resendPos s))) j
  <> 0.
Proof.
  intros Hlen Hb Hr Hj Hmarked.
  assert (Hfresh : slot (receivedSeqs s) bufferPos = 0 ->
             (isResend = true -> slot (receivedSeqs s) resendPos = 0) ->
             length (receivedSeqs
                       (snd (markReceived bufferPos isResend resendPos s)))
             = Z.to_nat BUFFER_SIZE /\
             slot (receivedSeqs
                     (snd (markReceived bufferPos isResend resendPos s))) j
             <> 0).
  { intros Hz Hz'.
    destruct (markReceived_fresh bufferPos isResend resendPos s Hlen Hb Hr
                Hz Hz') as (r2 & Hrun & Hlen2 & Hslots).
    rewrite Hrun. cbn [snd receivedSeqs set_receivedSeqs].
    split; [exact Hlen2|].
    rewrite (Hslots j Hj). intros Hzero.
    apply Z.lor_eq_0_iff in Hzero as [Hzero _].
    apply Z.lor_eq_0_iff in Hzero as [Hzero _]. contradiction. }
  destruct (Z.eq_dec (slot (receivedSeqs s) bufferPos) 0) as [Hz | Hnz].
  2:{ rewrite markReceived_duplicate by auto. now cbn [snd]. }
  destruct isResend.
  - destruct (Z.eq_dec (slot (receivedSeqs s) resendPos) 0) as [Hz' | Hnz'].
    + apply Hfresh; auto.
    + rewrite markReceived_duplicate by auto. now cbn [snd].
  - apply Hfresh; [exact Hz | discriminate].
Qed.

Lemma nearHighest_arrival (m : Z) s :
  nearHighest m s ->
  wrap16 (m - highestReceived s) = 0
  \/ 0x8000 <= wrap16 (m - highestReceived s)
  \/ wrap16 (m - highestReceived s) < BUFFER_SIZE / 2.
Proof.
  unfold nearHighest, wrap16, BUFFER_SIZE. change (1024 / 2) with 512.
  generalize (highestReceived s). intros h Hnear.
  Z.div_mod_to_equations. lia.
Qed.

Lemma advance_keeps_near_slot (m h q : Z) :
  wrap16 (h - m + 511) < BUFFER_SIZE ->
  wrap16 (q - m + 511) < BUFFER_SIZE ->
  0 < wrap16 (q - h) <= BUFFER_SIZE - 32 ->
  ~ (m mod BUFFER_SIZE - (h mod BUFFER_SIZE + BUFFER_SIZE / 2))
      mod BUFFER_SIZE
    < (q mod BUFFER_SIZE - h mod BUFFER_SIZE) mod BUFFER_SIZE.
Proof.
  unfold wrap16, BUFFER_SIZE. change (1024 / 2) with 512.
  change (1024 - 32) with 992. intros Hh Hq Hd.
  Z.div_mod_to_equations. lia.
Qed.

Lemma onSeqReceived_keeps_mark (seq : Z) (isResend : bool) (resendOf m : Z)
  s (fresh : bool) s' :
  length (receivedSeqs s) = Z.to_nat BUFFER_SIZE ->
  slot (receivedSeqs s) (m mod BUFFER_SIZE) <> 0 ->
  nearHighest m s ->
  onSeqReceived seq isResend resendOf s = Some (fresh, s') ->
  nearHighest m s' ->
  length (receivedSeqs s') = Z.to_nat BUFFER_SIZE /\
  slot (receivedSeqs s') (m mod BUFFER_SIZE) <> 0.
Proof.
  intros Hlen Hmarked Hnear Hrun Hnear'.
  assert (Hw : 0 <= wrap16 (seq - highestReceived s) < 65536)
    by (apply Z.mod_pos_bound; lia).
  assert (Hb : 0 <= seq mod BUFFER_SIZE < BUFFER_SIZE)
    by (apply Z.mod_pos_bound; reflexivity).
  assert (Hr : 0 <= resendOf mod BUFFER_SIZE < BUFFER_SIZE)
    by (apply Z.mod_pos_bound; reflexivity).
  assert (Hm : 0 <= m mod BUFFER_SIZE < BUFFER_SIZE)
    by (apply Z.mod_pos_bound; reflexivity).
  assert (Hmark : forall s0,
             length (receivedSeqs s0) = Z.to_nat BUFFER_SIZE ->
             slot (receivedSeqs s0) (m mod BUFFER_SIZE) <> 0 ->
             markReceived (seq mod BUFFER_SIZE) isResend
                          (resendOf mod BUFFER_SIZE) s0 = (fresh, s') ->
             length (receivedSeqs s') = Z.to_nat BUFFER_SIZE /\
             slot (receivedSeqs s') (m mod BUFFER_SIZE) <> 0).
  { intros s0 Hlen0 Hmarked0 Hrun0.
    pose proof (markReceived_keeps_marks (seq mod BUFFER_SIZE) isResend
                  (resendOf mod BUFFER_SIZE) _ s0 Hlen0 Hb Hr Hm Hmarked0)
      as Hkeep.
    now rewrite Hrun0 in Hkeep. }
  destruct (Z.eq_dec (wrap16 (seq - highestReceived s)) 0) as [Hz | Hnz];
    [|destruct (Z.le_gt_cases 0x8000 (wrap16 (seq - highestReceived s)))
        as [Hold | Hnew];
      [|destruct (Z.le_gt_cases (wrap16 (seq - highestReceived s))
                                (BUFFER_SIZE - 32)) as [Hfit | Hfar]]].
  - rewrite onSeqReceived_no_advance in Hrun by auto.
    injection Hrun as Hrun. now apply (Hmark s).
  - rewrite onSeqReceived_no_advance in Hrun by auto.
    injection Hrun as Hrun. now apply (Hmark s).
  - destruct (onSeqReceived_advances seq isResend resendOf s Hlen)
      as (sa & _ & Hrun' & Hha & Hlena & Hslots); [lia | exact Hfit |].
    rewrite Hrun' in Hrun. injection Hrun as Hrun.
    assert (Hh' : highestReceived s' = seq).
    { rewrite <- Hha.
      pose proof (markReceived_highestReceived (seq mod BUFFER_SIZE) isResend
                    (resendOf mod BUFFER_SIZE) sa) as Hh.
      now rewrite Hrun in Hh. }
    unfold nearHighest in Hnear, Hnear'. rewrite Hh' in Hnear'.
    apply (Hmark sa Hlena); [|exact Hrun].
    rewrite (Hslots _ Hm).
    destruct (decide _) as [Hin | _]; [|exact Hmarked].
    exfalso. apply elem_of_clearedSlots in Hin;
      [| apply Z.mod_pos_bound; reflexivity | exact Hm].
    revert Hin.
    apply (advance_keeps_near_slot m (highestReceived s) seq Hnear Hnear').
    lia.
  - unfold onSeqReceived in Hrun.
    assert ((wrap16 (seq - highestReceived s) =? 0) = false) as Hne
      by (apply Z.eqb_neq; lia).
    assert ((wrap16 (seq - highestReceived s) <? 0x8000) = true) as Hlt
      by (apply Z.ltb_lt; lia).
    assert ((BUFFER_SIZE - 32 <? wrap16 (seq - highestReceived s)) = true)
      as Hskip by (apply Z.ltb_lt; lia).
    rewrite Hne, Hlt, Hskip in Hrun. cbn [negb andb] in Hrun.
    injection Hrun as _ <-. now split.
Qed.

Lemma onSeqReceivedRun_keeps_mark (m : Z) (calls : list (Z * bool * Z)) :
  forall s states,
    length (receivedSeqs s) = Z.to_nat BUFFER_SIZE ->
    slot (receivedSeqs s) (m mod BUFFER_SIZE) <> 0 ->
    onSeqReceivedRun calls s = Some states ->
    Forall (nearHighest m) (s :: states) ->
    length (receivedSeqs (default s (last states))) = Z.to_nat BUFFER_SIZE /\
    slot (receivedSeqs (default s (last states))) (m mod BUFFER_SIZE) <> 0 /\
    nearHighest m (default s (last states)).
Proof.
  induction calls as [|[[seq isResend] resendOf] calls IH];
    intros s states Hlen Hmarked Hrun Hnear.
  - injection Hrun as <-. cbn [last default].
    apply Forall_cons in Hnear as [Hnear _]. auto.
  - cbn [onSeqReceivedRun] in Hrun.
    destruct (onSeqReceived seq isResend resendOf s) as [[fresh s1]|] eqn:Hcall;
      [|discriminate Hrun].
    destruct (onSeqReceivedRun calls s1) as [states1|] eqn:Hrest;
      [|discriminate Hrun].
    injection Hrun as <-.
    apply Forall_cons in Hnear as [Hnear Hnear1].
    pose proof Hnear1 as Hnear1'. apply Forall_cons in Hnear1' as [Hn1 _].
    destruct (onSeqReceived_keeps_mark seq isResend resendOf m s fresh s1
                Hlen Hmarked Hnear Hcall Hn1) as [Hlen1 Hmarked1].
    destruct (IH s1 states1 Hlen1 Hmarked1 Hrest Hnear1) as (Hl & Hs & Hn).
    rewrite last_cons. destruct (last states1); cbn [default] in *; auto.
Qed.

(** C6, amended: a call that does not close the channel runs the
    duplicate test on the ring as the advance leaves it ([s1]; the ring
    of the call itself when [seq] is not ahead of [highestReceived]).  If
    the slot of [seq] is non-zero there, or the resend flag is set and the
    slot of [resendOf] is, the call returns false in state [s1]: no slot is
    changed beyond the zeroing of the advance.  Otherwise it returns true,
    sets bit 0 of the slot of [seq] and, under the resend flag, bit 1 of
    the slot of [resendOf], and changes no other slot.  The original
    [resendOf] is then refused when it arrives next, unless it is 512 or
    more ahead of [highestReceived]; and it is refused when it arrives
    after any run of further calls, provided that [highestReceived] is at
    most 511 behind and at most 512 ahead of it (modulo 2^16) after the
    resend call and after each call of the run. *)
Theorem onSeqReceived_duplicate_test (seq : Z) (isResend : bool)
  (resendOf : Z) s :
  wf s ->
  ~ (0 < wrap16 (seq - highestReceived s) < 0x8000
     /\ BUFFER_SIZE - 32 < wrap16 (seq - highestReceived s)) ->
  let bufferPos := seq mod BUFFER_SIZE in
  let resendPos := resendOf mod BUFFER_SIZE in
  exists s1,
    (if negb (wrap16 (seq - highestReceived s) =? 0)
        && (wrap16 (seq - highestReceived s) <? 0x8000)
     then advance seq s = Some s1 else s1 = s) /\
    (slot (receivedSeqs s1) bufferPos <> 0
     \/ (isResend = true /\ slot (receivedSeqs s1) resendPos <> 0) ->
     onSeqReceived seq isResend resendOf s = Some (false, s1)) /\
    (slot (receivedSeqs s1) bufferPos = 0
     /\ (isResend = true -> slot (receivedSeqs s1) resendPos = 0) ->
     exists s2,
       onSeqReceived seq isResend resendOf s = Some (true, s2) /\
       highestReceived s2 = highestReceived s1 /\
       (forall j, 0 <= j < BUFFER_SIZE ->
          slot (receivedSeqs s2) j
          = Z.lor (Z.lor (slot (receivedSeqs s1) j)
                         (if j =? bufferPos then 1 else 0))
                  (if isResend && (j =? resendPos) then 2 else 0)) /\
       Z.testbit (slot (receivedSeqs s2) bufferPos) 0 = true /\
       (isResend = true ->
        Z.testbit (slot (receivedSeqs s2) resendPos) 1 = true /\
        (forall (isResend' : bool) (resendOf' : Z),
           wrap16 (resendOf - highestReceived s2) = 0
           \/ 0x8000 <= wrap16 (resendOf - highestReceived s2)
           \/ wrap16 (resendOf - highestReceived s2) < BUFFER_SIZE / 2 ->
           exists s3,
             onSeqReceived resendOf isResend' resendOf' s2
             = Some (false, s3)) /\
        (forall (calls : list (Z * bool * Z)) states
                (isResend' : bool) (resendOf' : Z),
           onSeqReceivedRun calls s2 = Some states ->
           Forall (nearHighest resendOf) (s2 :: states) ->
           exists s4,
             onSeqReceived resendOf isResend' resendOf'
                           (default s2 (last states))
             = Some (false, s4)))).
Proof.
  intros (_ & _ & Hlen & _) Hnoskip bufferPos resendPos.
  assert (Hb : 0 <= bufferPos < BUFFER_SIZE)
    by (apply Z.mod_pos_bound; reflexivity).
  assert (Hr : 0 <= resendPos < BUFFER_SIZE)
    by (apply Z.mod_pos_bound; reflexivity).
  assert (Hw : 0 <= wrap16 (seq - highestReceived s) < 65536)
    by (apply Z.mod_pos_bound; lia).
  assert (Hstep : exists s1,
    (if negb (wrap16 (seq - highestReceived s) =? 0)
        && (wrap16 (seq - highestReceived s) <? 0x8000)
     then advance seq s = Some s1 else s1 = s) /\
    onSeqReceived seq isResend resendOf s
    = Some (markReceived bufferPos isResend resendPos s1) /\
    length (receivedSeqs s1) = Z.to_nat BUFFER_SIZE).
  { destruct (Z.eqb_spec (wrap16 (seq - highestReceived s)) 0) as [Hz | Hnz];
      [|destruct (Z.ltb_spec (wrap16 (seq - highestReceived s)) 0x8000)
          as [Hnew | Hold]]; cbn [negb andb].
    - exists s. split; [reflexivity|]. split; [|exact Hlen].
      apply onSeqReceived_no_advance. auto.
    - destruct (onSeqReceived_advances seq isResend resendOf s Hlen)
        as (s1 & Hadv & Hrun & _ & Hlen1 & _); [lia | lia |].
      exists s1. auto.
    - exists s. split; [reflexivity|]. split; [|exact Hlen].
      apply onSeqReceived_no_advance. auto. }
  destruct Hstep as (s1 & Hs1 & Hrun & Hlen1).
  exists s1. split; [exact Hs1|]. split.
  - intros Hdup. rewrite Hrun. now rewrite markReceived_duplicate.
  - intros [Hfresh Hfresh'].
    destruct (markReceived_fresh bufferPos isResend resendPos s1
                Hlen1 Hb Hr Hfresh Hfresh') as (r2 & Hmark & Hlen2 & Hslots).
    exists (set_receivedSeqs r2 s1). rewrite Hrun, Hmark.
    split; [reflexivity|]. split; [reflexivity|].
    split; [exact Hslots|].
    assert (Hbit1 : isResend = true ->
                    Z.testbit (slot r2 resendPos) 1 = true).
    { intros ->. cbn [receivedSeqs set_receivedSeqs].
      rewrite (Hslots resendPos Hr), Z.lor_spec, Z.eqb_refl.
      cbn [andb]. apply orb_true_r. }
    split.
    + cbn [receivedSeqs set_receivedSeqs].
      rewrite (Hslots bufferPos Hb), !Z.lor_spec, Z.eqb_refl.
      cbn. now rewrite orb_true_r.
    + intros Hres. split; [exact (Hbit1 Hres)|].
      assert (Hmarked : slot (receivedSeqs (set_receivedSeqs r2 s1))
                             resendPos <> 0)
        by (apply (marked_slot_nonzero _ 1); exact (Hbit1 Hres)).
      split.
      * intros isResend' resendOf' Hd'.
        apply onSeqReceived_drops_marked; [exact Hlen2 | | exact Hd'].
        exact Hmarked.
      * intros calls states isResend' resendOf' Hcalls Hnear.
        destruct (onSeqReceivedRun_keeps_mark resendOf calls
                    (set_receivedSeqs r2 s1) states Hlen2 Hmarked Hcalls
                    Hnear) as (Hlen3 & Hmarked3 & Hnear3).
        apply onSeqReceived_drops_marked;
          [exact Hlen3 | exact Hmarked3 |].
        now apply nearHighest_arrival.
Qed.

End ReceivedRing.

Lemma chan512_wf : wf chan512.
Proof. vm_compute. repeat split; congruence. Qed.

(** C3 as worded fails: after sequences 0..512, the arrival of 513 clears
    slot 0 (half a ring ahead of index 512) and leaves slot 1, where the
    wording has slot 1 cleared and slot 0 kept. *)
Lemma advance_as_specified_fails :
  wf chan512 /\
  0 < wrap16 (513 - highestReceived chan512) < 0x8000 /\
  wrap16 (513 - highestReceived chan512) <= BUFFER_SIZE - 32 /\
  ~ advance_as_specified 513 chan512.
Proof.
  split; [exact chan512_wf|].
  split; [vm_compute; split; reflexivity|].
  split; [vm_compute; discriminate|].
  intros (s1 & Hadv & _ & Hslots).
  destruct (onSeqReceived_advances 513 false 0 chan512)
    as (s1' & Hadv' & _ & _ & _ & Hslots').
  - exact (proj1 (proj2 (proj2 chan512_wf))).
  - vm_compute. split; reflexivity.
  - vm_compute. discriminate.
  - rewrite Hadv in Hadv'. injection Hadv' as <-.
    specialize (Hslots 0 ltac:(unfold BUFFER_SIZE; lia)).
    specialize (Hslots' 0 ltac:(unfold BUFFER_SIZE; lia)).
    rewrite Hslots' in Hslots. vm_compute in Hslots. discriminate Hslots.
Qed.

Lemma advance_clears_from_highest_witness :
  wf chan512 /\
  0 < wrap16 (513 - highestReceived chan512) < 0x8000 /\
  wrap16 (513 - highestReceived chan512) <= BUFFER_SIZE - 32 /\
  exists s1,
    advance 513 chan512 = Some s1 /\
    highestReceived s1 = 513 /\
    slot (receivedSeqs chan512) 0 = 1 /\ slot (receivedSeqs s1) 0 = 0 /\
    slot (receivedSeqs chan512) 1 = 1 /\ slot (receivedSeqs s1) 1 = 1.
Proof.
  assert (H1 : 0 < wrap16 (513 - highestReceived chan512) < 0x8000)
    by (vm_compute; split; reflexivity).
  assert (H2 : wrap16 (513 - highestReceived chan512) <= BUFFER_SIZE - 32)
    by (vm_compute; discriminate).
  split; [exact chan512_wf|]. split; [exact H1|]. split; [exact H2|].
  destruct (advance_clears_from_highest 513 false 0 chan512 chan512_wf H1 H2)
    as (s1 & Hadv & _ & Hhr & Hslots).
  exists s1. split; [exact Hadv|]. split; [exact Hhr|].
  rewrite (Hslots 0), (Hslots 1) by (unfold BUFFER_SIZE; lia).
  vm_compute. repeat split; reflexivity.
Defined.

Lemma chan0_wf : wf chan0.
Proof. vm_compute. repeat split; congruence. Qed.

(** C6 as worded fails: after sequences 0..512 the slot of sequence 1024
    still holds the mark of sequence 0, yet 1024 is accepted, because the
    advance to 1024 zeroes that slot before the duplicate test reads it. *)
Lemma duplicate_test_on_entry_fails :
  wf chan512 /\
  slot (receivedSeqs chan512) (1024 mod BUFFER_SIZE) <> 0 /\
  ~ duplicate_test_on_entry 1024 false 0 chan512.
Proof.
  split; [exact chan512_wf|]. split; [vm_compute; discriminate|].
  intros Hc. unfold duplicate_test_on_entry in Hc.
  assert (Hslot : slot (receivedSeqs chan512) (1024 mod BUFFER_SIZE) = 1)
    by (vm_compute; reflexivity).
  rewrite Hslot in Hc. cbn [Z.eqb negb orb] in Hc.
  destruct Hc as (s' & Hrun & _).
  assert (Hfst : fst <$> onSeqReceived 1024 false 0 chan512 = Some true)
    by (vm_compute; reflexivity).
  rewrite Hrun in Hfst. discriminate Hfst.
Qed.

Lemma chanD_run :
  onSeqReceived 100 true 42 chan0 = Some (true, chanD).
Proof.
  unfold chanD.
  destruct (onSeqReceived 100 true 42 chan0) as [[fresh s2]|] eqn:Hrun.
  - assert (Hfresh : fst <$> onSeqReceived 100 true 42 chan0 = Some true)
      by (vm_compute; reflexivity).
    rewrite Hrun in Hfresh. injection Hfresh as ->. reflexivity.
  - assert (Hsome : is_Some (fst <$> onSeqReceived 100 true 42 chan0))
      by (vm_compute; eauto).
    rewrite Hrun in Hsome. now destruct Hsome.
Qed.

(** Scenario D, continued past the window: after the resend of 42 carried
    by sequence 100, the arrival of 555 moves [highestReceived] 513 past
    42 and zeroes its slot, and the original 42 is accepted: all three
    calls return true. *)
Example resend_mark_zeroed_by_advance :
  match onSeqReceived 555 false 0 chanD with
  | Some (fresh555, s3) =>
      match onSeqReceived 42 false 0 s3 with
      | Some (fresh42, _) =>
          fresh555 && fresh42
          && bool_decide (slot (receivedSeqs chanD) (42 mod BUFFER_SIZE) = 2)
          && bool_decide (slot (receivedSeqs s3) (42 mod BUFFER_SIZE) = 0)
          && bool_decide (highestReceived s3 = 555)
      | None => false
      end
  | None => false
  end = true.
Proof. vm_compute. reflexivity. Qed.

Lemma onSeqReceived_duplicate_test_witness :
  wf chan0 /\
  ~ (0 < wrap16 (100 - highestReceived chan0) < 0x8000
     /\ BUFFER_SIZE - 32 < wrap16 (100 - highestReceived chan0)) /\
  exists s2,
    onSeqReceived 100 true 42 chan0 = Some (true, s2) /\
    Z.testbit (slot (receivedSeqs s2) (100 mod BUFFER_SIZE)) 0 = true /\
    Z.testbit (slot (receivedSeqs s2) (42 mod BUFFER_SIZE)) 1 = true /\
    (exists s3, onSeqReceived 42 false 0 s2 = Some (false, s3)) /\
    exists states,
      onSeqReceivedRun [(101, false, 0); (554, false, 0)] s2 = Some states /\
      Forall (nearHighest 42) (s2 :: states) /\
      exists s4,
        onSeqReceived 42 false 0 (default s2 (last states)) = Some (false, s4).
Proof.
  assert (Hnoskip :
            ~ (0 < wrap16 (100 - highestReceived chan0) < 0x8000
               /\ BUFFER_SIZE - 32 < wrap16 (100 - highestReceived chan0)))
    by (vm_compute; intros [_ Hlt]; discriminate Hlt).
  split; [exact chan0_wf|]. split; [exact Hnoskip|].
  destruct (onSeqReceived_duplicate_test 100 true 42 chan0 chan0_wf Hnoskip)
    as (s1 & Hs1 & _ & Hfresh).
  assert (Hadv : advance 100 chan0 = Some s1) by exact Hs1.
  assert (Hclean :
            (fun r => (slot (receivedSeqs r) (100 mod BUFFER_SIZE),
                       slot (receivedSeqs r) (42 mod BUFFER_SIZE)))
              <$> advance 100 chan0 = Some (0, 0))
    by (vm_compute; reflexivity).
  rewrite Hadv in Hclean. cbn [fmap option_fmap option_map] in Hclean.
  injection Hclean as Hz100 Hz42.
  destruct Hfresh as (s2 & Hrun & Hhr & _ & Hbit0 & Hres);
    [split; [exact Hz100 | intros _; exact Hz42]|].
  destruct (Hres eq_refl) as (Hbit1 & Hnext & Hlater).
  assert (Hs2 : s2 = chanD).
  { pose proof chanD_run as HD. rewrite Hrun in HD.
    exact (f_equal (fun o => match o with
                             | Some (_, x) => x
                             | None => s2
                             end) HD). }
  exists s2. split; [exact Hrun|]. split; [exact Hbit0|].
  split; [exact Hbit1|]. split.
  - apply Hnext. right; left. rewrite Hs2. vm_compute. discriminate.
  - destruct (onSeqReceivedRun [(101, false, 0); (554, false, 0)] s2)
      as [states|] eqn:Hcalls.
    + assert (Hnear : Forall (nearHighest 42) (s2 :: states)).
      { assert (Hall : forallb (fun s => wrap16 (highestReceived s - 42 + 511)
                                         <? BUFFER_SIZE)
                         (chanD :: default []
                            (onSeqReceivedRun
                               [(101, false, 0); (554, false, 0)] chanD))
                       = true) by (vm_compute; reflexivity).
        rewrite <- Hs2, Hcalls in Hall. cbn [default] in Hall.
        apply List.Forall_forall. intros x Hx.
        rewrite List.forallb_forall in Hall.
        apply Z.ltb_lt. exact (Hall x Hx). }
      exists states. split; [reflexivity|]. split; [exact Hnear|].
      exact (Hlater _ states false 0 Hcalls Hnear).
    + exfalso.
      assert (Hsome : match onSeqReceivedRun
                              [(101, false, 0); (554, false, 0)] chanD with
                      | Some _ => true
                      | None => false
                      end = true) by (vm_compute; reflexivity).
      rewrite <- Hs2, Hcalls in Hsome. discriminate Hsome.
Defined.

(** *** The sent ring: sends, ACKs and listener callbacks *)

Lemma waitingTags_all_idle (ring : list SentPacketData) (indices : list nat) :
  (forall j d, j ∈ indices -> ring !! j = Some d -> waiting d = false) ->
  waitingTags ring indices = [].
Proof.
  induction indices as [|j indices IH]; intros Hidle; [reflexivity|].
  unfold waitingTags. cbn [omap list_omap].
  destruct (ring !! j) as [d|] eqn:Hd.
  - rewrite (Hidle j d) by (auto; left). apply IH.
    intros j' d' Hj'. apply Hidle. now right.
  - apply IH. intros j' d' Hj'. apply Hidle. now right.
Qed.

Lemma waitingTags_other (ring : list SentPacketData) (j0 : nat)
  (d' : SentPacketData) (indices : list nat) :
  j0 ∉ indices ->
  waitingTags (<[j0 := d']> ring) indices = waitingTags ring indices.
Proof.
  induction indices as [|j indices IH]; intros Hnin; [reflexivity|].
  apply not_elem_of_cons in Hnin as [Hne Hnin].
  unfold waitingTags. cbn [omap list_omap].
  rewrite list_lookup_insert_ne by done.
  fold (waitingTags (<[j0 := d']> ring) indices).
  fold (waitingTags ring indices). now rewrite IH.
Qed.

Lemma waitingTags_acked (ring : list SentPacketData) (j0 : nat)
  (d : SentPacketData) (indices : list nat) :
  NoDup indices -> j0 ∈ indices ->
  ring !! j0 = Some d -> waiting d = true ->
  waitingTags ring indices
  ≡ₚ tag d :: waitingTags
       (<[j0 := {| waiting := false; tag := tag d;
                  timestamp := timestamp d |}]> ring) indices.
Proof.
  intros Hnd Hin Hd Hw. induction indices as [|j indices IH];
    [now apply elem_of_nil in Hin|].
  apply NoDup_cons in Hnd as [Hnin Hnd].
  assert (Hlen : (j0 < length ring)%nat) by (eapply lookup_lt_Some; eauto).
  destruct (decide (j = j0)) as [-> | Hne].
  - unfold waitingTags. cbn [omap list_omap].
    rewrite Hd, Hw, list_lookup_insert_eq by done. cbn [waiting].
    fold (waitingTags ring indices).
    match goal with
    | |- _ ≡ₚ _ :: omap ?f indices =>
        change (omap f indices)
          with (waitingTags
                  (<[j0 := {| waiting := false; tag := tag d;
                             timestamp := timestamp d |}]> ring) indices)
    end.
    now rewrite waitingTags_other.
  - apply elem_of_cons in Hin as [-> | Hin]; [done|].
    specialize (IH Hnd Hin).
    unfold waitingTags in *. cbn [omap list_omap].
    rewrite list_lookup_insert_ne by done.
    destruct (ring !! j) as [dj|]; [destruct (waiting dj)|]; cbn.
    + rewrite IH. apply Permutation_swap.
    + exact IH.
    + exact IH.
Qed.

Lemma onePerListener_cons (listeners : list Listener) (tg : Z)
  (tags : list Z) :
  onePerListener listeners (tg :: tags)
  = map (fun listener => (listener, tg)) listeners
    ++ onePerListener listeners tags.
Proof. reflexivity. Qed.

Lemma onePerListener_perm (listeners : list Listener) (tags tags' : list Z) :
  tags ≡ₚ tags' ->
  onePerListener listeners tags ≡ₚ onePerListener listeners tags'.
Proof.
  intros Hp. unfold onePerListener.
  induction Hp as [| x l l' _ IH | x y l | l l' l'' _ IH1 _ IH2].
  - reflexivity.
  - cbn [flat_map]. now rewrite IH.
  - cbn [flat_map]. rewrite !app_assoc. f_equiv. apply Permutation_app_comm.
  - now rewrite IH1.
Qed.

Section SentRing.
Context {C : Type} `{IConnection C} `{FloatOps}.
Implicit Types s : ReliableConnection.t C.

Lemma reportLatency_fields (x : float) s :
  sentPackets (reportLatency x s) = sentPackets s /\
  ackListeners (reportLatency x s) = ackListeners s /\
  acked (reportLatency x s) = acked s.
Proof. unfold reportLatency. destruct (fabs_lt_eps (lag s)); repeat split. Qed.

Lemma onAckReceived_idle (sequence now : Z) s :
  (forall d, sentPackets s !! Z.to_nat (sequence mod BUFFER_SIZE) = Some d ->
             waiting d = false) ->
  onAckReceived sequence now s = s.
Proof.
  intros Hidle. unfold onAckReceived.
  destruct (sentPackets s !! Z.to_nat (sequence mod BUFFER_SIZE)) as [d|];
    [|reflexivity].
  now rewrite (Hidle d eq_refl).
Qed.

Lemma onAckReceived_waiting (sequence now : Z) (d : SentPacketData) s :
  sentPackets s !! Z.to_nat (sequence mod BUFFER_SIZE) = Some d ->
  waiting d = true -> tag d <> -1 ->
  sentPackets (onAckReceived sequence now s)
  = <[Z.to_nat (sequence mod BUFFER_SIZE) :=
        {| waiting := false; tag := tag d; timestamp := timestamp d |}]>
      (sentPackets s) /\
  ackListeners (onAckReceived sequence now s) = ackListeners s /\
  acked (onAckReceived sequence now s)
  = acked s ++ map (fun listener => (listener, tag d)) (ackListeners s).
Proof.
  intros Hd Hw Htag. unfold onAckReceived. rewrite Hd, Hw.
  rewrite bool_decide_eq_true_2 by exact Htag.
  match goal with
  | |- context [reportLatency ?x ?s'] =>
      destruct (reportLatency_fields x s') as (-> & -> & ->)
  end.
  repeat split.
Qed.

Lemma ackAll_notifies_waiting (acks : list (Z * Z)) :
  forall s (indices : list nat),
    NoDup indices ->
    (forall a, a ∈ acks -> Z.to_nat (fst a mod BUFFER_SIZE) ∈ indices) ->
    (forall j d, j ∈ indices -> sentPackets s !! j = Some d ->
                 waiting d = true ->
                 tag d <> -1 /\
                 exists a, a ∈ acks /\ j = Z.to_nat (fst a mod BUFFER_SIZE)) ->
    exists new,
      acked (ackAll acks s) = acked s ++ new /\
      ackListeners (ackAll acks s) = ackListeners s /\
      new ≡ₚ onePerListener (ackListeners s)
                            (waitingTags (sentPackets s) indices).
Proof.
  induction acks as [|a acks IH]; intros s indices Hnd Hin Hwait.
  - exists []. cbn [ackAll fold_left]. rewrite app_nil_r.
    split; [reflexivity|]. split; [reflexivity|].
    rewrite waitingTags_all_idle; [reflexivity|].
    intros j d Hj Hd. destruct (waiting d) eqn:Hw; [|reflexivity].
    destruct (Hwait j d Hj Hd Hw) as (_ & a & Ha & _).
    now apply elem_of_nil in Ha.
  - unfold ackAll. cbn [fold_left].
    fold (ackAll acks (onAckReceived (fst a) (snd a) s)).
    set (j0 := Z.to_nat (fst a mod BUFFER_SIZE)).
    assert (Hj0 : j0 ∈ indices) by (apply Hin; left).
    destruct (sentPackets s !! j0) as [d|] eqn:Hd;
      [destruct (waiting d) eqn:Hw|].
    + destruct (Hwait j0 d Hj0 Hd Hw) as [Htag _].
      destruct (onAckReceived_waiting (fst a) (snd a) d s Hd Hw Htag)
        as (Hring & Hls & Hacked).
      fold j0 in Hring.
      destruct (IH (onAckReceived (fst a) (snd a) s) indices Hnd)
        as (new & Hnew & Hls' & Hperm).
      * intros a' Ha'. apply Hin. now right.
      * intros j dj Hj Hdj Hwj. rewrite Hring in Hdj.
        destruct (decide (j = j0)) as [-> | Hne].
        { rewrite list_lookup_insert_eq in Hdj
            by (eapply lookup_lt_Some; eauto).
          injection Hdj as <-. discriminate Hwj. }
        rewrite list_lookup_insert_ne in Hdj by done.
        destruct (Hwait j dj Hj Hdj Hwj) as (Htj & a' & Ha' & Hja').
        split; [exact Htj|]. exists a'. split; [|exact Hja'].
        apply elem_of_cons in Ha' as [-> | Ha']; [|exact Ha'].
        now subst j.
      * exists (map (fun listener => (listener, tag d)) (ackListeners s)
                ++ new).
        rewrite Hnew, Hacked, Hls', Hls, app_assoc.
        split; [reflexivity|]. split; [reflexivity|].
        rewrite Hperm, Hls, Hring.
        rewrite <- onePerListener_cons.
        apply onePerListener_perm. symmetry.
        now apply waitingTags_acked.
    + rewrite onAckReceived_idle
        by (fold j0; intros d' Hd'; congruence).
      apply IH; [exact Hnd | intros a' Ha'; apply Hin; now right |].
      intros j dj Hj Hdj Hwj.
      destruct (Hwait j dj Hj Hdj Hwj) as (Htj & a' & Ha' & Hja').
      split; [exact Htj|]. exists a'. split; [|exact Hja'].
      apply elem_of_cons in Ha' as [-> | Ha']; [|exact Ha'].
      fold j0 in Hja'. subst j. congruence.
    + rewrite onAckReceived_idle
        by (fold j0; intros d' Hd'; congruence).
      apply IH; [exact Hnd | intros a' Ha'; apply Hin; now right |].
      intros j dj Hj Hdj Hwj.
      destruct (Hwait j dj Hj Hdj Hwj) as (Htj & a' & Ha' & Hja').
      split; [exact Htj|]. exists a'. split; [|exact Hja'].
      apply elem_of_cons in Ha' as [-> | Ha']; [|exact Ha'].
      fold j0 in Hja'. subst j. congruence.
Qed.

End SentRing.

Lemma wrap16_mod_BUFFER_SIZE (z : Z) :
  wrap16 z mod BUFFER_SIZE = z mod BUFFER_SIZE.
Proof. unfold wrap16, BUFFER_SIZE. Z.div_mod_to_equations. lia. Qed.

Lemma sentSequences_succ (first : Z) (n : nat) :
  sentSequences first (S n)
  = wrap16 first :: sentSequences (wrap16 (first + 1)) n.
Proof.
  unfold sentSequences. cbn [seq map]. rewrite Z.add_0_r. f_equal.
  rewrite <- seq_shift, map_map. apply map_ext. intros k.
  unfold wrap16. rewrite Z.add_mod_idemp_l by lia. f_equal. lia.
Qed.

Lemma sent_slot_fresh (first : Z) (n : nat) :
  (n < Z.to_nat BUFFER_SIZE)%nat ->
  Z.to_nat (first mod BUFFER_SIZE)
  ∉ map (fun q => Z.to_nat (q mod BUFFER_SIZE))
        (sentSequences (wrap16 (first + 1)) n).
Proof.
  intros Hn Hin. apply list_elem_of_In, in_map_iff in Hin as (q & Hq & Hin).
  unfold sentSequences in Hin. apply in_map_iff in Hin as (k & <- & Hk).
  apply in_seq in Hk. rewrite wrap16_mod_BUFFER_SIZE in Hq.
  unfold wrap16, BUFFER_SIZE in *.
  apply Z2Nat.inj in Hq; try (apply Z.mod_pos_bound; lia).
  revert Hq. Z.div_mod_to_equations. lia.
Qed.

Lemma sentIndices_NoDup (first : Z) (n : nat) :
  (n <= Z.to_nat BUFFER_SIZE)%nat ->
  NoDup (map (fun q => Z.to_nat (q mod BUFFER_SIZE)) (sentSequences first n)).
Proof.
  revert first. induction n as [|n IH]; intros first Hn; [constructor|].
  rewrite sentSequences_succ. cbn [map]. apply NoDup_cons. split.
  - rewrite wrap16_mod_BUFFER_SIZE. apply sent_slot_fresh. lia.
  - apply IH. lia.
Qed.

Section Sends.
Context {C : Type} `{IConnection C} `{FloatOps}.
Implicit Types s : ReliableConnection.t C.

Lemma sendTagged_fields (packet : OutboundNetworkPacket) (tg now : Z) s :
  0 <= tg ->
  exists s',
    sendTagged packet tg now s = Some s' /\
    sequenceSent s' = wrap16 (sequenceSent s + 1) /\
    sentPackets s'
    = <[Z.to_nat (sequenceSent s mod BUFFER_SIZE) :=
          {| waiting := true; tag := tg; timestamp := now |}]>
        (sentPackets s) /\
    ackListeners s' = ackListeners s /\
    acked s' = acked s /\
    highestReceived s' = highestReceived s /\
    receivedSeqs s' = receivedSeqs s.
Proof.
  intros Htg. unfold sendTagged. rewrite decide_True by exact Htg.
  eexists. repeat split.
Qed.

Lemma sendAll_fills_ring (sends : list (OutboundNetworkPacket * Z * Z)) :
  forall s,
    Forall (fun x => 0 <= snd (fst x)) sends ->
    (length sends <= Z.to_nat BUFFER_SIZE)%nat ->
    0 <= sequenceSent s < 65536 ->
    length (sentPackets s) = Z.to_nat BUFFER_SIZE ->
    let indices :=
      map (fun q => Z.to_nat (q mod BUFFER_SIZE))
          (sentSequences (sequenceSent s) (length sends)) in
    exists s1,
      sendAll sends s = Some s1 /\
      sequenceSent s1 = wrap16 (sequenceSent s + Z.of_nat (length sends)) /\
      ackListeners s1 = ackListeners s /\
      acked s1 = acked s /\
      length (sentPackets s1) = Z.to_nat BUFFER_SIZE /\
      waitingTags (sentPackets s1) indices = tagsOf sends /\
      (forall j d, j ∈ indices -> sentPackets s1 !! j = Some d ->
                   0 <= tag d) /\
      (forall j, j ∉ indices -> sentPackets s1 !! j = sentPackets s !! j).
Proof.
  induction sends as [|[[packet tg] now] sends IH];
    intros s Htags Hn Hss Hlen indices.
  - exists s. cbn [sendAll]. split; [reflexivity|]. split.
    { cbn [length Z.of_nat]. rewrite Z.add_0_r. unfold wrap16.
      now rewrite Z.mod_small. }
    do 2 (split; [reflexivity|]).
    split; [exact Hlen|]. split; [reflexivity|]. split.
    + intros j d Hj. now apply elem_of_nil in Hj.
    + reflexivity.
  - apply Forall_cons in Htags as [Htg Htags]. cbn [fst snd] in Htg.
    cbn [length] in Hn.
    destruct (sendTagged_fields packet tg now s Htg)
      as (s' & Hsend & Hseq & Hring & Hls & Hacked & _).
    destruct (IH s' Htags) as (s1 & Hrun & Hseq1 & Hls1 & Hacked1 & Hlen1
                               & Hwt & Hpos & Hframe).
    { lia. }
    { rewrite Hseq. apply Z.mod_pos_bound. lia. }
    { now rewrite Hring, length_insert. }
    rewrite Hseq in Hwt, Hpos, Hframe, Hseq1.
    set (i0 := Z.to_nat (sequenceSent s mod BUFFER_SIZE)) in *.
    assert (Hi0 : (i0 < length (sentPackets s))%nat).
    { rewrite Hlen. unfold i0.
      assert (0 <= sequenceSent s mod BUFFER_SIZE < BUFFER_SIZE)
        by (apply Z.mod_pos_bound; reflexivity).
      lia. }
    assert (Hfresh : i0 ∉ map (fun q => Z.to_nat (q mod BUFFER_SIZE))
                          (sentSequences (wrap16 (sequenceSent s + 1))
                                         (length sends)))
      by (apply sent_slot_fresh; lia).
    assert (Hat0 : sentPackets s1 !! i0
                   = Some {| waiting := true; tag := tg; timestamp := now |}).
    { rewrite (Hframe i0 Hfresh), Hring. now apply list_lookup_insert_eq. }
    assert (Hidx : indices
                   = i0 :: map (fun q => Z.to_nat (q mod BUFFER_SIZE))
                               (sentSequences (wrap16 (sequenceSent s + 1))
                                              (length sends))).
    { unfold indices. cbn [length]. rewrite sentSequences_succ. cbn [map].
      now rewrite wrap16_mod_BUFFER_SIZE. }
    exists s1. cbn [sendAll]. rewrite Hsend.
    split; [exact Hrun|]. split.
    { rewrite Hseq1. unfold wrap16. rewrite Z.add_mod_idemp_l by lia.
      f_equal. cbn [length]. lia. }
    split; [congruence|]. split; [congruence|].
    split; [exact Hlen1|]. rewrite Hidx. split; [|split].
    + unfold waitingTags. cbn [omap list_omap]. rewrite Hat0. cbn [waiting tag].
      unfold tagsOf. cbn [map fst snd]. f_equal. exact Hwt.
    + intros j d Hj Hd. apply elem_of_cons in Hj as [-> | Hj].
      * rewrite Hat0 in Hd. injection Hd as <-. exact Htg.
      * eapply Hpos; eauto.
    + intros j Hj. apply not_elem_of_cons in Hj as [Hne Hj].
      rewrite (Hframe j Hj), Hring. now apply list_lookup_insert_ne.
Qed.

Lemma exactly_once_after_sends
  (sends : list (OutboundNetworkPacket * Z * Z)) (acks : list (Z * Z)) s :
  wf s ->
  (length sends <= Z.to_nat BUFFER_SIZE)%nat ->
  Forall (fun x => 0 <= snd (fst x)) sends ->
  covers acks (sequenceSent s) (length sends) ->
  exists s1 new,
    sendAll sends s = Some s1 /\
    sequenceSent s1 = wrap16 (sequenceSent s + Z.of_nat (length sends)) /\
    acked (ackAll acks s1) = acked s ++ new /\
    new ≡ₚ onePerListener (ackListeners s) (tagsOf sends).
Proof.
  intros (Hss & _ & _ & Hlen) Hn Htags Hcov.
  destruct (sendAll_fills_ring sends s Htags Hn Hss Hlen)
    as (s1 & Hrun & Hseq & Hls & Hacked & _ & Hwt & Hpos & _).
  destruct (ackAll_notifies_waiting acks s1
              (map (fun q => Z.to_nat (q mod BUFFER_SIZE))
                   (sentSequences (sequenceSent s) (length sends))))
    as (new & Hnew & _ & Hperm).
  - now apply sentIndices_NoDup.
  - intros a Ha. apply list_elem_of_In, in_map_iff. exists (fst a).
    split; [reflexivity|]. apply list_elem_of_In, Hcov.
    apply list_elem_of_In, in_map. now apply list_elem_of_In.
  - intros j d Hj Hd _. split.
    + specialize (Hpos j d Hj Hd). lia.
    + apply list_elem_of_In, in_map_iff in Hj as (q & <- & Hq).
      apply list_elem_of_In, Hcov, list_elem_of_In, in_map_iff in Hq
        as (a & <- & Ha).
      exists a. split; [now apply list_elem_of_In | reflexivity].
  - exists s1, new. split; [exact Hrun|]. split; [exact Hseq|].
    split; [congruence|]. now rewrite Hperm, Hwt, Hls.
Qed.


Lemma onAckReceived_sequenceSent (sequence now : Z) s :
  sequenceSent (onAckReceived sequence now s) = sequenceSent s.
Proof.
  unfold onAckReceived.
  destruct (sentPackets s !! Z.to_nat (sequence mod BUFFER_SIZE)) as [d|];
    [|reflexivity].
  destruct (waiting d); [|reflexivity].
  unfold reportLatency.
  destruct (bool_decide (tag d ≠ -1)); destruct (fabs_lt_eps _); reflexivity.
Qed.

Lemma ackAll_sequenceSent (acks : list (Z * Z)) s :
  sequenceSent (ackAll acks s) = sequenceSent s.
Proof.
  revert s. induction acks as [|a acks IH]; intros s; [reflexivity|].
  unfold ackAll. cbn [fold_left].
  fold (ackAll acks (onAckReceived (fst a) (snd a) s)).
  now rewrite IH, onAckReceived_sequenceSent.
Qed.

Lemma ackAll_app (acks acks' : list (Z * Z)) s :
  ackAll (acks ++ acks') s = ackAll acks' (ackAll acks s).
Proof. unfold ackAll. apply fold_left_app. Qed.

(** A run of ACKs through [processReceivedAcks], none of them too old, is
    the run of [onAckReceived] calls they stand for. *)
Lemma processAll_ackAll (acks : list (Z * Z * Z)) s :
  Forall (fun a => wrap16 (sequenceSent s - fst (fst a)) <= 512) acks ->
  processAll acks s = ackAll (ackCalls acks) s.
Proof.
  revert s. induction acks as [|[[ack ackBits] now] acks IH]; intros s Hold;
    [reflexivity|].
  apply Forall_cons in Hold as [Hd Hold]. cbn [fst snd] in Hd.
  unfold processAll, ackCalls. cbn [fold_left flat_map fst snd].
  fold (processAll acks (processReceivedAcks ack ackBits now s)).
  fold (ackCalls acks).
  rewrite ackAll_app.
  rewrite (proj2 (processReceivedAcks_cases ack ackBits now s) Hd).
  assert (Hrun : fold_left (fun s q => onAckReceived q now s)
                           (ackOrder ack ackBits) s
                 = ackAll (map (fun q => (q, now)) (ackOrder ack ackBits)) s).
  { generalize (ackOrder ack ackBits). intros l. revert s Hd Hold.
    induction l as [|q l IHl]; intros s Hd Hold; [reflexivity|].
    unfold ackAll. cbn [map fold_left fst snd].
    fold (ackAll (map (fun q => (q, now)) l) (onAckReceived q now s)).
    apply IHl; now rewrite onAckReceived_sequenceSent. }
  rewrite Hrun. apply IH.
  eapply Forall_impl; [exact Hold|]. intros a Ha. cbn beta in *.
  now rewrite ackAll_sequenceSent.
Qed.

(** The same exactly-once reporting through [processReceivedAcks], when no
    ACK of the run is more than 512 behind [sequenceSent]. *)
Lemma exactly_once_through_processReceivedAcks
  (sends : list (OutboundNetworkPacket * Z * Z)) (acks : list (Z * Z * Z)) s :
  wf s ->
  (length sends <= Z.to_nat BUFFER_SIZE)%nat ->
  Forall (fun x => 0 <= snd (fst x)) sends ->
  Forall (fun a => wrap16 (sequenceSent s + Z.of_nat (length sends)
                           - fst (fst a)) <= 512) acks ->
  covers (ackCalls acks) (sequenceSent s) (length sends) ->
  exists s1 new,
    sendAll sends s = Some s1 /\
    acked (processAll acks s1) = acked s ++ new /\
    new ≡ₚ onePerListener (ackListeners s) (tagsOf sends).
Proof.
  intros Hwf Hn Htags Hold Hcov.
  destruct (exactly_once_after_sends sends (ackCalls acks) s Hwf Hn Htags Hcov)
    as (s1 & new & Hrun & Hseq & Hacked & Hperm).
  exists s1, new. split; [exact Hrun|]. split; [|exact Hperm].
  rewrite processAll_ackAll; [exact Hacked|].
  eapply Forall_impl; [exact Hold|]. intros a Ha. cbn beta in *.
  rewrite Hseq. unfold wrap16 in *.
  now rewrite Zminus_mod_idemp_l.
Qed.

End Sends.




Lemma generateAckBits_roundtrip_witness :
  highestReceived chanB = 5 /\
  generateAckBits chanB = 3 /\
  (list_to_set (decodeAckBits (highestReceived chanB) (generateAckBits chanB))
   : gset Z) = list_to_set [4; 3].
Proof.
  split; [reflexivity|]. split; [reflexivity|].
  apply (proj2 (generateAckBits_roundtrip chanB) (list_to_set [4; 3])).
  - intros q Hq. apply elem_of_list_to_set in Hq.
    apply elem_of_cons in Hq as [-> | Hq]; [exists 0; split; [lia | reflexivity]|].
    apply elem_of_cons in Hq as [-> | Hq]; [exists 1; split; [lia | reflexivity]|].
    now apply elem_of_nil in Hq.
  - intros i Hi. rewrite elem_of_list_to_set.
    rewrite <- (bool_decide_eq_true (_ ∈ _)).
    assert (Hn : (Z.to_nat i < 32)%nat) by lia.
    replace i with (Z.of_nat (Z.to_nat i)) by lia.
    generalize (Z.to_nat i) Hn. clear. intros n Hn.
    do 32 (destruct n as [|n]; [vm_compute; tauto|]). lia.
Defined.

(** *** Well-formedness is kept, and [onSeqReceived] always returns *)

Section WellFormed.
Context {C : Type} `{IConnection C} `{FloatOps}.
Implicit Types s : ReliableConnection.t C.

Lemma new_wf (parent0 : C) (now : Z) : wf (new parent0 now).
Proof.
  unfold wf, new. cbn [sequenceSent highestReceived receivedSeqs sentPackets].
  rewrite !length_replicate. repeat split; lia.
Qed.

Lemma sendTagged_wf (packet : OutboundNetworkPacket) (tg now : Z) s s' :
  wf s -> sendTagged packet tg now s = Some s' -> wf s'.
Proof.
  intros (Hss & Hhr & Hlr & Hls) Hsend. unfold sendTagged in Hsend.
  destruct (decide (0 <= tg)); [|discriminate Hsend].
  injection Hsend as <-. unfold wf.
  cbn [sequenceSent highestReceived receivedSeqs sentPackets set_lastSend
       set_sentPackets set_parent set_sequenceSent].
  rewrite length_insert. repeat split; try assumption; try lia.
  - apply Z.mod_pos_bound. lia.
  - apply Z.mod_pos_bound. lia.
Qed.

Lemma onAckReceived_wf (sequence now : Z) s :
  wf s -> wf (onAckReceived sequence now s).
Proof.
  intros (Hss & Hhr & Hlr & Hls). unfold onAckReceived.
  destruct (sentPackets s !! Z.to_nat (sequence mod BUFFER_SIZE)) as [d|];
    [|now repeat split].
  destruct (waiting d); [|now repeat split].
  unfold reportLatency, wf.
  destruct (bool_decide (tag d ≠ -1)); destruct (fabs_lt_eps _);
    cbn [sequenceSent highestReceived receivedSeqs sentPackets set_lag
         set_acked set_sentPackets];
    rewrite length_insert; repeat split; assumption || lia.
Qed.

Lemma processReceivedAcks_wf (ack ackBits now : Z) s :
  wf s -> wf (processReceivedAcks ack ackBits now s).
Proof.
  intros Hwf.
  destruct (Z.le_gt_cases (wrap16 (sequenceSent s - ack)) 512) as [Hd | Hd].
  - rewrite (proj2 (processReceivedAcks_cases ack ackBits
                      now s) Hd).
    clear Hd. generalize (ackOrder ack ackBits). intros l. revert s Hwf.
    induction l as [|q l IH]; intros s Hwf; [exact Hwf|].
    cbn [fold_left]. apply IH. now apply onAckReceived_wf.
  - now rewrite (proj1 (processReceivedAcks_cases ack
                          ackBits now s) Hd).
Qed.

Lemma wf_set_receivedSeqs (r : list Z) s :
  wf s -> length r = Z.to_nat BUFFER_SIZE -> wf (set_receivedSeqs r s).
Proof.
  intros (Hss & Hhr & _ & Hls) Hr. split; [|split; [|split]]; assumption.
Qed.

Lemma wf_set_highestReceived (v : Z) s :
  wf s -> 0 <= v < 65536 -> wf (set_highestReceived v s).
Proof.
  intros (Hss & _ & Hlr & Hls) Hv. split; [|split; [|split]]; assumption.
Qed.

Lemma wf_close s : wf s -> wf (close s).
Proof.
  intros (Hss & Hhr & Hlr & Hls). split; [|split; [|split]]; assumption.
Qed.

Lemma markReceived_wf (bufferPos : Z) (isResend : bool) (resendPos : Z) s :
  wf s -> wf (snd (markReceived bufferPos isResend resendPos s)).
Proof.
  intros Hwf. unfold markReceived.
  destruct (_ || _); [exact Hwf|]. cbn [snd].
  apply wf_set_receivedSeqs; [exact Hwf|].
  destruct Hwf as (_ & _ & Hlr & _).
  destruct isResend; now rewrite ?length_insert.
Qed.

Lemma advance_wf (seq : Z) s s1 :
  wf s -> 0 <= seq < 65536 -> advance seq s = Some s1 -> wf s1.
Proof.
  intros Hwf Hseq Hadv.
  destruct (advance_spec seq s (proj1 (proj2 (proj2 Hwf))))
    as (r' & Hadv' & Hlen' & _).
  rewrite Hadv' in Hadv. injection Hadv as <-.
  apply wf_set_highestReceived; [|exact Hseq].
  now apply wf_set_receivedSeqs.
Qed.

Lemma onSeqReceived_wf (seq : Z) (isResend : bool) (resendOf : Z) s :
  wf s -> 0 <= seq < 65536 ->
  exists (fresh : bool) s',
    onSeqReceived seq isResend resendOf s = Some (fresh, s') /\ wf s'.
Proof.
  intros Hwf Hseq.
  assert (Hw : 0 <= wrap16 (seq - highestReceived s) < 65536)
    by (apply Z.mod_pos_bound; lia).
  assert (Hcases :
            wrap16 (seq - highestReceived s) = 0
            \/ 0x8000 <= wrap16 (seq - highestReceived s)
            \/ (0 < wrap16 (seq - highestReceived s) < 0x8000
                /\ wrap16 (seq - highestReceived s) <= BUFFER_SIZE - 32)
            \/ (0 < wrap16 (seq - highestReceived s) < 0x8000
                /\ BUFFER_SIZE - 32 < wrap16 (seq - highestReceived s)))
    by (unfold BUFFER_SIZE; lia).
  destruct Hcases as [Hz | [Hold | [[Hnew Hfit] | [Hnew Hskip]]]].
  - exists (fst (markReceived (seq mod BUFFER_SIZE) isResend
                              (resendOf mod BUFFER_SIZE) s)),
           (snd (markReceived (seq mod BUFFER_SIZE) isResend
                              (resendOf mod BUFFER_SIZE) s)).
    split; [|now apply markReceived_wf].
    rewrite onSeqReceived_no_advance by (left; exact Hz).
    now destruct (markReceived _ _ _ s).
  - exists (fst (markReceived (seq mod BUFFER_SIZE) isResend
                              (resendOf mod BUFFER_SIZE) s)),
           (snd (markReceived (seq mod BUFFER_SIZE) isResend
                              (resendOf mod BUFFER_SIZE) s)).
    split; [|now apply markReceived_wf].
    rewrite onSeqReceived_no_advance by (right; exact Hold).
    now destruct (markReceived _ _ _ s).
  - destruct (onSeqReceived_advances seq isResend resendOf s
                (proj1 (proj2 (proj2 Hwf))) Hnew Hfit)
      as (s1 & Hadv & Hrun & _).
    exists (fst (markReceived (seq mod BUFFER_SIZE) isResend
                              (resendOf mod BUFFER_SIZE) s1)),
           (snd (markReceived (seq mod BUFFER_SIZE) isResend
                              (resendOf mod BUFFER_SIZE) s1)).
    split.
    + rewrite Hrun. now destruct (markReceived _ _ _ s1).
    + apply markReceived_wf. exact (advance_wf seq s s1 Hwf Hseq Hadv).
  - exists false, (close s). split; [|now apply wf_close].
    unfold onSeqReceived.
    assert ((wrap16 (seq - highestReceived s) =? 0) = false) as ->
      by (apply Z.eqb_neq; lia).
    assert ((wrap16 (seq - highestReceived s) <? 0x8000) = true) as ->
      by (apply Z.ltb_lt; lia).
    assert ((BUFFER_SIZE - 32 <? wrap16 (seq - highestReceived s)) = true)
      as -> by (apply Z.ltb_lt; lia).
    reflexivity.
Qed.

Lemma generateAckBits_ext s s' :
  highestReceived s = highestReceived s' ->
  receivedSeqs s = receivedSeqs s' ->
  generateAckBits s = generateAckBits s'.
Proof.
  intros Hhr Hr. unfold generateAckBits.
  generalize (seq 0 32) 0. intros l. induction l as [|i l IH]; intros a;
    [reflexivity|].
  cbn [fold_left]. rewrite IH. f_equal.
  unfold ackBitsStep. now rewrite Hhr, Hr.
Qed.

(** What [sendTagged] hands to its parent: the reliable header, the
    sub-header of the payload size, the payload. *)
Lemma sendTagged_wire (packet : OutboundNetworkPacket) (tg now : Z) s s' :
  sendTagged packet tg now s = Some s' ->
  parent s'
  = conn_send (le16 (sequenceSent s) ++ le16 (highestReceived s)
               ++ le32 (generateAckBits s)
               ++ encodeSubHeader (getSize packet) false 0 ++ packet)
              (parent s).
Proof.
  unfold sendTagged. destruct (decide (0 <= tg)); [|discriminate].
  intros [= <-]. cbn [parent set_lastSend set_sentPackets set_parent].
  unfold addHeader.
  change (highestReceived (set_sequenceSent _ s)) with (highestReceived s).
  rewrite (generateAckBits_ext (set_sequenceSent _ s) s eq_refl eq_refl).
  change (parent (set_sequenceSent _ s)) with (parent s).
  reflexivity.
Qed.

End WellFormed.

(** *** The scenarios of the spec, run on the model *)

(** Scenario A: sequences 0, 1, 2 tagged 10, 11, 12; the ACK
    [(2, 0b011)] has the listener told 10, 11, 12, in that order. *)
Example scenario_A_single_round_trip :
  acked (processReceivedAcks 2 3 9 chanA)
  = [(7%nat, 10); (7%nat, 11); (7%nat, 12)].
Proof. vm_compute. reflexivity. Qed.

(** Scenario C: sequence 7 twice; the second is refused and changes
    nothing. *)
Example scenario_C_duplicate :
  exists s,
    onSeqReceived 7 false 0 chan0 = Some (true, s) /\
    onSeqReceived 7 false 0 s = Some (false, s).
Proof.
  exists (default chan0 (snd <$> onSeqReceived 7 false 0 chan0)).
  split; vm_compute; reflexivity.
Qed.

(** Scenario F: [sequenceSent = 1000] and an ACK for 400: nothing fires,
    although sequence 400 still waits and a direct [onAckReceived 400]
    would report its tag. *)
Example scenario_F_ack_too_old :
  sequenceSent chanF = 1000 /\
  acked (processReceivedAcks 400 0xFFFFFFFF 2000 chanF) = [] /\
  acked (onAckReceived 400 2000 chanF) = [(7%nat, 500)].
Proof. vm_compute. repeat split; reflexivity. Qed.

(** A 64-byte payload, sent and received: the datagram put on the socket
    is the id byte and [datagram64]; the receiver, reading a sub-header
    without the long-size bit, delivers nine sub-packets, none of them the
    payload, and counts nine sequences. *)
Example long_payload_is_misframed :
  exists s,
    sendTagged payload64 0 1 chan0 = Some s /\
    UDPConnection.socket (parent s) = [(peer, 255 :: datagram64)] /\
    exists s',
      processReceivedPacket datagram64 5 chan0 = Returned s' /\
      pendingPackets s' = [] :: replicate 8 (replicate 7 7) /\
      highestReceived s' = 8.
Proof.
  exists (default chan0 (sendTagged payload64 0 1 chan0)).
  split; [vm_compute; reflexivity|]. split; [vm_compute; reflexivity|].
  eexists. split; [vm_compute; reflexivity|].
  split; vm_compute; reflexivity.
Qed.

(** ** udp_connection.cpp: the other functions *)

Lemma handshake_payload_shape (id : Z) :
  length (cstring "halley_accp" ++ le16 id)
  = UDPConnection.sizeof_HandshakeAccept /\
  take 12 (cstring "halley_accp" ++ le16 id) = cstring "halley_accp".
Proof. split; reflexivity. Qed.

(** X1: [open(id)] on a connecting connection whose send queue is empty
    hands the socket one datagram, the byte 0xFF and then the 14 handshake
    bytes with [id] in them, and leaves the connection Open with that id;
    the 14 bytes, given to [onReceive] of a connecting peer, open the peer
    (with the id -1 of its own [HandshakeAccept]). *)
Theorem open_sends_handshake_that_opens_peer (id : Z)
  (c c' : UDPConnection.t) :
  UDPConnection.status c = CONNECTING ->
  UDPConnection.pendingSend c = [] ->
  UDPConnection.status c' = CONNECTING ->
  UDPConnection.socket (UDPConnection.open id c)
  = UDPConnection.socket c
    ++ [(UDPConnection.remote c, 255 :: cstring "halley_accp" ++ le16 id)] /\
  UDPConnection.status (UDPConnection.open id c) = OPEN /\
  UDPConnection.connectionId (UDPConnection.open id c) = id /\
  UDPConnection.onReceive (cstring "halley_accp" ++ le16 id) c'
  = Some (UDPConnection.onOpen (-1) c').
Proof.
  intros Hst Hq Hst'. unfold UDPConnection.open.
  rewrite decide_True by exact Hst.
  split; [|split; [reflexivity | split; [reflexivity|]]].
  - change (UDPConnection.socket (UDPConnection.onOpen id ?x))
      with (UDPConnection.socket x).
    now apply send_header_is_minus_one; [right|].
  - destruct (handshake_payload_shape id) as [Hlen Hmagic].
    now apply onReceive_handshake.
Qed.

Lemma open_sends_handshake_that_opens_peer_witness :
  UDPConnection.status client0 = CONNECTING /\
  UDPConnection.pendingSend client0 = [] /\
  UDPConnection.socket (UDPConnection.open 5 client0) = [(peer, 255 :: accept5)] /\
  UDPConnection.onReceive accept5 client0
  = Some (UDPConnection.onOpen (-1) client0).
Proof.
  split; [reflexivity|]. split; [reflexivity|].
  destruct (open_sends_handshake_that_opens_peer 5 client0 client0
              eq_refl eq_refl eq_refl) as (Hsock & _ & _ & Hpeer).
  split; [exact Hsock | exact Hpeer].
Defined.

(** X2: [onReceive] of at most 1500 bytes changes nothing when the
    connection is Connecting and the datagram is not a handshake (its
    length is not 14 or its first 12 bytes are not the magic), and when the
    connection is Closing or Closed: the datagram is dropped, not queued. *)
Theorem onReceive_drops_unless_handshake_or_open (data : list Z)
  (c : UDPConnection.t) :
  (length data <= 1500)%nat ->
  (UDPConnection.status c = CONNECTING
   /\ (length data <> UDPConnection.sizeof_HandshakeAccept
       \/ take 12 data <> cstring "halley_accp"))
  \/ UDPConnection.status c = CLOSING
  \/ UDPConnection.status c = CLOSED ->
  UDPConnection.onReceive data c = Some c.
Proof.
  intros Hlen Hcase. unfold UDPConnection.onReceive.
  rewrite decide_True by exact Hlen.
  destruct Hcase as [[Hst Hbad] | [Hst | Hst]]; rewrite Hst.
  - rewrite decide_True by reflexivity.
    destruct (decide (length data = UDPConnection.sizeof_HandshakeAccept));
      [|reflexivity].
    destruct Hbad as [Hbad | Hbad]; [contradiction|].
    rewrite decide_False; [reflexivity|]. exact Hbad.
  - rewrite decide_False by discriminate.
    rewrite decide_False by discriminate. reflexivity.
  - rewrite decide_False by discriminate.
    rewrite decide_False by discriminate. reflexivity.
Qed.

Lemma onReceive_drops_unless_handshake_or_open_witness :
  UDPConnection.onReceive [1; 2; 3] client0 = Some client0 /\
  UDPConnection.onReceive accept5 (UDPConnection.close server5)
  = Some (UDPConnection.close server5).
Proof.
  split.
  - apply (onReceive_drops_unless_handshake_or_open [1; 2; 3] client0).
    + cbn; lia.
    + left. split; [reflexivity|]. left. discriminate.
  - apply (onReceive_drops_unless_handshake_or_open accept5
             (UDPConnection.close server5)).
    + cbn; lia.
    + right. left. reflexivity.
Defined.

Lemma set_pendingReceive_same (c : UDPConnection.t) :
  UDPConnection.set_pendingReceive (UDPConnection.pendingReceive c) c = c.
Proof. now destruct c. Qed.

Lemma deliverAll_open (datagrams : list (list Z)) :
  forall c,
    UDPConnection.status c = OPEN ->
    Forall (fun data => (length data <= 1500)%nat) datagrams ->
    deliverAll datagrams c
    = Some (UDPConnection.set_pendingReceive
              (UDPConnection.pendingReceive c ++ datagrams) c).
Proof.
  induction datagrams as [|data datagrams IH]; intros c Hst Hlen.
  - cbn [deliverAll]. now rewrite app_nil_r, set_pendingReceive_same.
  - apply Forall_cons in Hlen as [Hd Hlen]. cbn [deliverAll].
    unfold UDPConnection.onReceive.
    rewrite decide_True by exact Hd. rewrite Hst.
    rewrite decide_False by discriminate.
    rewrite decide_True by reflexivity.
    rewrite decide_True by exact Hd.
    rewrite IH by (exact Hst || exact Hlen).
    cbn [UDPConnection.pendingReceive UDPConnection.set_pendingReceive].
    now rewrite <- app_assoc.
Qed.

Lemma receiveN_pops (datagrams rest : list (list Z)) :
  forall c,
    receiveN (length datagrams)
             (UDPConnection.set_pendingReceive (datagrams ++ rest) c)
    = (datagrams, UDPConnection.set_pendingReceive rest c).
Proof.
  induction datagrams as [|data datagrams IH]; intros c; [reflexivity|].
  cbn [length receiveN app]. unfold UDPConnection.receive.
  cbn [UDPConnection.pendingReceive UDPConnection.set_pendingReceive].
  change (UDPConnection.set_pendingReceive (datagrams ++ rest)
            (UDPConnection.set_pendingReceive (data :: datagrams ++ rest) c))
    with (UDPConnection.set_pendingReceive (datagrams ++ rest) c).
  now rewrite IH.
Qed.

(** X3: on an Open connection whose receive queue is empty, datagrams of
    at most 1500 bytes handed to [onReceive] come back from [receive] one
    per call, whole and in arrival order; the call after the last returns
    false, and the connection is then as it was before the datagrams. *)
Theorem receive_returns_datagrams_in_order (datagrams : list (list Z))
  (c : UDPConnection.t) :
  UDPConnection.status c = OPEN ->
  UDPConnection.pendingReceive c = [] ->
  Forall (fun data => (length data <= 1500)%nat) datagrams ->
  exists c',
    deliverAll datagrams c = Some c' /\
    receiveN (S (length datagrams)) c' = (datagrams, c).
Proof.
  intros Hst Hq Hlen. eexists. split; [now apply deliverAll_open|].
  rewrite Hq. cbn [app].
  assert (Hn : forall ds c0,
             UDPConnection.pendingReceive c0 = [] ->
             receiveN (S (length ds)) (UDPConnection.set_pendingReceive ds c0)
             = (ds, c0)).
  { clear. induction ds as [|d ds IH]; intros c0 Hq0.
    - cbn [length receiveN]. unfold UDPConnection.receive.
      cbn [UDPConnection.pendingReceive UDPConnection.set_pendingReceive].
      now rewrite <- Hq0, set_pendingReceive_same.
    - cbn [length]. change (receiveN (S (S (length ds))) ?x)
        with (match UDPConnection.receive x with
              | None => ([], x)
              | Some (packet, c1) =>
                  let '(packets, c2) := receiveN (S (length ds)) c1 in
                  (packet :: packets, c2)
              end).
      unfold UDPConnection.receive at 1.
      cbn [UDPConnection.pendingReceive UDPConnection.set_pendingReceive].
      change (UDPConnection.set_pendingReceive ds
                (UDPConnection.set_pendingReceive (d :: ds) c0))
        with (UDPConnection.set_pendingReceive ds c0).
      now rewrite IH. }
  now apply Hn.
Qed.

Lemma receive_returns_datagrams_in_order_witness :
  exists c',
    deliverAll [[1; 2]; []; [3]] server5 = Some c' /\
    receiveN 4 c' = ([[1; 2]; []; [3]], server5).
Proof.
  apply (receive_returns_datagrams_in_order [[1; 2]; []; [3]] server5).
  - reflexivity.
  - reflexivity.
  - repeat constructor; cbn; lia.
Defined.

Lemma send_queue_stays_empty (packet : OutboundNetworkPacket)
  (c : UDPConnection.t) :
  UDPConnection.pendingSend c = [] ->
  UDPConnection.pendingSend (UDPConnection.send packet c) = [] /\
  UDPConnection.remote (UDPConnection.send packet c) = UDPConnection.remote c /\
  UDPConnection.status (UDPConnection.send packet c) = UDPConnection.status c /\
  UDPConnection.connectionId (UDPConnection.send packet c)
  = UDPConnection.connectionId c /\
  UDPConnection.pendingReceive (UDPConnection.send packet c)
  = UDPConnection.pendingReceive c /\
  (UDPConnection.socket (UDPConnection.send packet c) = UDPConnection.socket c
   \/ UDPConnection.socket (UDPConnection.send packet c)
      = UDPConnection.socket c ++ [(UDPConnection.remote c, 255 :: packet)]).
Proof.
  intros Hq. unfold UDPConnection.send.
  destruct (bool_decide (UDPConnection.status c = OPEN)
            || bool_decide (UDPConnection.status c = CONNECTING)) eqn:Hst.
  - rewrite Hq. cbn -[Z.to_nat Z.of_nat take]. unfold getSize.
    rewrite Nat2Z.id, firstn_all. repeat split. right. reflexivity.
  - repeat split; try assumption. now left.
Qed.

Lemma onClose_same (c : UDPConnection.t) : UDPConnection.onClose c = c.
Proof. unfold UDPConnection.onClose. now destruct (decide _). Qed.

Lemma udpCall_effect (call : UDPCall) (c c' : UDPConnection.t) :
  udpCall call c = Some c' ->
  UDPConnection.pendingSend c = [] ->
  UDPConnection.pendingSend c' = [] /\
  UDPConnection.remote c' = UDPConnection.remote c /\
  (UDPConnection.socket c' = UDPConnection.socket c
   \/ exists packet,
        UDPConnection.socket c'
        = UDPConnection.socket c ++ [(UDPConnection.remote c, 255 :: packet)]).
Proof.
  intros Hcall Hq.
  assert (Hsend : forall packet,
             UDPConnection.pendingSend (UDPConnection.send packet c) = [] /\
             UDPConnection.remote (UDPConnection.send packet c)
             = UDPConnection.remote c /\
             (UDPConnection.socket (UDPConnection.send packet c)
              = UDPConnection.socket c
              \/ exists p,
                   UDPConnection.socket (UDPConnection.send packet c)
                   = UDPConnection.socket c
                     ++ [(UDPConnection.remote c, 255 :: p)])).
  { intros packet.
    destruct (send_queue_stays_empty packet c Hq)
      as (H1 & H2 & _ & _ & _ & [H3 | H3]).
    - auto.
    - split; [exact H1|]. split; [exact H2|]. right. now exists packet. }
  destruct call; cbn [udpCall] in Hcall.
  - injection Hcall as <-. apply Hsend.
  - injection Hcall as <-. unfold UDPConnection.open.
    destruct (decide _); [|auto]. apply (Hsend _).
  - unfold UDPConnection.onReceive in Hcall.
    repeat (destruct (decide _) in Hcall);
      first [discriminate Hcall | injection Hcall as <-; auto].
  - injection Hcall as <-. unfold UDPConnection.receive.
    destruct (UDPConnection.pendingReceive c); auto.
  - injection Hcall as <-. unfold UDPConnection.close.
    rewrite onClose_same. auto.
  - injection Hcall as <-. unfold UDPConnection.terminateConnection.
    rewrite onClose_same. auto.
  - injection Hcall as <-. auto.
  - injection Hcall as <-. unfold UDPConnection.sendNext_completion.
    destruct failed.
    + unfold UDPConnection.close. rewrite onClose_same. auto.
    + rewrite Hq. auto.
Qed.

(** X4: whatever calls are made on a connection since its construction
    ([send], [open], [onReceive], [receive], [close],
    [terminateConnection], [setError], send completions with or without
    error), its send queue is empty after each of them, so no packet ever
    waits behind another, and every datagram it has handed to the socket is
    addressed to its remote and starts with the byte 0xFF. *)
Theorem socket_gets_every_send_at_once
  (remoteEndpoint : UDPConnection.UDPEndpoint) (calls : list UDPCall)
  (c : UDPConnection.t) :
  udpCalls calls (UDPConnection.new remoteEndpoint) = Some c ->
  UDPConnection.pendingSend c = [] /\
  UDPConnection.remote c = remoteEndpoint /\
  Forall (fun sent => fst sent = remoteEndpoint
                      /\ exists packet, snd sent = 255 :: packet)
         (UDPConnection.socket c).
Proof.
  assert (Hinv : forall calls c0 c1,
             udpCalls calls c0 = Some c1 ->
             UDPConnection.pendingSend c0 = [] ->
             UDPConnection.remote c0 = remoteEndpoint ->
             Forall (fun sent => fst sent = remoteEndpoint
                                 /\ exists packet, snd sent = 255 :: packet)
                    (UDPConnection.socket c0) ->
             UDPConnection.pendingSend c1 = [] /\
             UDPConnection.remote c1 = remoteEndpoint /\
             Forall (fun sent => fst sent = remoteEndpoint
                                 /\ exists packet, snd sent = 255 :: packet)
                    (UDPConnection.socket c1)).
  { clear. induction calls as [|call calls IH]; intros c0 c1 Hrun Hq Hr Ht.
    - injection Hrun as <-. auto.
    - cbn [udpCalls] in Hrun.
      destruct (udpCall call c0) as [c0'|] eqn:Hcall; [|discriminate Hrun].
      destruct (udpCall_effect call c0 c0' Hcall Hq) as (Hq' & Hr' & Hs').
      apply (IH c0' c1 Hrun Hq'); [congruence|].
      destruct Hs' as [-> | [packet ->]]; [exact Ht|].
      apply Forall_app. split; [exact Ht|].
      constructor; [|constructor]. split; [exact Hr | now exists packet]. }
  intros Hrun. apply (Hinv calls _ c Hrun); [reflexivity | reflexivity|].
  constructor.
Qed.

Lemma socket_gets_every_send_at_once_witness :
  udpCalls [CallSend [1]; CallOpen 5; CallSend [2]; CallSendDone false;
            CallOnReceive [9]; CallClose; CallSend [3]]
           (UDPConnection.new peer)
  = Some (UDPConnection.close
            (UDPConnection.set_pendingReceive [[9]]
               (UDPConnection.async_send_to [255; 2] 2 server5'))) /\
  UDPConnection.pendingSend
    (UDPConnection.close
       (UDPConnection.set_pendingReceive [[9]]
          (UDPConnection.async_send_to [255; 2] 2 server5'))) = [].
Proof.
  assert (Hrun :
            udpCalls [CallSend [1]; CallOpen 5; CallSend [2];
                      CallSendDone false; CallOnReceive [9]; CallClose;
                      CallSend [3]]
                     (UDPConnection.new peer)
            = Some (UDPConnection.close
                      (UDPConnection.set_pendingReceive [[9]]
                         (UDPConnection.async_send_to [255; 2] 2 server5'))))
    by (vm_compute; reflexivity).
  split; [exact Hrun|].
  exact (proj1 (socket_gets_every_send_at_once peer _ _ Hrun)).
Defined.

Lemma udpCall_closed (call : UDPCall) (c c' : UDPConnection.t) :
  udpCall call c = Some c' ->
  UDPConnection.pendingSend c = [] ->
  UDPConnection.status c = CLOSING \/ UDPConnection.status c = CLOSED ->
  (UDPConnection.status c' = CLOSING \/ UDPConnection.status c' = CLOSED) /\
  UDPConnection.socket c' = UDPConnection.socket c /\
  UDPConnection.connectionId c' = UDPConnection.connectionId c /\
  exists k, UDPConnection.pendingReceive c'
            = drop k (UDPConnection.pendingReceive c).
Proof.
  intros Hcall Hq Hst.
  assert (Hsame : (UDPConnection.status c = CLOSING
                   \/ UDPConnection.status c = CLOSED) /\
                  UDPConnection.socket c = UDPConnection.socket c /\
                  UDPConnection.connectionId c = UDPConnection.connectionId c /\
                  exists k, UDPConnection.pendingReceive c
                            = drop k (UDPConnection.pendingReceive c))
    by (split; [exact Hst|]; split; [reflexivity|];
        split; [reflexivity|]; now exists 0%nat).
  assert (Hnc : UDPConnection.status c <> CONNECTING)
    by (destruct Hst as [-> | ->]; discriminate).
  assert (Hno : UDPConnection.status c <> OPEN)
    by (destruct Hst as [-> | ->]; discriminate).
  assert (Hsend : forall packet, UDPConnection.send packet c = c).
  { intros packet. unfold UDPConnection.send.
    now rewrite (bool_decide_eq_false_2 _ Hno),
                (bool_decide_eq_false_2 _ Hnc). }
  destruct call; cbn [udpCall] in Hcall.
  - injection Hcall as <-. now rewrite Hsend.
  - injection Hcall as <-. unfold UDPConnection.open.
    now rewrite decide_False.
  - unfold UDPConnection.onReceive in Hcall.
    destruct (decide (length data <= 1500)%nat); [|discriminate Hcall].
    rewrite decide_False in Hcall by exact Hnc.
    rewrite decide_False in Hcall by exact Hno.
    now injection Hcall as <-.
  - injection Hcall as <-. unfold UDPConnection.receive.
    destruct (UDPConnection.pendingReceive c) as [|packet rest] eqn:Hp.
    + split; [exact Hst|]. split; [reflexivity|]. split; [reflexivity|].
      exists 0%nat. exact Hp.
    + split; [exact Hst|]. split; [reflexivity|]. split; [reflexivity|].
      exists 1%nat. reflexivity.
  - injection Hcall as <-. unfold UDPConnection.close.
    rewrite onClose_same. split; [now left|].
    split; [reflexivity|]. split; [reflexivity|]. now exists 0%nat.
  - injection Hcall as <-. unfold UDPConnection.terminateConnection.
    rewrite onClose_same. split; [now right|].
    split; [reflexivity|]. split; [reflexivity|]. now exists 0%nat.
  - injection Hcall as <-. exact Hsame.
  - injection Hcall as <-. unfold UDPConnection.sendNext_completion.
    destruct failed.
    + unfold UDPConnection.close. rewrite onClose_same. split; [now left|].
      split; [reflexivity|]. split; [reflexivity|]. now exists 0%nat.
    + rewrite Hq. exact Hsame.
Qed.

(** X5: a connection that is Closing or Closed, its send queue empty,
    stays Closing or Closed under every further call: nothing reopens it
    (though [close] takes a Closed connection back to Closing), it hands
    nothing more to the socket, keeps its id, queues no received datagram
    and only loses queued ones to [receive]. *)
Theorem closed_connection_stays_closed (calls : list UDPCall)
  (c c' : UDPConnection.t) :
  UDPConnection.status c = CLOSING \/ UDPConnection.status c = CLOSED ->
  UDPConnection.pendingSend c = [] ->
  udpCalls calls c = Some c' ->
  (UDPConnection.status c' = CLOSING \/ UDPConnection.status c' = CLOSED) /\
  UDPConnection.socket c' = UDPConnection.socket c /\
  UDPConnection.connectionId c' = UDPConnection.connectionId c /\
  exists k, UDPConnection.pendingReceive c'
            = drop k (UDPConnection.pendingReceive c).
Proof.
  revert c. induction calls as [|call calls IH]; intros c Hst Hq Hrun.
  - injection Hrun as <-. split; [exact Hst|]. split; [reflexivity|].
    split; [reflexivity|]. now exists 0%nat.
  - cbn [udpCalls] in Hrun.
    destruct (udpCall call c) as [c1|] eqn:Hcall; [|discriminate Hrun].
    destruct (udpCall_closed call c c1 Hcall Hq Hst)
      as (Hst1 & Hs1 & Hid1 & k1 & Hr1).
    destruct (udpCall_effect call c c1 Hcall Hq) as (Hq1 & _).
    destruct (IH c1 Hst1 Hq1 Hrun) as (Hst' & Hs' & Hid' & k & Hr').
    split; [exact Hst'|]. split; [congruence|]. split; [congruence|].
    exists (k1 + k)%nat. now rewrite Hr', Hr1, drop_drop.
Qed.

Lemma closed_connection_stays_closed_witness :
  udpCalls [CallSend [1]; CallOpen 7; CallOnReceive accept5; CallClose;
            CallSendDone false]
           (UDPConnection.terminateConnection server5)
  = Some (UDPConnection.close server5) /\
  UDPConnection.status (UDPConnection.close server5) = CLOSING /\
  UDPConnection.socket (UDPConnection.close server5)
  = UDPConnection.socket (UDPConnection.terminateConnection server5).
Proof.
  assert (Hrun :
            udpCalls [CallSend [1]; CallOpen 7; CallOnReceive accept5;
                      CallClose; CallSendDone false]
                     (UDPConnection.terminateConnection server5)
            = Some (UDPConnection.close server5))
    by (vm_compute; reflexivity).
  split; [exact Hrun|]. split; [reflexivity|].
  exact (proj1 (proj2 (closed_connection_stays_closed _
           (UDPConnection.terminateConnection server5) _
           (or_intror eq_refl) eq_refl Hrun))).
Defined.

(** ** reliable_connection.cpp: the other functions *)

Lemma eraseFirst_absent (listener : Listener) (l : list Listener) :
  listener ∉ l -> eraseFirst listener l = None.
Proof.
  induction l as [|x l IH]; intros Hnin; [reflexivity|].
  apply not_elem_of_cons in Hnin as [Hne Hnin]. cbn [eraseFirst].
  rewrite decide_False by congruence. now rewrite IH.
Qed.

Lemma eraseFirst_first (listener : Listener) (l1 l2 : list Listener) :
  listener ∉ l1 ->
  eraseFirst listener (l1 ++ listener :: l2) = Some (l1 ++ l2).
Proof.
  induction l1 as [|x l1 IH]; intros Hnin; cbn [app eraseFirst].
  - now rewrite decide_True.
  - apply not_elem_of_cons in Hnin as [Hne Hnin].
    rewrite decide_False by congruence. now rewrite IH.
Qed.

Section Listeners.
Context {C : Type} `{IConnection C} `{FloatOps}.
Implicit Types s : ReliableConnection.t C.

Lemma set_ackListeners_same s :
  set_ackListeners (ackListeners s) s = s.
Proof. now destruct s. Qed.

(** X6: [removeAckListener] takes out the first registration of the
    listener and keeps the others in their order; for a listener that is not
    registered it erases [end()], which is undefined ([None]); a listener
    added by [addAckListener] to a channel that did not have it is removed
    again by [removeAckListener], the channel being as before. *)
Theorem removeAckListener_removes_first_registration (listener : Listener) s :
  (listener ∉ ackListeners s -> removeAckListener listener s = None) /\
  (forall l1 l2,
     ackListeners s = l1 ++ listener :: l2 -> listener ∉ l1 ->
     removeAckListener listener s = Some (set_ackListeners (l1 ++ l2) s)) /\
  (listener ∉ ackListeners s ->
   removeAckListener listener (addAckListener listener s) = Some s).
Proof.
  unfold removeAckListener, addAckListener. split; [|split].
  - intros Hnin. now rewrite eraseFirst_absent.
  - intros l1 l2 Hl Hnin. now rewrite Hl, eraseFirst_first.
  - intros Hnin. cbn [ackListeners set_ackListeners].
    rewrite eraseFirst_first by exact Hnin. cbn [option_map].
    rewrite app_nil_r. f_equal. now destruct s.
Qed.

(** X7: acknowledging a sequence again changes nothing: after
    [onAckReceived] for a sequence, a second [onAckReceived] for it, at
    whatever time, leaves the sent ring, the latency estimate and the
    listener trace as the first call left them. *)
Theorem onAckReceived_again_is_noop (sequence now now' : Z) s :
  onAckReceived sequence now' (onAckReceived sequence now s)
  = onAckReceived sequence now s.
Proof.
  apply onAckReceived_idle. intros d' Hd'.
  destruct (sentPackets s !! Z.to_nat (sequence mod BUFFER_SIZE))
    as [d|] eqn:Hd.
  - destruct (waiting d) eqn:Hw.
    + assert (Hring : sentPackets (onAckReceived sequence now s)
                      = <[Z.to_nat (sequence mod BUFFER_SIZE) :=
                            {| waiting := false; tag := tag d;
                               timestamp := timestamp d |}]> (sentPackets s)).
      { unfold onAckReceived. rewrite Hd, Hw.
        match goal with
        | |- context [reportLatency ?x ?s'] =>
            destruct (reportLatency_fields x s') as (-> & _)
        end.
        now destruct (bool_decide (tag d ≠ -1)). }
      rewrite Hring, list_lookup_insert_eq in Hd'
        by (eapply lookup_lt_Some; eauto).
      now injection Hd' as <-.
    + rewrite onAckReceived_idle in Hd' by (intros d0 Hd0; congruence).
      congruence.
  - rewrite onAckReceived_idle in Hd' by (intros d0 Hd0; congruence).
    congruence.
Qed.

End Listeners.

Lemma removeAckListener_removes_first_registration_witness :
  removeAckListener 8%nat chanL = None /\
  removeAckListener 7%nat (addAckListener 8%nat (addAckListener 7%nat chanL))
  = Some (set_ackListeners ([] ++ [7%nat; 8%nat])
            (addAckListener 8%nat (addAckListener 7%nat chanL))) /\
  removeAckListener 8%nat (addAckListener 8%nat chanL) = Some chanL.
Proof.
  destruct (removeAckListener_removes_first_registration 8%nat chanL)
    as (Habsent & _ & Hround).
  assert (Hnin : 8%nat ∉ ackListeners chanL).
  { change (ackListeners chanL) with [7%nat]. intros Hin.
    apply elem_of_cons in Hin as [Hin | Hin]; [discriminate Hin|].
    now apply elem_of_nil in Hin. }
  split; [exact (Habsent Hnin)|]. split; [|exact (Hround Hnin)].
  destruct (removeAckListener_removes_first_registration 7%nat
              (addAckListener 8%nat (addAckListener 7%nat chanL)))
    as (_ & Hfirst & _).
  apply (Hfirst [] [7%nat; 8%nat]); [reflexivity|]. apply not_elem_of_nil.
Defined.


Section AckWindow.
Context {C : Type} `{IConnection C} `{FloatOps}.
Implicit Types s : ReliableConnection.t C.

(** X8: on a well-formed channel [onSeqReceived] returns for every 16-bit
    sequence, whatever the flag and [resendOf]: its clearing loop ends
    within [BUFFER_SIZE] passes; and the channel it leaves is well-formed
    again (16-bit counters, rings of [BUFFER_SIZE] entries). *)
Theorem onSeqReceived_returns_well_formed (seq : Z) (isResend : bool)
  (resendOf : Z) s :
  wf s -> 0 <= seq < 65536 ->
  exists (fresh : bool) s',
    onSeqReceived seq isResend resendOf s = Some (fresh, s') /\ wf s'.
Proof. apply onSeqReceived_wf. Qed.

Lemma generateAckBits_bits (j : Z) s :
  0 <= j ->
  Z.testbit (generateAckBits s) j
  = (j <? 32)
    && Z.testbit
         (slot (receivedSeqs s)
               (wrap16 (highestReceived s - 1 - j) mod BUFFER_SIZE)) 0.
Proof.
  intros Hj. unfold generateAckBits.
  now rewrite generateAckBits_fold_testbit by lia.
Qed.

(** X9: a first-time sub-packet that arrives late, [d] sequences behind
    [highestReceived] with [1 <= d <= 32], is accepted without moving
    [highestReceived], and the ACK bits generated from then on are the
    former ones with bit [d - 1] set. *)
Theorem late_arrival_sets_its_ack_bit (seq resendOf : Z) s :
  wf s -> 0 <= seq < 65536 ->
  1 <= wrap16 (highestReceived s - seq) <= 32 ->
  slot (receivedSeqs s) (seq mod BUFFER_SIZE) = 0 ->
  exists s',
    onSeqReceived seq false resendOf s = Some (true, s') /\
    highestReceived s' = highestReceived s /\
    generateAckBits s'
    = Z.setbit (generateAckBits s) (wrap16 (highestReceived s - seq) - 1).
Proof.
  intros (_ & Hhr & Hlen & _) Hseq Hd Hfresh.
  assert (Hb : 0 <= seq mod BUFFER_SIZE < BUFFER_SIZE)
    by (apply Z.mod_pos_bound; reflexivity).
  assert (Hr : 0 <= resendOf mod BUFFER_SIZE < BUFFER_SIZE)
    by (apply Z.mod_pos_bound; reflexivity).
  rewrite onSeqReceived_no_advance
    by (right; revert Hd; unfold wrap16; Z.div_mod_to_equations; lia).
  destruct (markReceived_fresh (seq mod BUFFER_SIZE) false
              (resendOf mod BUFFER_SIZE) s Hlen Hb Hr Hfresh)
    as (r2 & Hmark & _ & Hslots); [discriminate|].
  exists (set_receivedSeqs r2 s). rewrite Hmark.
  split; [reflexivity|]. split; [reflexivity|].
  apply Z.bits_inj'. intros n Hn.
  rewrite Z.setbit_eqb by lia. rewrite !generateAckBits_bits by lia.
  cbn [highestReceived receivedSeqs set_receivedSeqs].
  assert (Hidx : 0 <= wrap16 (highestReceived s - 1 - n) mod BUFFER_SIZE
                 < BUFFER_SIZE) by (apply Z.mod_pos_bound; reflexivity).
  rewrite (Hslots _ Hidx). cbn [andb]. rewrite Z.lor_0_r.
  destruct (Z.eqb_spec (wrap16 (highestReceived s - seq) - 1) n) as [Hn' | Hn'].
  - assert ((n <? 32) = true) as -> by (apply Z.ltb_lt; lia).
    assert ((wrap16 (highestReceived s - 1 - n) mod BUFFER_SIZE
             =? seq mod BUFFER_SIZE) = true) as ->.
    { apply Z.eqb_eq. subst n. revert Hd. unfold wrap16, BUFFER_SIZE.
      Z.div_mod_to_equations. lia. }
    rewrite Z.lor_spec. cbn. now rewrite orb_true_r.
  - destruct (Z.ltb_spec n 32) as [Hlt | Hge]; [|reflexivity].
    assert ((wrap16 (highestReceived s - 1 - n) mod BUFFER_SIZE
             =? seq mod BUFFER_SIZE) = false) as ->.
    { apply Z.eqb_neq. revert Hd Hn'. unfold wrap16, BUFFER_SIZE.
      Z.div_mod_to_equations. lia. }
    now rewrite Z.lor_0_r.
Qed.

Lemma onSeqReceived_keeps_history (seq resendOf : Z) s :
  length (receivedSeqs s) = Z.to_nat BUFFER_SIZE ->
  0 < wrap16 (seq - highestReceived s) < 0x8000 ->
  wrap16 (seq - highestReceived s) <= BUFFER_SIZE - 32 ->
  exists (fresh : bool) s',
    onSeqReceived seq false resendOf s = Some (fresh, s') /\
    highestReceived s' = seq /\
    forall j, wrap16 (seq - highestReceived s) <= j <= BUFFER_SIZE / 2 ->
      slot (receivedSeqs s') ((seq - j) mod BUFFER_SIZE)
      = slot (receivedSeqs s) ((seq - j) mod BUFFER_SIZE).
Proof.
  intros Hlen Hd Hfit.
  destruct (onSeqReceived_advances seq false resendOf s Hlen Hd Hfit)
    as (s1 & _ & Hrun & Hhr1 & Hlen1 & Hslots1).
  assert (Hkept : forall j,
             wrap16 (seq - highestReceived s) <= j <= BUFFER_SIZE / 2 ->
             slot (receivedSeqs s1) ((seq - j) mod BUFFER_SIZE)
             = slot (receivedSeqs s) ((seq - j) mod BUFFER_SIZE)).
  { intros j Hj. rewrite Hslots1 by (apply Z.mod_pos_bound; reflexivity).
    destruct (decide _) as [Hin | _]; [|reflexivity].
    exfalso. apply elem_of_clearedSlots in Hin;
      [| apply Z.mod_pos_bound; reflexivity..].
    revert Hin Hj Hd Hfit. unfold wrap16, BUFFER_SIZE.
    change (1024 / 2) with 512. Z.div_mod_to_equations. lia. }
  assert (Hb : 0 <= seq mod BUFFER_SIZE < BUFFER_SIZE)
    by (apply Z.mod_pos_bound; reflexivity).
  assert (Hr : 0 <= resendOf mod BUFFER_SIZE < BUFFER_SIZE)
    by (apply Z.mod_pos_bound; reflexivity).
  rewrite Hrun.
  destruct (Z.eq_dec (slot (receivedSeqs s1) (seq mod BUFFER_SIZE)) 0)
    as [Hfresh | Hdup].
  - destruct (markReceived_fresh (seq mod BUFFER_SIZE) false
                (resendOf mod BUFFER_SIZE) s1 Hlen1 Hb Hr Hfresh)
      as (r2 & Hmark & _ & Hslots); [discriminate|].
    exists true, (set_receivedSeqs r2 s1). rewrite Hmark.
    split; [reflexivity|]. split; [exact Hhr1|].
    intros j Hj. cbn [receivedSeqs set_receivedSeqs].
    rewrite Hslots by (apply Z.mod_pos_bound; reflexivity).
    cbn [andb]. rewrite Z.lor_0_r.
    assert (((seq - j) mod BUFFER_SIZE =? seq mod BUFFER_SIZE) = false) as ->.
    { apply Z.eqb_neq. revert Hj Hd. unfold wrap16, BUFFER_SIZE.
      change (1024 / 2) with 512. Z.div_mod_to_equations. lia. }
    rewrite Z.lor_0_r. now apply Hkept.
  - exists false, s1. rewrite markReceived_duplicate by (left; exact Hdup).
    split; [reflexivity|]. split; [exact Hhr1|]. exact Hkept.
Qed.

(** X10: when a first-time sub-packet moves [highestReceived] ahead by
    [diff] (at most [BUFFER_SIZE - 32]), the marks of the sequences from the
    former [highestReceived] down to 512 below the new one are kept, so the
    window of ACK bits moves with it: bit [i] of the new ACK bits is bit
    [i - diff] of the former ones for [diff <= i < 32], and bit [diff - 1]
    tells whether the former [highestReceived] had been received. *)
Theorem advance_shifts_ack_window (seq resendOf : Z) s :
  wf s -> 0 <= seq < 65536 ->
  0 < wrap16 (seq - highestReceived s) < 0x8000 ->
  wrap16 (seq - highestReceived s) <= BUFFER_SIZE - 32 ->
  exists (fresh : bool) s',
    onSeqReceived seq false resendOf s = Some (fresh, s') /\
    highestReceived s' = seq /\
    (forall j, wrap16 (seq - highestReceived s) <= j <= BUFFER_SIZE / 2 ->
       slot (receivedSeqs s') ((seq - j) mod BUFFER_SIZE)
       = slot (receivedSeqs s) ((seq - j) mod BUFFER_SIZE)) /\
    (forall i, wrap16 (seq - highestReceived s) <= i < 32 ->
       Z.testbit (generateAckBits s') i
       = Z.testbit (generateAckBits s)
                   (i - wrap16 (seq - highestReceived s))) /\
    (wrap16 (seq - highestReceived s) <= 32 ->
     Z.testbit (generateAckBits s') (wrap16 (seq - highestReceived s) - 1)
     = Z.testbit (slot (receivedSeqs s)
                       (highestReceived s mod BUFFER_SIZE)) 0).
Proof.
  intros (_ & Hhr & Hlen & _) Hseq Hd Hfit.
  destruct (onSeqReceived_keeps_history seq resendOf s Hlen Hd Hfit)
    as (fresh & s' & Hrun & Hhr' & Hkept).
  exists fresh, s'. split; [exact Hrun|]. split; [exact Hhr'|].
  split; [exact Hkept|]. split.
  - intros i Hi. rewrite !generateAckBits_bits by lia.
    assert ((i <? 32) = true) as -> by (apply Z.ltb_lt; lia).
    assert ((i - wrap16 (seq - highestReceived s) <? 32) = true) as ->
      by (apply Z.ltb_lt; lia).
    cbn [andb]. rewrite Hhr', !wrap16_mod_BUFFER_SIZE.
    replace (seq - 1 - i) with (seq - (i + 1)) by lia.
    rewrite Hkept by (change (BUFFER_SIZE / 2) with 512; lia).
    do 2 f_equal. revert Hi Hd. unfold wrap16, BUFFER_SIZE.
    Z.div_mod_to_equations. lia.
  - intros Hd32. rewrite generateAckBits_bits by lia.
    assert ((wrap16 (seq - highestReceived s) - 1 <? 32) = true) as ->
      by (apply Z.ltb_lt; lia).
    cbn [andb]. rewrite Hhr', wrap16_mod_BUFFER_SIZE.
    replace (seq - 1 - (wrap16 (seq - highestReceived s) - 1))
      with (seq - wrap16 (seq - highestReceived s)) by lia.
    rewrite Hkept by (change (BUFFER_SIZE / 2) with 512; lia).
    do 2 f_equal. revert Hd. unfold wrap16, BUFFER_SIZE.
    Z.div_mod_to_equations. lia.
Qed.

End AckWindow.

Lemma chanB_wf : wf chanB.
Proof. vm_compute. repeat split; congruence. Qed.

Lemma onSeqReceived_returns_well_formed_witness :
  wf chanB /\ 0 <= 9 < 65536 /\
  exists (fresh : bool) s', onSeqReceived 9 true 3 chanB = Some (fresh, s').
Proof.
  split; [exact chanB_wf|]. split; [lia|].
  destruct (onSeqReceived_returns_well_formed 9 true 3 chanB chanB_wf)
    as (fresh & s' & Hrun & _); [lia|].
  now exists fresh, s'.
Defined.

Lemma late_arrival_sets_its_ack_bit_witness :
  1 <= wrap16 (highestReceived chanB - 2) <= 32 /\
  slot (receivedSeqs chanB) (2 mod BUFFER_SIZE) = 0 /\
  generateAckBits chanB = 3 /\
  exists s',
    onSeqReceived 2 false 0 chanB = Some (true, s') /\
    generateAckBits s' = Z.setbit 3 2.
Proof.
  assert (Hd : 1 <= wrap16 (highestReceived chanB - 2) <= 32)
    by (vm_compute; split; discriminate).
  assert (Hs : slot (receivedSeqs chanB) (2 mod BUFFER_SIZE) = 0)
    by reflexivity.
  split; [exact Hd|]. split; [exact Hs|]. split; [reflexivity|].
  destruct (late_arrival_sets_its_ack_bit 2 0 chanB chanB_wf) as
    (s' & Hrun & _ & Hbits); [lia | exact Hd | exact Hs |].
  exists s'. split; [exact Hrun|]. exact Hbits.
Defined.

Lemma advance_shifts_ack_window_witness :
  0 < wrap16 (7 - highestReceived chanB) < 0x8000 /\
  wrap16 (7 - highestReceived chanB) <= BUFFER_SIZE - 32 /\
  exists (fresh : bool) s',
    onSeqReceived 7 false 0 chanB = Some (fresh, s') /\
    highestReceived s' = 7 /\
    Z.testbit (generateAckBits s') 2 = Z.testbit (generateAckBits chanB) 0 /\
    Z.testbit (generateAckBits s') 1
    = Z.testbit (slot (receivedSeqs chanB)
                      (highestReceived chanB mod BUFFER_SIZE)) 0.
Proof.
  assert (Hd : 0 < wrap16 (7 - highestReceived chanB) < 0x8000)
    by (vm_compute; split; reflexivity).
  assert (Hfit : wrap16 (7 - highestReceived chanB) <= BUFFER_SIZE - 32)
    by (vm_compute; discriminate).
  split; [exact Hd|]. split; [exact Hfit|].
  destruct (advance_shifts_ack_window 7 0 chanB chanB_wf) as
    (fresh & s' & Hrun & Hhr & _ & Hshift & Hlast);
    [lia | exact Hd | exact Hfit |].
  exists fresh, s'. split; [exact Hrun|]. split; [exact Hhr|]. split.
  - apply (Hshift 2). vm_compute. split; [discriminate | reflexivity].
  - apply Hlast. vm_compute. discriminate.
Defined.

(** *** Datagrams: what is sent is what is read *)

Lemma lor_low_byte (a b : Z) :
  0 <= a < 256 -> Z.lor a (Z.shiftl b 8) = a + 256 * b.
Proof.
  intros Ha.
  assert (Hdisj : Z.land a (Z.shiftl b 8) = 0).
  { apply Z.bits_inj'. intros n Hn. rewrite Z.land_spec, Z.bits_0.
    destruct (Z.lt_ge_cases n 8).
    - rewrite Z.shiftl_spec_low by lia. apply andb_false_r.
    - rewrite (testbit_small a 8 n) by (cbn; lia). reflexivity. }
  rewrite <- Z.lxor_lor, <- Z.add_nocarry_lxor by exact Hdisj.
  rewrite Z.shiftl_mul_pow2 by lia. change (2 ^ 8) with 256. lia.
Qed.

Lemma fromLE_cons (b : Z) (rest : list Z) :
  isByte b -> fromLE (b :: rest) = b + 256 * fromLE rest.
Proof. intros Hb. cbn [fromLE]. now apply lor_low_byte. Qed.

Lemma land_255_byte (z : Z) : isByte (Z.land z 255).
Proof.
  unfold isByte. change 255 with (Z.ones 8). rewrite Z.land_ones by lia.
  apply Z.mod_pos_bound. reflexivity.
Qed.

Lemma fromLE_le16 (z : Z) : 0 <= z < 65536 -> fromLE (le16 z) = z.
Proof.
  intros Hz. unfold le16.
  rewrite !fromLE_cons by apply land_255_byte. cbn [fromLE].
  change 255 with (Z.ones 8). rewrite !Z.land_ones, !Z.shiftr_div_pow2 by lia.
  change (2 ^ 8) with 256. Z.div_mod_to_equations. lia.
Qed.

Lemma fromLE_le32 (z : Z) : 0 <= z < 4294967296 -> fromLE (le32 z) = z.
Proof.
  intros Hz. unfold le32.
  rewrite !fromLE_cons by apply land_255_byte. cbn [fromLE].
  change 255 with (Z.ones 8). rewrite !Z.land_ones, !Z.shiftr_div_pow2 by lia.
  change (2 ^ 8) with 256. change (2 ^ 16) with 65536.
  change (2 ^ 24) with 16777216. Z.div_mod_to_equations. lia.
Qed.

Lemma fromLE_two_bytes (bs : list Z) :
  Forall isByte bs -> (length bs <= 2)%nat -> 0 <= fromLE bs < 65536.
Proof.
  intros Hb Hlen. destruct bs as [|a [|b [|c bs]]]; cbn [length] in Hlen;
    [cbn; lia | | | lia].
  - apply Forall_cons in Hb as [Ha _]. rewrite fromLE_cons by exact Ha.
    unfold isByte in Ha. cbn [fromLE]. lia.
  - apply Forall_cons in Hb as [Ha Hb]. apply Forall_cons in Hb as [Hb _].
    rewrite !fromLE_cons by assumption. unfold isByte in *. cbn [fromLE]. lia.
Qed.

Section Datagrams.
Context {C : Type} `{IConnection C} `{FloatOps}.
Implicit Types s r : ReliableConnection.t C.

Lemma generateAckBits_range s : 0 <= generateAckBits s < 4294967296.
Proof.
  assert (Hmod : generateAckBits s = generateAckBits s mod 2 ^ 32).
  { apply Z.bits_inj'. intros n Hn.
    rewrite Z.testbit_mod_pow2 by lia. rewrite generateAckBits_bits by lia.
    now destruct (n <? 32). }
  rewrite Hmod. apply Z.mod_pos_bound. reflexivity.
Qed.

Lemma subPacketLoop_nil (fuel : nat) (seq : Z) s :
  subPacketLoop fuel [] seq s = Returned s.
Proof. now destruct fuel. Qed.

Lemma processReceivedPacket_split (header rest : list Z) (now : Z) s :
  length header = 8%nat ->
  processReceivedPacket (header ++ rest) now s
  = subPacketLoop (length rest) rest (fromLE (take 2 header))
      (processReceivedAcks (fromLE (take 2 (drop 2 header)))
                           (fromLE (drop 4 header)) now s).
Proof.
  intros Hlen. unfold processReceivedPacket, extractHeader.
  rewrite <- Hlen.
  rewrite decide_True by (rewrite length_app; lia).
  now rewrite take_app_length, drop_app_length.
Qed.

Lemma short_payload_processed (payload : OutboundNetworkPacket)
  (tg now now' : Z) s r :
  wf s -> 0 <= tg -> (length payload < 64)%nat ->
  exists s',
    sendTagged payload tg now s = Some s' /\
    parent s'
    = conn_send (le16 (sequenceSent s) ++ le16 (highestReceived s)
                 ++ le32 (generateAckBits s) ++ [getSize payload] ++ payload)
                (parent s) /\
    processReceivedPacket
      (le16 (sequenceSent s) ++ le16 (highestReceived s)
       ++ le32 (generateAckBits s) ++ [getSize payload] ++ payload) now' r
    = match onSeqReceived (sequenceSent s) false 0
              (processReceivedAcks (highestReceived s) (generateAckBits s)
                                   now' r) with
      | Some (true, r') =>
          Returned (set_pendingPackets (pendingPackets r' ++ [payload]) r')
      | Some (false, r') => Returned r'
      | None => Unfinished
      end.
Proof.
  intros (Hss & Hhr & _ & _) Htg Hlen.
  assert (Hsize : 0 <= getSize payload < 64) by (unfold getSize; lia).
  destruct (subheader_roundtrip_short (getSize payload) payload Hsize)
    as [Henc Hdec].
  destruct (sendTagged_fields payload tg now s Htg) as (s' & Hsend & _).
  exists s'. split; [exact Hsend|]. split.
  { rewrite (sendTagged_wire payload tg now s s' Hsend). now rewrite Henc. }
  change (le16 (sequenceSent s) ++ le16 (highestReceived s)
          ++ le32 (generateAckBits s) ++ [getSize payload] ++ payload)
    with ((le16 (sequenceSent s) ++ le16 (highestReceived s)
           ++ le32 (generateAckBits s)) ++ getSize payload :: payload).
  rewrite processReceivedPacket_split by reflexivity.
  change (take 2 (le16 (sequenceSent s) ++ le16 (highestReceived s)
                  ++ le32 (generateAckBits s)))
    with (le16 (sequenceSent s)).
  change (take 2 (drop 2 (le16 (sequenceSent s) ++ le16 (highestReceived s)
                          ++ le32 (generateAckBits s))))
    with (le16 (highestReceived s)).
  change (drop 4 (le16 (sequenceSent s) ++ le16 (highestReceived s)
                  ++ le32 (generateAckBits s)))
    with (le32 (generateAckBits s)).
  rewrite !fromLE_le16 by assumption.
  rewrite fromLE_le32 by apply generateAckBits_range.
  rewrite Henc in Hdec. cbn [app] in Hdec.
  cbn [length subPacketLoop].
  assert ((0 <? getSize (getSize payload :: payload)) = true) as ->
    by (apply Z.ltb_lt; unfold getSize; cbn [length]; lia).
  rewrite Hdec. cbn [sub_size sub_resend sub_resendOf].
  assert ((2048 <? getSize payload) = false) as -> by (apply Z.ltb_ge; lia).
  rewrite Z.ltb_irrefl. cbn [orb].
  unfold getSize at 1 2. rewrite Nat2Z.id, firstn_all, drop_all.
  destruct (onSeqReceived _ _ _ _) as [[[|] r']|]; [| |reflexivity];
    now rewrite subPacketLoop_nil.
Qed.

(** X11: a payload of fewer than 64 bytes sent by [sendTagged] from a
    well-formed channel reaches the parent as the 8 header bytes, one size
    byte and the payload; a receiver that processes this datagram handles
    the sender's [highestReceived] and ACK bits as its ACK, then the
    sender's sequence number as a first-time sub-packet, and, if
    [onSeqReceived] accepts it, queues exactly the payload for delivery. *)
Theorem short_payload_is_framed_and_read_back (payload : OutboundNetworkPacket)
  (tg now now' : Z) s r :
  wf s -> 0 <= tg -> (length payload < 64)%nat ->
  exists s',
    sendTagged payload tg now s = Some s' /\
    parent s'
    = conn_send (le16 (sequenceSent s) ++ le16 (highestReceived s)
                 ++ le32 (generateAckBits s) ++ [getSize payload] ++ payload)
                (parent s) /\
    processReceivedPacket
      (le16 (sequenceSent s) ++ le16 (highestReceived s)
       ++ le32 (generateAckBits s) ++ [getSize payload] ++ payload) now' r
    = match onSeqReceived (sequenceSent s) false 0
              (processReceivedAcks (highestReceived s) (generateAckBits s)
                                   now' r) with
      | Some (true, r') =>
          Returned (set_pendingPackets (pendingPackets r' ++ [payload]) r')
      | Some (false, r') => Returned r'
      | None => Unfinished
      end.
Proof. apply short_payload_processed. Qed.

End Datagrams.

Lemma short_payload_is_framed_and_read_back_witness :
  exists s',
    sendTagged [1; 2; 3] 4 9 chanA = Some s' /\
    processReceivedPacket [3; 0; 255; 255; 0; 0; 0; 0; 3; 1; 2; 3] 10 chanB
    = match onSeqReceived (sequenceSent chanA) false 0
              (processReceivedAcks (highestReceived chanA)
                                   (generateAckBits chanA) 10 chanB) with
      | Some (true, r') =>
          Returned (set_pendingPackets (pendingPackets r' ++ [[1; 2; 3]]) r')
      | Some (false, r') => Returned r'
      | None => Unfinished
      end.
Proof.
  assert (HwfA : wf chanA) by (vm_compute; repeat split; congruence).
  destruct (short_payload_is_framed_and_read_back [1; 2; 3] 4 9 10
              chanA chanB HwfA) as (s' & Hsend & _ & Hread);
    [lia | cbn; lia |].
  exists s'. split; [exact Hsend|]. exact Hread.
Defined.

(** *** Inbound datagrams: the loop ends, the channel stays well-formed *)

Lemma decodeSubHeader_consumes (packet rest : InboundNetworkPacket)
  (h : SubHeader) :
  decodeSubHeader packet = Return (h, rest) ->
  (length rest < length packet)%nat.
Proof.
  unfold decodeSubHeader. destruct packet as [|sizeA packet]; [discriminate|].
  cbn [extractByte except_bind].
  destruct (negb (Z.land sizeA 64 =? 0)).
  - destruct packet as [|sizeB packet]; [discriminate|].
    cbn [extractByte except_bind].
    destruct (negb (Z.land sizeA 128 =? 0)).
    + destruct (getSize packet <? 2); [discriminate|].
      cbn [except_bind]. intros [= _ <-]. rewrite length_drop. cbn [length]. lia.
    + cbn [except_bind]. intros [= _ <-]. cbn [length]. lia.
  - cbn [except_bind]. destruct (negb (Z.land sizeA 128 =? 0)).
    + destruct (getSize packet <? 2); [discriminate|].
      cbn [except_bind]. intros [= _ <-]. rewrite length_drop. cbn [length]. lia.
    + cbn [except_bind]. intros [= _ <-]. cbn [length]. lia.
Qed.

Section Inbound.
Context {C : Type} `{IConnection C} `{FloatOps}.
Implicit Types s : ReliableConnection.t C.

Lemma inboundEffect_refl s : wf s -> inboundEffect s s.
Proof.
  intros Hwf. split; [exact Hwf|]. split; [reflexivity|].
  split; [now exists 0%nat|]. exists []. now rewrite app_nil_r.
Qed.

Lemma inboundEffect_trans s1 s2 s3 :
  inboundEffect s1 s2 -> inboundEffect s2 s3 -> inboundEffect s1 s3.
Proof.
  intros (_ & Hss1 & [k1 Hp1] & new1 & Hq1 & Hn1)
         (Hwf & Hss2 & [k2 Hp2] & new2 & Hq2 & Hn2).
  split; [exact Hwf|]. split; [congruence|]. split.
  - exists (k2 + k1)%nat. rewrite Hp2, Hp1. now rewrite Nat.iter_add.
  - exists (new1 ++ new2). rewrite Hq2, Hq1, app_assoc. split; [reflexivity|].
    now apply Forall_app.
Qed.

Lemma onAckReceived_inbound (sequence now : Z) s :
  wf s ->
  inboundEffect s (onAckReceived sequence now s) /\
  parent (onAckReceived sequence now s) = parent s /\
  pendingPackets (onAckReceived sequence now s) = pendingPackets s /\
  receivedSeqs (onAckReceived sequence now s) = receivedSeqs s /\
  highestReceived (onAckReceived sequence now s) = highestReceived s.
Proof.
  intros Hwf.
  assert (Hframe :
            parent (onAckReceived sequence now s) = parent s /\
            pendingPackets (onAckReceived sequence now s) = pendingPackets s /\
            receivedSeqs (onAckReceived sequence now s) = receivedSeqs s /\
            highestReceived (onAckReceived sequence now s)
            = highestReceived s).
  { unfold onAckReceived.
    destruct (sentPackets s !! Z.to_nat (sequence mod BUFFER_SIZE)) as [d|];
      [|now repeat split].
    destruct (waiting d); [|now repeat split].
    unfold reportLatency.
    destruct (bool_decide (tag d ≠ -1)); destruct (fabs_lt_eps _);
      now repeat split. }
  split; [|exact Hframe]. destruct Hframe as (Hp & Hq & _).
  split; [now apply onAckReceived_wf|].
  split; [apply onAckReceived_sequenceSent|].
  split; [exists 0%nat; exact Hp|]. exists []. now rewrite app_nil_r.
Qed.

Lemma processReceivedAcks_inbound (ack ackBits now : Z) s :
  wf s ->
  inboundEffect s (processReceivedAcks ack ackBits now s) /\
  parent (processReceivedAcks ack ackBits now s) = parent s /\
  pendingPackets (processReceivedAcks ack ackBits now s) = pendingPackets s /\
  receivedSeqs (processReceivedAcks ack ackBits now s) = receivedSeqs s /\
  highestReceived (processReceivedAcks ack ackBits now s)
  = highestReceived s.
Proof.
  intros Hwf.
  destruct (Z.le_gt_cases (wrap16 (sequenceSent s - ack)) 512) as [Hd | Hd].
  - rewrite (proj2 (processReceivedAcks_cases ack ackBits now s) Hd).
    clear Hd. generalize (ackOrder ack ackBits). intros l.
    assert (Hgen : forall s0,
               wf s0 ->
               inboundEffect s0 (fold_left (fun s q => onAckReceived q now s)
                                           l s0) /\
               parent (fold_left (fun s q => onAckReceived q now s) l s0)
               = parent s0 /\
               pendingPackets (fold_left (fun s q => onAckReceived q now s)
                                         l s0) = pendingPackets s0 /\
               receivedSeqs (fold_left (fun s q => onAckReceived q now s)
                                       l s0) = receivedSeqs s0 /\
               highestReceived (fold_left (fun s q => onAckReceived q now s)
                                          l s0) = highestReceived s0).
    { induction l as [|q l IH]; intros s0 Hwf0.
      - split; [now apply inboundEffect_refl | now repeat split].
      - cbn [fold_left].
        destruct (onAckReceived_inbound q now s0 Hwf0)
          as (He & Hp & Hq & Hr & Hh).
        destruct (IH (onAckReceived q now s0) (proj1 He))
          as (He' & Hp' & Hq' & Hr' & Hh').
        split; [eapply inboundEffect_trans; eauto|].
        repeat split; congruence. }
    now apply Hgen.
  - rewrite (proj1 (processReceivedAcks_cases ack ackBits now s) Hd).
    split; [now apply inboundEffect_refl | now repeat split].
Qed.

Lemma onSeqReceived_inbound (seq : Z) (isResend : bool) (resendOf : Z) s :
  wf s -> 0 <= seq < 65536 ->
  exists (fresh : bool) s',
    onSeqReceived seq isResend resendOf s = Some (fresh, s') /\
    wf s' /\
    sequenceSent s' = sequenceSent s /\
    pendingPackets s' = pendingPackets s /\
    (parent s' = parent s
     \/ (fresh = false /\ parent s' = conn_close (parent s))).
Proof.
  intros Hwf Hseq.
  destruct (onSeqReceived_wf seq isResend resendOf s Hwf Hseq)
    as (fresh & s' & Hrun & Hwf').
  exists fresh, s'. split; [exact Hrun|]. split; [exact Hwf'|].
  revert Hrun. unfold onSeqReceived, advance, markReceived.
  destruct (negb _ && _).
  - destruct (_ <? _).
    + intros [= <- <-]. split; [reflexivity|]. split; [reflexivity|].
      right. now split.
    + destruct (clearLoop _ _ _ _); [|discriminate].
      cbn [receivedSeqs set_highestReceived set_receivedSeqs].
      destruct (_ || _); intros [= <- <-]; repeat split; now left.
  - destruct (_ || _); intros [= <- <-]; repeat split; now left.
Qed.

Lemma subPacketLoop_inbound (fuel : nat) :
  forall (packet : InboundNetworkPacket) (seq : Z) s,
    (length packet <= fuel)%nat -> wf s -> 0 <= seq < 65536 ->
    exists s',
      (subPacketLoop fuel packet seq s = Returned s'
       \/ exists msg, subPacketLoop fuel packet seq s = Thrown msg s') /\
      inboundEffect s s'.
Proof.
  induction fuel as [|fuel IH]; intros packet seq s Hlen Hwf Hseq.
  - destruct packet; [|cbn [length] in Hlen; lia].
    exists s. split; [now left | now apply inboundEffect_refl].
  - destruct packet as [|b packet].
    { exists s. split; [now left | now apply inboundEffect_refl]. }
    cbn [subPacketLoop].
    assert ((0 <? getSize (b :: packet)) = true) as ->
      by (apply Z.ltb_lt; unfold getSize; cbn [length]; lia).
    destruct (decodeSubHeader (b :: packet)) as [[h rest]|msg] eqn:Hdec.
    2:{ exists s. split; [right; now exists msg|].
        now apply inboundEffect_refl. }
    apply decodeSubHeader_consumes in Hdec.
    destruct ((2048 <? sub_size h) || (getSize rest <? sub_size h)) eqn:Hsz.
    { exists s. split; [right; now eexists|]. now apply inboundEffect_refl. }
    apply orb_false_elim in Hsz as [Hsz _]. apply Z.ltb_ge in Hsz.
    destruct (onSeqReceived_inbound seq (sub_resend h) (sub_resendOf h) s
                Hwf Hseq) as (fresh & s1 & Hrun & Hwf1 & Hss1 & Hq1 & Hp1).
    rewrite Hrun.
    set (s2 := if fresh
               then set_pendingPackets
                      (pendingPackets s1
                       ++ [take (Z.to_nat (sub_size h)) rest]) s1
               else s1).
    assert (He2 : inboundEffect s s2).
    { split; [|split; [|split]].
      - unfold s2. destruct fresh; [|exact Hwf1].
        destruct Hwf1 as (? & ? & ? & ?). now repeat split.
      - unfold s2. now destruct fresh.
      - destruct Hp1 as [Hp1 | [_ Hp1]].
        + exists 0%nat. unfold s2. now destruct fresh.
        + exists 1%nat. unfold s2. now destruct fresh.
      - unfold s2. destruct fresh.
        + exists [take (Z.to_nat (sub_size h)) rest].
          cbn [pendingPackets set_pendingPackets]. rewrite Hq1.
          split; [reflexivity|]. constructor; [|constructor].
          rewrite length_take. lia.
        + exists []. rewrite app_nil_r. now split. }
    destruct (IH (drop (Z.to_nat (sub_size h)) rest) (wrap16 (seq + 1)) s2)
      as (s' & Hend & He').
    + rewrite length_drop. cbn [length] in Hlen, Hdec. lia.
    + exact (proj1 He2).
    + apply Z.mod_pos_bound. lia.
    + exists s'. split; [exact Hend|].
      eapply inboundEffect_trans; eauto.
Qed.

Lemma processReceivedPacket_inbound (packet : InboundNetworkPacket)
  (now : Z) s :
  wf s -> Forall isByte packet -> (8 <= length packet)%nat ->
  exists s',
    (processReceivedPacket packet now s = Returned s'
     \/ exists msg, processReceivedPacket packet now s = Thrown msg s') /\
    inboundEffect s s'.
Proof.
  intros Hwf Hbytes Hlen. unfold processReceivedPacket, extractHeader.
  rewrite decide_True by exact Hlen.
  destruct (processReceivedAcks_inbound
              (fromLE (take 2 (drop 2 (take 8 packet))))
              (fromLE (drop 4 (take 8 packet))) now s Hwf) as (He1 & _).
  destruct (subPacketLoop_inbound (length (drop 8 packet)) (drop 8 packet)
              (fromLE (take 2 (take 8 packet)))
              (processReceivedAcks
                 (fromLE (take 2 (drop 2 (take 8 packet))))
                 (fromLE (drop 4 (take 8 packet))) now s))
    as (s' & Hend & He').
  - lia.
  - exact (proj1 He1).
  - apply fromLE_two_bytes.
    + now do 2 apply Forall_take.
    + rewrite length_take. lia.
  - exists s'. split; [exact Hend|]. eapply inboundEffect_trans; eauto.
Qed.


(** X13: a datagram cut short inside its first sub-packet is refused with
    an exception, but only after its ACK fields have been processed: the
    channel is left as [processReceivedAcks] leaves it, with nothing
    delivered.  This is so when the size byte has the long-size bit and no
    byte follows, and when a one-byte sub-header without the resend bit
    gives a size larger than the number of bytes left. *)
Theorem truncated_subpacket_throws_after_acks (header rest : list Z)
  (b now : Z) s :
  length header = 8%nat ->
  (Z.land b 0x40 <> 0 ->
   processReceivedPacket (header ++ [b]) now s
   = Thrown "Sub-packet header incomplete."
       (processReceivedAcks (fromLE (take 2 (drop 2 header)))
                            (fromLE (drop 4 header)) now s)) /\
  (Z.land b 0x40 = 0 -> Z.land b 0x80 = 0 ->
   getSize rest < Z.land b 0x3F ->
   processReceivedPacket (header ++ b :: rest) now s
   = Thrown "Unexpected sub-packet size"
       (processReceivedAcks (fromLE (take 2 (drop 2 header)))
                            (fromLE (drop 4 header)) now s)).
Proof.
  intros Hlen. split.
  - intros HL. rewrite processReceivedPacket_split by exact Hlen.
    cbn [length subPacketLoop]. change (0 <? getSize [b]) with true.
    unfold decodeSubHeader. cbn [extractByte except_bind].
    apply Z.eqb_neq in HL. rewrite HL. reflexivity.
  - intros HL HR Hshort. rewrite processReceivedPacket_split by exact Hlen.
    cbn [length subPacketLoop].
    assert ((0 <? getSize (b :: rest)) = true) as ->
      by (apply Z.ltb_lt; unfold getSize; cbn [length]; lia).
    unfold decodeSubHeader. cbn [extractByte except_bind].
    rewrite HL, HR. cbn [Z.eqb negb except_bind sub_size].
    apply Z.ltb_lt in Hshort. rewrite Hshort. now rewrite orb_true_r.
Qed.

End Inbound.


Lemma truncated_subpacket_throws_after_acks_witness :
  processReceivedPacket ([2; 0; 2; 0; 3; 0; 0; 0] ++ [5; 1; 2]) 9 chanA
  = Thrown "Unexpected sub-packet size"
      (processReceivedAcks (fromLE (take 2 (drop 2 [2; 0; 2; 0; 3; 0; 0; 0])))
                           (fromLE (drop 4 [2; 0; 2; 0; 3; 0; 0; 0])) 9 chanA) /\
  acked (processReceivedAcks 2 3 9 chanA)
  = [(7%nat, 10); (7%nat, 11); (7%nat, 12)].
Proof.
  split; [|vm_compute; reflexivity].
  apply (proj2 (truncated_subpacket_throws_after_acks
                  [2; 0; 2; 0; 3; 0; 0; 0] [1; 2] 5 9 chanA eq_refl));
    [reflexivity | reflexivity | vm_compute; reflexivity].
Defined.

(** *** A datagram that arrives twice *)

Section Duplicates.
Context {C : Type} `{IConnection C} `{FloatOps}.
Implicit Types s r : ReliableConnection.t C.

Lemma markReceived_marks (bufferPos : Z) (isResend : bool) (resendPos : Z)
  s (fresh : bool) s1 :
  length (receivedSeqs s) = Z.to_nat BUFFER_SIZE ->
  0 <= bufferPos < BUFFER_SIZE -> 0 <= resendPos < BUFFER_SIZE ->
  markReceived bufferPos isResend resendPos s = (fresh, s1) ->
  highestReceived s1 = highestReceived s /\
  (slot (receivedSeqs s1) bufferPos <> 0
   \/ (isResend = true /\ slot (receivedSeqs s1) resendPos <> 0)).
Proof.
  intros Hlen Hb Hr Hrun.
  destruct (Z.eq_dec (slot (receivedSeqs s) bufferPos) 0) as [Hz | Hnz].
  2:{ rewrite markReceived_duplicate in Hrun by auto.
      injection Hrun as <- <-. auto. }
  destruct isResend.
  - destruct (Z.eq_dec (slot (receivedSeqs s) resendPos) 0) as [Hz' | Hnz'].
    2:{ rewrite markReceived_duplicate in Hrun by auto.
        injection Hrun as <- <-. auto. }
    destruct (markReceived_fresh bufferPos true resendPos s Hlen Hb Hr Hz
                (fun _ => Hz')) as (r2 & Hrun2 & _ & Hslots).
    rewrite Hrun2 in Hrun. injection Hrun as <- <-.
    split; [reflexivity|]. left.
    cbn [receivedSeqs set_receivedSeqs]. rewrite (Hslots bufferPos Hb).
    rewrite Hz, Z.eqb_refl. cbn [andb].
    destruct (bufferPos =? resendPos); discriminate.
  - destruct (markReceived_fresh bufferPos false resendPos s Hlen Hb Hr Hz)
      as (r2 & Hrun2 & _ & Hslots); [discriminate|].
    rewrite Hrun2 in Hrun. injection Hrun as <- <-.
    split; [reflexivity|]. left.
    cbn [receivedSeqs set_receivedSeqs]. rewrite (Hslots bufferPos Hb).
    rewrite Hz, Z.eqb_refl. cbn [andb]. discriminate.
Qed.

Lemma onSeqReceived_again_refused (seq : Z) (isResend : bool) (resendOf : Z)
  s (fresh : bool) s1 s1' :
  wf s -> 0 <= seq < 65536 ->
  onSeqReceived seq isResend resendOf s = Some (fresh, s1) ->
  receivedSeqs s1' = receivedSeqs s1 ->
  highestReceived s1' = highestReceived s1 ->
  exists s2,
    onSeqReceived seq isResend resendOf s1' = Some (false, s2) /\
    pendingPackets s2 = pendingPackets s1'.
Proof.
  intros (_ & Hhr & Hlen & _) Hseq Hrun Hrs Hh.
  assert (Hw : 0 <= wrap16 (seq - highestReceived s) < 65536)
    by (apply Z.mod_pos_bound; lia).
  assert (Hb : 0 <= seq mod BUFFER_SIZE < BUFFER_SIZE)
    by (apply Z.mod_pos_bound; reflexivity).
  assert (Hr : 0 <= resendOf mod BUFFER_SIZE < BUFFER_SIZE)
    by (apply Z.mod_pos_bound; reflexivity).
  assert (Hsame : wrap16 (seq - seq) = 0)
    by (rewrite Z.sub_diag; reflexivity).
  destruct (Z.eq_dec (wrap16 (seq - highestReceived s)) 0) as [Hz | Hnz];
    [|destruct (Z.le_gt_cases 0x8000 (wrap16 (seq - highestReceived s)))
        as [Hold | Hnew];
      [|destruct (Z.le_gt_cases (wrap16 (seq - highestReceived s))
                                (BUFFER_SIZE - 32)) as [Hfit | Hfar]]].
  - rewrite onSeqReceived_no_advance in Hrun by auto.
    injection Hrun as Hrun.
    destruct (markReceived_marks _ _ _ _ _ _ Hlen Hb Hr Hrun) as [Hh1 Hm].
    exists s1'. rewrite onSeqReceived_no_advance
      by (rewrite Hh, Hh1; auto).
    rewrite markReceived_duplicate by (rewrite Hrs; exact Hm). auto.
  - rewrite onSeqReceived_no_advance in Hrun by auto.
    injection Hrun as Hrun.
    destruct (markReceived_marks _ _ _ _ _ _ Hlen Hb Hr Hrun) as [Hh1 Hm].
    exists s1'. rewrite onSeqReceived_no_advance
      by (rewrite Hh, Hh1; auto).
    rewrite markReceived_duplicate by (rewrite Hrs; exact Hm). auto.
  - destruct (onSeqReceived_advances seq isResend resendOf s Hlen)
      as (sa & _ & Hrun' & Hha & Hlena & _); [lia | exact Hfit |].
    rewrite Hrun' in Hrun. injection Hrun as Hrun.
    destruct (markReceived_marks _ _ _ _ _ _ Hlena Hb Hr Hrun) as [Hh1 Hm].
    exists s1'. rewrite onSeqReceived_no_advance
      by (rewrite Hh, Hh1, Hha; auto).
    rewrite markReceived_duplicate by (rewrite Hrs; exact Hm). auto.
  - assert (Hclose : forall s0,
               highestReceived s0 = highestReceived s ->
               onSeqReceived seq isResend resendOf s0
               = Some (false, close s0)).
    { intros s0 Hs0. unfold onSeqReceived. rewrite Hs0.
      assert ((wrap16 (seq - highestReceived s) =? 0) = false) as ->
        by (apply Z.eqb_neq; lia).
      assert ((wrap16 (seq - highestReceived s) <? 0x8000) = true) as ->
        by (apply Z.ltb_lt; lia).
      assert ((BUFFER_SIZE - 32 <? wrap16 (seq - highestReceived s)) = true)
        as -> by (apply Z.ltb_lt; lia).
      reflexivity. }
    rewrite (Hclose s eq_refl) in Hrun. injection Hrun as <- <-.
    exists (close s1'). rewrite (Hclose s1' Hh). auto.
Qed.

Lemma duplicated_datagram (payload : OutboundNetworkPacket)
  (tg now now1 now2 : Z) s r :
  wf s -> wf r -> 0 <= tg -> (length payload < 64)%nat ->
  let datagram :=
    le16 (sequenceSent s) ++ le16 (highestReceived s)
    ++ le32 (generateAckBits s) ++ [getSize payload] ++ payload in
  exists s' r1 r2,
    sendTagged payload tg now s = Some s' /\
    parent s' = conn_send datagram (parent s) /\
    processReceivedPacket datagram now1 r = Returned r1 /\
    processReceivedPacket datagram now2 r1 = Returned r2 /\
    (pendingPackets r1 = pendingPackets r
     \/ pendingPackets r1 = pendingPackets r ++ [payload]) /\
    pendingPackets r2 = pendingPackets r1.
Proof.
  intros Hwf Hwfr Htg Hlen datagram.
  destruct (short_payload_processed payload tg now now1 s r Hwf Htg Hlen)
    as (s' & Hsend & Hwire & Hfirst).
  destruct (processReceivedAcks_inbound (highestReceived s)
              (generateAckBits s) now1 r Hwfr)
    as ((Hwfa & _) & _ & Hqa & _ & _).
  destruct (onSeqReceived_inbound (sequenceSent s) false 0 _ Hwfa
              (proj1 Hwf)) as (fresh & ra & Hrun & Hwfra & _ & Hqra & _).
  set (r1 := if fresh
             then set_pendingPackets (pendingPackets ra ++ [payload]) ra
             else ra).
  assert (Hr1 : processReceivedPacket datagram now1 r = Returned r1).
  { subst datagram. rewrite Hfirst, Hrun. unfold r1. now destruct fresh. }
  assert (Hwf1 : wf r1).
  { unfold r1. destruct fresh; [|exact Hwfra].
    destruct Hwfra as (? & ? & ? & ?). now repeat split. }
  assert (Hrs1 : receivedSeqs r1 = receivedSeqs ra)
    by (unfold r1; now destruct fresh).
  assert (Hh1 : highestReceived r1 = highestReceived ra)
    by (unfold r1; now destruct fresh).
  destruct (short_payload_processed payload tg now now2 s r1 Hwf Htg Hlen)
    as (_ & _ & _ & Hsecond).
  destruct (processReceivedAcks_inbound (highestReceived s)
              (generateAckBits s) now2 r1 Hwf1)
    as (_ & _ & Hqb & Hrsb & Hhb).
  destruct (onSeqReceived_again_refused (sequenceSent s) false 0 _ fresh ra
              (processReceivedAcks (highestReceived s) (generateAckBits s)
                                   now2 r1) Hwfa (proj1 Hwf) Hrun)
    as (r2 & Hrun2 & Hq2); [congruence | congruence |].
  exists s', r1, r2. split; [exact Hsend|]. split; [exact Hwire|].
  split; [exact Hr1|]. split.
  { subst datagram. now rewrite Hsecond, Hrun2. }
  split.
  - unfold r1. destruct fresh; cbn [pendingPackets set_pendingPackets].
    + right. now rewrite Hqra, Hqa.
    + left. now rewrite Hqra, Hqa.
  - now rewrite Hq2, Hqb.
Qed.

(** X14: the datagram [sendTagged] makes of a payload of fewer than 64
    bytes can reach a well-formed receiver twice in a row without the
    payload being delivered twice: both times [processReceivedPacket]
    returns, the first adds the payload to the delivery queue or nothing,
    the second adds nothing. *)
Theorem duplicated_datagram_delivered_once (payload : OutboundNetworkPacket)
  (tg now now1 now2 : Z) s r :
  wf s -> wf r -> 0 <= tg -> (length payload < 64)%nat ->
  let datagram :=
    le16 (sequenceSent s) ++ le16 (highestReceived s)
    ++ le32 (generateAckBits s) ++ [getSize payload] ++ payload in
  exists s' r1 r2,
    sendTagged payload tg now s = Some s' /\
    parent s' = conn_send datagram (parent s) /\
    processReceivedPacket datagram now1 r = Returned r1 /\
    processReceivedPacket datagram now2 r1 = Returned r2 /\
    (pendingPackets r1 = pendingPackets r
     \/ pendingPackets r1 = pendingPackets r ++ [payload]) /\
    pendingPackets r2 = pendingPackets r1.
Proof. apply duplicated_datagram. Qed.

End Duplicates.

Lemma duplicated_datagram_delivered_once_witness :
  exists r1 r2,
    processReceivedPacket [3; 0; 255; 255; 0; 0; 0; 0; 3; 1; 2; 3] 10 chanB
    = Returned r1 /\
    processReceivedPacket [3; 0; 255; 255; 0; 0; 0; 0; 3; 1; 2; 3] 11 r1
    = Returned r2 /\
    pendingPackets r2 = pendingPackets r1.
Proof.
  assert (HwfA : wf chanA) by (vm_compute; repeat split; congruence).
  destruct (duplicated_datagram_delivered_once [1; 2; 3] 4 9 10 11
              chanA chanB HwfA chanB_wf ltac:(lia) ltac:(cbn; lia))
    as (_ & r1 & r2 & _ & _ & H1 & H2 & _ & Hq).
  exists r1, r2.
  assert (Hd : le16 (sequenceSent chanA) ++ le16 (highestReceived chanA)
               ++ le32 (generateAckBits chanA) ++ [getSize [1; 2; 3]]
               ++ [1; 2; 3]
               = [3; 0; 255; 255; 0; 0; 0; 0; 3; 1; 2; 3])
    by (vm_compute; reflexivity).
  rewrite Hd in H1, H2. auto.
Defined.

(** *** Sub-packets that arrive in order *)

Lemma sentSequences_wrap (a b : Z) (n : nat) :
  wrap16 a = wrap16 b -> sentSequences a n = sentSequences b n.
Proof.
  intros Hab. unfold sentSequences. apply map_ext. intros k.
  unfold wrap16 in *.
  rewrite <- (Z.add_mod_idemp_l a), <- (Z.add_mod_idemp_l b) by lia.
  now rewrite Hab.
Qed.

Section InOrder.
Context {C : Type} `{IConnection C} `{FloatOps}.
Implicit Types s : ReliableConnection.t C.

Lemma new_windowFree (parent0 : C) (now : Z) : windowFree (new parent0 now).
Proof.
  intros j _. unfold new, slot. cbn [receivedSeqs].
  destruct (replicate _ _ !! _) as [v|] eqn:Hv; [|reflexivity].
  apply lookup_replicate in Hv as [-> _]. reflexivity.
Qed.

Lemma onSeqReceived_next (s : ReliableConnection.t C) :
  wf s -> windowFree s ->
  exists s',
    onSeqReceived (wrap16 (highestReceived s + 1)) false 0 s
    = Some (true, s') /\
    highestReceived s' = wrap16 (highestReceived s + 1) /\
    wf s' /\ windowFree s' /\ parent s' = parent s.
Proof.
  intros Hwf Hfree. pose proof Hwf as (_ & Hhr & Hlen & _).
  set (q := wrap16 (highestReceived s + 1)).
  assert (Hq : 0 <= q < 65536) by (apply Z.mod_pos_bound; lia).
  assert (Hdiff : wrap16 (q - highestReceived s) = 1).
  { unfold q, wrap16. Z.div_mod_to_equations. lia. }
  assert (Hqm : q mod BUFFER_SIZE = (highestReceived s + 1) mod BUFFER_SIZE)
    by apply wrap16_mod_BUFFER_SIZE.
  assert (Hb : 0 <= q mod BUFFER_SIZE < BUFFER_SIZE)
    by (apply Z.mod_pos_bound; reflexivity).
  assert (Hr : 0 <= 0 mod BUFFER_SIZE < BUFFER_SIZE)
    by (apply Z.mod_pos_bound; reflexivity).
  assert (Ha : 0 <= highestReceived s mod BUFFER_SIZE < BUFFER_SIZE)
    by (apply Z.mod_pos_bound; reflexivity).
  destruct (onSeqReceived_advances q false 0 s Hlen)
    as (sa & Hadv & Hrun & Hha & Hlena & Hslots);
    [rewrite Hdiff; lia | rewrite Hdiff; unfold BUFFER_SIZE; lia |].
  assert (Hcleared : forall j, 0 <= j < BUFFER_SIZE ->
             slot (receivedSeqs sa) j
             = if decide (j = (highestReceived s + BUFFER_SIZE / 2)
                              mod BUFFER_SIZE)
               then 0 else slot (receivedSeqs s) j).
  { intros j Hj. rewrite (Hslots j Hj).
    destruct (decide (j ∈ _)) as [Hin | Hnin];
      destruct (decide (j = _)) as [Hj' | Hj']; try reflexivity; exfalso.
    - apply elem_of_clearedSlots in Hin; [|assumption..].
      revert Hin Hj'. rewrite Hqm. unfold BUFFER_SIZE in *.
      change (1024 / 2) with 512. Z.div_mod_to_equations. lia.
    - apply Hnin. apply elem_of_clearedSlots; [assumption..|].
      revert Hj'. rewrite Hqm. unfold BUFFER_SIZE in *.
      change (1024 / 2) with 512. Z.div_mod_to_equations. lia. }
  assert (Hfresh : slot (receivedSeqs sa) (q mod BUFFER_SIZE) = 0).
  { rewrite (Hcleared _ Hb). destruct (decide _); [reflexivity|].
    rewrite Hqm. apply Hfree. change (BUFFER_SIZE / 2) with 512. lia. }
  destruct (markReceived_fresh (q mod BUFFER_SIZE) false (0 mod BUFFER_SIZE)
              sa Hlena Hb Hr Hfresh) as (r2 & Hmark & Hlen2 & Hslots2);
    [discriminate|].
  exists (set_receivedSeqs r2 sa). rewrite Hrun, Hmark.
  split; [reflexivity|]. split; [exact Hha|].
  assert (Hwfa : wf sa) by exact (advance_wf q s sa Hwf Hq Hadv).
  split; [now apply wf_set_receivedSeqs|]. split.
  - intros j Hj. cbn [receivedSeqs highestReceived set_receivedSeqs].
    rewrite Hha.
    assert (Hjm : 0 <= (q + j) mod BUFFER_SIZE < BUFFER_SIZE)
      by (apply Z.mod_pos_bound; reflexivity).
    rewrite (Hslots2 _ Hjm). cbn [andb]. rewrite Z.lor_0_r.
    assert (((q + j) mod BUFFER_SIZE =? q mod BUFFER_SIZE) = false) as ->.
    { apply Z.eqb_neq. revert Hj. unfold BUFFER_SIZE.
      change (1024 / 2) with 512. Z.div_mod_to_equations. lia. }
    rewrite Z.lor_0_r, (Hcleared _ Hjm).
    destruct (decide _) as [_ | Hne]; [reflexivity|].
    assert (Hshift : (q + j) mod BUFFER_SIZE
                     = (highestReceived s + (j + 1)) mod BUFFER_SIZE).
    { rewrite <- Z.add_mod_idemp_l, Hqm, Z.add_mod_idemp_l by discriminate.
      f_equal. lia. }
    rewrite Hshift in Hne |- *.
    apply Hfree. revert Hj Hne. change (BUFFER_SIZE / 2) with 512.
    intros Hj Hne. destruct (Z.eq_dec j 511) as [-> | Hj']; [|lia].
    now contradiction Hne.
  - destruct (advance_spec q s Hlen) as (r' & Hadv' & _).
    rewrite Hadv' in Hadv. injection Hadv as <-. reflexivity.
Qed.

Lemma onSeqReceivedAll_in_order (n : nat) :
  forall s,
    wf s -> windowFree s ->
    exists s',
      onSeqReceivedAll (sentSequences (highestReceived s + 1) n) s
      = Some (replicate n true, s') /\
      highestReceived s' = wrap16 (highestReceived s + Z.of_nat n) /\
      wf s' /\ windowFree s' /\ parent s' = parent s.
Proof.
  induction n as [|n IH]; intros s Hwf Hfree.
  - exists s. split; [reflexivity|]. split.
    { rewrite Z.add_0_r. unfold wrap16.
      rewrite Z.mod_small; [reflexivity | apply Hwf]. }
    auto.
  - rewrite sentSequences_succ.
    destruct (onSeqReceived_next s Hwf Hfree)
      as (s1 & Hrun & Hh1 & Hwf1 & Hfree1 & Hp1).
    destruct (IH s1 Hwf1 Hfree1) as (s' & Hall & Hh' & Hwf' & Hfree' & Hp').
    exists s'. cbn [onSeqReceivedAll replicate]. rewrite Hrun.
    rewrite (sentSequences_wrap (wrap16 (highestReceived s + 1 + 1))
                                (highestReceived s1 + 1)).
    + rewrite Hall. split; [reflexivity|]. split; [|split; [|split]]; auto.
      * rewrite Hh', Hh1. unfold wrap16.
        rewrite Z.add_mod_idemp_l by lia. f_equal. lia.
      * congruence.
    + rewrite Hh1. unfold wrap16. rewrite Z.mod_mod by lia.
      now rewrite (Z.add_mod_idemp_l (highestReceived s + 1)) by lia.
Qed.

(** X15: sub-packets that arrive in order are all accepted, however many:
    on a well-formed channel where no slot of the 511 sequences after
    [highestReceived] is marked, as on a new channel, [onSeqReceived]
    returns true for each of the next [n] sequences, through the
    wrap-around of the ring and of the 16-bit sequence number; it leaves
    [highestReceived] at the last of them, the channel in such a state
    again, and the parent untouched. *)
Theorem in_order_arrivals_all_accepted (n : nat) s :
  wf s -> windowFree s ->
  exists s',
    onSeqReceivedAll (sentSequences (highestReceived s + 1) n) s
    = Some (replicate n true, s') /\
    highestReceived s' = wrap16 (highestReceived s + Z.of_nat n) /\
    wf s' /\ windowFree s' /\ parent s' = parent s.
Proof. intros. now apply onSeqReceivedAll_in_order. Qed.

End InOrder.

Lemma in_order_arrivals_all_accepted_witness :
  wf chan0 /\ windowFree chan0 /\
  exists s',
    onSeqReceivedAll [0; 1; 2] chan0 = Some ([true; true; true], s') /\
    highestReceived s' = 2.
Proof.
  split; [exact chan0_wf|]. split; [apply new_windowFree|].
  destruct (in_order_arrivals_all_accepted 3 chan0 chan0_wf
              (new_windowFree client0 0)) as (s' & Hrun & Hh & _).
  exists s'. split; [exact Hrun | exact Hh].
Defined.

(** *** [receive] over a [UDPConnection] *)

Section ReceiveOverUDP.
Context `{FloatOps}.
Implicit Types s : ReliableConnection.t UDPConnection.t.

Lemma closes_keep_pendingReceive (k : nat) (c : UDPConnection.t) :
  UDPConnection.pendingReceive (Nat.iter k conn_close c)
  = UDPConnection.pendingReceive c.
Proof.
  induction k as [|k IH]; [reflexivity|].
  rewrite Nat.iter_succ, <- IH.
  generalize (Nat.iter k conn_close c). intros c'.
  change (conn_close c') with (UDPConnection.close c').
  unfold UDPConnection.close. now rewrite onClose_same.
Qed.

Lemma drainParent_udp (now : Z) (n : nat) :
  forall s,
    wf s ->
    length (UDPConnection.pendingReceive (parent s)) = n ->
    Forall (fun data => Forall isByte data /\ (8 <= length data)%nat)
           (UDPConnection.pendingReceive (parent s)) ->
    exists s' new,
      ((drainParent n now s = Returned s'
        /\ UDPConnection.pendingReceive (parent s') = [])
       \/ exists msg, drainParent n now s = Thrown msg s') /\
      wf s' /\
      sequenceSent s' = sequenceSent s /\
      pendingPackets s' = pendingPackets s ++ new /\
      Forall (fun payload : list Z => (length payload <= 2048)%nat) new.
Proof.
  induction n as [|n IH]; intros s Hwf Hlen Hbytes.
  - destruct (UDPConnection.pendingReceive (parent s)) as [|d q] eqn:Hq;
      [|discriminate Hlen].
    exists s, []. split.
    + left. split; [|exact Hq]. cbn [drainParent].
      change (conn_receive (parent s))
        with (UDPConnection.receive (parent s)).
      unfold UDPConnection.receive. now rewrite Hq.
    + rewrite app_nil_r. auto.
  - destruct (UDPConnection.pendingReceive (parent s)) as [|d q] eqn:Hq;
      [discriminate Hlen|].
    apply Forall_cons in Hbytes as [[Hd Hd8] Hbytes].
    injection Hlen as Hlen.
    set (s0 := set_lastReceive now
                 (set_parent (UDPConnection.set_pendingReceive q (parent s))
                             s)).
    assert (Hstep : drainParent (S n) now s
                    = match processReceivedPacket d now s0 with
                      | Returned s => drainParent n now s
                      | Thrown msg s => Thrown msg s
                      | Unfinished => Unfinished
                      | Unspecified => Unspecified
                      end).
    { cbn [drainParent].
      change (conn_receive (parent s))
        with (UDPConnection.receive (parent s)).
      unfold UDPConnection.receive. now rewrite Hq. }
    assert (Hwf0 : wf s0).
    { destruct Hwf as (? & ? & ? & ?). now repeat split. }
    destruct (processReceivedPacket_inbound d now s0 Hwf0 Hd Hd8)
      as (s1 & Hend & Hwf1 & Hss1 & [k Hp1] & new1 & Hq1 & Hn1).
    assert (Hqueue : UDPConnection.pendingReceive (parent s1) = q)
      by (rewrite Hp1; apply closes_keep_pendingReceive).
    destruct Hend as [Hret | [msg Hthrow]].
    + destruct (IH s1 Hwf1) as (s' & new2 & Hend' & Hwf' & Hss' & Hq' & Hn2).
      * now rewrite Hqueue.
      * now rewrite Hqueue.
      * exists s', (new1 ++ new2). rewrite Hstep, Hret.
        split; [exact Hend'|]. split; [exact Hwf'|].
        split; [now rewrite Hss', Hss1|].
        split; [|now apply Forall_app].
        rewrite Hq', Hq1, app_assoc. reflexivity.
    + exists s1, new1. rewrite Hstep, Hthrow.
      split; [right; now exists msg|]. auto.
Qed.

Lemma receive_udp (now : Z) s :
  wf s ->
  Forall (fun data => Forall isByte data /\ (8 <= length data)%nat)
         (UDPConnection.pendingReceive (parent s)) ->
  exists result new,
    ((receive (length (UDPConnection.pendingReceive (parent s))) now s
      = Returned result
      /\ UDPConnection.pendingReceive (parent (snd result)) = []
      /\ match pendingPackets s ++ new with
         | [] => fst result = None /\ pendingPackets (snd result) = []
         | packet :: rest =>
             fst result = Some packet /\ pendingPackets (snd result) = rest
         end)
     \/ (exists msg,
           receive (length (UDPConnection.pendingReceive (parent s))) now s
           = Thrown msg result)
        /\ fst result = None
        /\ pendingPackets (snd result) = pendingPackets s ++ new) /\
    wf (snd result) /\
    sequenceSent (snd result) = sequenceSent s /\
    Forall (fun payload : list Z => (length payload <= 2048)%nat) new.
Proof.
  intros Hwf Hbytes.
  destruct (drainParent_udp now _ s Hwf eq_refl Hbytes)
    as (s' & new & Hend & Hwf' & Hss & Hq & Hn).
  unfold receive.
  destruct Hend as [[Hret Hempty] | [msg Hthrow]].
  - rewrite Hret.
    destruct (pendingPackets s') as [|packet rest] eqn:Hq'.
    + exists (None, s'), new. cbn [fst snd]. split.
      * left. rewrite <- Hq, ?Hq'. auto.
      * auto.
    + exists (Some packet, set_pendingPackets rest s'), new. cbn [fst snd].
      split.
      * left. rewrite <- Hq, ?Hq'. auto.
      * split; [|auto]. destruct Hwf' as (? & ? & ? & ?). now repeat split.
  - rewrite Hthrow. exists (None, s'), new. cbn [fst snd]. split.
    + right. split; [now exists msg|]. auto.
    + auto.
Qed.

(** X16: [receive] on a well-formed channel over a [UDPConnection] whose
    queued datagrams are bytes, each holding the 8 bytes of a
    [ReliableHeader], comes to an end after at most one pass of its loop
    for each queued datagram.  If it returns, the queue of the
    connection is empty and the packets pending before the call come out
    ahead of those the datagrams brought: the packet returned is the first
    of the two lists together, and false is returned only when both are
    empty.  If a datagram makes [processReceivedPacket] throw one of its
    exceptions, no packet is returned and what had been accepted stays
    queued.  Either way the channel is left
    well-formed, [sequenceSent] is unchanged, and no payload added is
    longer than 2048 bytes. *)
Theorem receive_drains_udp_queue (now : Z) s :
  wf s ->
  Forall (fun data => Forall isByte data /\ (8 <= length data)%nat)
         (UDPConnection.pendingReceive (parent s)) ->
  exists result new,
    ((receive (length (UDPConnection.pendingReceive (parent s))) now s
      = Returned result
      /\ UDPConnection.pendingReceive (parent (snd result)) = []
      /\ match pendingPackets s ++ new with
         | [] => fst result = None /\ pendingPackets (snd result) = []
         | packet :: rest =>
             fst result = Some packet /\ pendingPackets (snd result) = rest
         end)
     \/ (exists msg,
           receive (length (UDPConnection.pendingReceive (parent s))) now s
           = Thrown msg result)
        /\ fst result = None
        /\ pendingPackets (snd result) = pendingPackets s ++ new) /\
    wf (snd result) /\
    sequenceSent (snd result) = sequenceSent s /\
    Forall (fun payload : list Z => (length payload <= 2048)%nat) new.
Proof. apply receive_udp. Qed.

End ReceiveOverUDP.

Lemma receive_drains_udp_queue_witness :
  wf chanQueued /\
  Forall (fun data => Forall isByte data /\ (8 <= length data)%nat)
         (UDPConnection.pendingReceive (parent chanQueued)) /\
  exists s',
    receive 2 7 chanQueued = Returned (Some [1; 2; 3], s') /\
    pendingPackets s' = [[4; 5]] /\
    UDPConnection.pendingReceive (parent s') = [].
Proof.
  assert (Hwf : wf chanQueued) by apply new_wf.
  assert (Hb : Forall (fun data => Forall isByte data
                                  /\ (8 <= length data)%nat)
                 (UDPConnection.pendingReceive (parent chanQueued))).
  { change (UDPConnection.pendingReceive (parent chanQueued))
      with [datagramA; datagramB].
    repeat constructor; unfold isByte; cbn [length]; lia. }
  split; [exact Hwf|]. split; [exact Hb|].
  destruct (receive_drains_udp_queue 7 chanQueued Hwf Hb)
    as (result & new & Hend & _).
  change (length (UDPConnection.pendingReceive (parent chanQueued)))
    with 2%nat in Hend.
  assert (Hrun : match receive 2 7 chanQueued with
                 | Returned (Some p, s') =>
                     bool_decide (p = [1; 2; 3])
                     && bool_decide (pendingPackets s' = [[4; 5]])
                 | _ => false
                 end = true) by (vm_compute; reflexivity).
  destruct Hend as [(Hret & Hempty & _) | ((msg & Hthrow) & _)].
  - rewrite Hret in Hrun. destruct result as [[p|] s']; [|discriminate Hrun].
    apply andb_prop in Hrun as [Hp Hq].
    apply bool_decide_eq_true in Hp, Hq. subst p.
    exists s'. rewrite Hret. auto.
  - rewrite Hthrow in Hrun. discriminate Hrun.
Defined.

(** *** [sendTagged] over a [UDPConnection] *)

Section SendOverUDP.
Context `{FloatOps}.
Implicit Types s : ReliableConnection.t UDPConnection.t.

Lemma sendTagged_udp (packet : OutboundNetworkPacket) (tg now : Z) s :
  0 <= tg ->
  UDPConnection.pendingSend (parent s) = [] ->
  exists s',
    sendTagged packet tg now s = Some s' /\
    sequenceSent s' = wrap16 (sequenceSent s + 1) /\
    sentPackets s'
    = <[Z.to_nat (sequenceSent s mod BUFFER_SIZE) :=
          {| waiting := true; tag := tg; timestamp := now |}]>
        (sentPackets s) /\
    UDPConnection.socket (parent s')
    = UDPConnection.socket (parent s)
      ++ (if bool_decide (UDPConnection.status (parent s) = OPEN)
             || bool_decide (UDPConnection.status (parent s) = CONNECTING)
          then [(UDPConnection.remote (parent s),
                 255 :: le16 (sequenceSent s) ++ le16 (highestReceived s)
                 ++ le32 (generateAckBits s)
                 ++ encodeSubHeader (getSize packet) false 0 ++ packet)]
          else []).
Proof.
  intros Htg Hq.
  destruct (sendTagged_fields packet tg now s Htg)
    as (s' & Hsend & Hss & Hsp & _).
  exists s'. split; [exact Hsend|]. split; [exact Hss|].
  split; [exact Hsp|].
  rewrite (sendTagged_wire packet tg now s s' Hsend).
  change (conn_send ?d (parent s)) with (UDPConnection.send d (parent s)).
  unfold UDPConnection.send.
  destruct (bool_decide (UDPConnection.status (parent s) = OPEN)
            || bool_decide (UDPConnection.status (parent s) = CONNECTING)).
  - rewrite Hq. cbn -[Z.to_nat Z.of_nat take le16 le32 encodeSubHeader].
    unfold getSize. rewrite Nat2Z.id, firstn_all. reflexivity.
  - now rewrite app_nil_r.
Qed.

(** X17: [sendTagged] with a tag that is not negative, on a channel over a
    [UDPConnection] with nothing waiting to be sent, always takes the next
    sequence number and records the packet as waiting for its ACK.  While
    the connection is Open or Connecting it hands the socket one datagram
    for the remote: the byte 0xFF, the sequence, [highestReceived] and the
    ACK bits (2, 2 and 4 bytes, little-endian), the sub-header and the
    payload.  On a Closing or Closed connection nothing reaches the
    socket, but the sequence number is used up and the entry still
    waits. *)
Theorem sendTagged_reaches_socket_while_live (packet : OutboundNetworkPacket)
  (tg now : Z) s :
  0 <= tg ->
  UDPConnection.pendingSend (parent s) = [] ->
  exists s',
    sendTagged packet tg now s = Some s' /\
    sequenceSent s' = wrap16 (sequenceSent s + 1) /\
    sentPackets s'
    = <[Z.to_nat (sequenceSent s mod BUFFER_SIZE) :=
          {| waiting := true; tag := tg; timestamp := now |}]>
        (sentPackets s) /\
    UDPConnection.socket (parent s')
    = UDPConnection.socket (parent s)
      ++ (if bool_decide (UDPConnection.status (parent s) = OPEN)
             || bool_decide (UDPConnection.status (parent s) = CONNECTING)
          then [(UDPConnection.remote (parent s),
                 255 :: le16 (sequenceSent s) ++ le16 (highestReceived s)
                 ++ le32 (generateAckBits s)
                 ++ encodeSubHeader (getSize packet) false 0 ++ packet)]
          else []).
Proof. apply sendTagged_udp. Qed.

End SendOverUDP.

Lemma sendTagged_reaches_socket_while_live_witness :
  exists s',
    sendTagged [1; 2; 3] 4 9 chanOpen = Some s' /\
    sequenceSent s' = 1 /\
    UDPConnection.socket (parent s')
    = UDPConnection.socket server5
      ++ [(peer, [255; 0; 0; 255; 255; 0; 0; 0; 0; 3; 1; 2; 3])].
Proof.
  destruct (sendTagged_reaches_socket_while_live [1; 2; 3] 4 9 chanOpen
              ltac:(lia) eq_refl) as (s' & Hsend & Hss & _ & Hsock).
  exists s'. split; [exact Hsend|]. split; [exact Hss|].
  rewrite Hsock. vm_compute. reflexivity.
Defined.
